(** * rn-date-picker-dialog: the selection-synchronisation core of
      [src/DatePickerDialog.tsx], embedded and verified.

    The component is a React function component.  Its pure helpers
    ([buildYearList], [buildMonthList], [buildDayList], the offset formulas)
    become functions; its hooks become explicit state passing over a record
    of the component's state, one function per handler or effect.

    Numbers are [Z]; a value that may be JavaScript's [undefined] (or the
    [NaN] that arithmetic on it yields) has type [JSnum = option Z].  Scroll
    offsets are rationals ([Q]), since [Math.round] and [/] act on them. *)

From Stdlib Require Import ZArith List Bool Lia QArith Qround Qminmax Qfield.
Import ListNotations.
Open Scope Z_scope.

(** ** The host's [Date] object

    A [Date] holds a time value in milliseconds.  The embedding follows the
    abstract operations of ECMA-262 (Day, DayFromYear, YearFromTime,
    MonthFromTime, DateFromTime, MakeDay, MakeDate), taken on local time:
    the offset between local time and UTC is not modelled, and neither is
    the range limit of time values.  Only valid dates are represented. *)

Module JSDate.

Definition Date := Z.

Definition msPerDay : Z := 86400000.

Definition Day (t : Z) : Z := t / msPerDay.
Definition TimeWithinDay (t : Z) : Z := t mod msPerDay.

Definition isLeapYear (y : Z) : bool :=
  ((y mod 4 =? 0) && negb (y mod 100 =? 0)) || (y mod 400 =? 0).

Definition DaysInYear (y : Z) : Z := if isLeapYear y then 366 else 365.

Definition DayFromYear (y : Z) : Z :=
  365 * (y - 1970) + (y - 1969) / 4 - (y - 1901) / 100 + (y - 1601) / 400.

(** ECMA-262 defines YearFromTime as the largest year whose first day is not
    after the given day.  It is computed here from an estimate that is off by
    one at most ([YearFromDay_spec] below shows that it is that year). *)
Definition YearFromDay (d : Z) : Z :=
  let y0 := 1970 + (400 * d) / 146097 in
  if DayFromYear (y0 + 1) <=? d then y0 + 1
  else if DayFromYear y0 <=? d then y0
  else y0 - 1.

Definition YearFromTime (t : Z) : Z := YearFromDay (Day t).

Definition InLeapYear (t : Z) : Z :=
  if isLeapYear (YearFromTime t) then 1 else 0.

Definition DayWithinYear (t : Z) : Z := Day t - DayFromYear (YearFromTime t).

(** The first day, within its year, of each month (0 = January). *)
Definition monthStart (leap mn : Z) : Z :=
  match mn with
  | 0 => 0
  | 1 => 31
  | 2 => 59 + leap
  | 3 => 90 + leap
  | 4 => 120 + leap
  | 5 => 151 + leap
  | 6 => 181 + leap
  | 7 => 212 + leap
  | 8 => 243 + leap
  | 9 => 273 + leap
  | 10 => 304 + leap
  | 11 => 334 + leap
  | _ => 365 + leap
  end.

Definition monthOfYearDay (leap dwy : Z) : Z :=
  if dwy <? 31 then 0
  else if dwy <? 59 + leap then 1
  else if dwy <? 90 + leap then 2
  else if dwy <? 120 + leap then 3
  else if dwy <? 151 + leap then 4
  else if dwy <? 181 + leap then 5
  else if dwy <? 212 + leap then 6
  else if dwy <? 243 + leap then 7
  else if dwy <? 273 + leap then 8
  else if dwy <? 304 + leap then 9
  else if dwy <? 334 + leap then 10
  else 11.

Definition MonthFromTime (t : Z) : Z :=
  monthOfYearDay (InLeapYear t) (DayWithinYear t).

Definition DateFromTime (t : Z) : Z :=
  DayWithinYear t - monthStart (InLeapYear t) (MonthFromTime t) + 1.

(** MakeDay: the day number of day [dt] of month [month] (0-based, any
    integer) of [year]; [dt] may lie outside the month. *)
Definition MakeDay (year month dt : Z) : Z :=
  let ym := year + month / 12 in
  let mn := month mod 12 in
  DayFromYear ym + monthStart (if isLeapYear ym then 1 else 0) mn + dt - 1.

Definition MakeDate (day time : Z) : Z := day * msPerDay + time.

(** [new Date(year, month, date)]: a year from 0 to 99 stands for
    1900 + year; hours, minutes, seconds and milliseconds are 0. *)
Definition MakeFullYear (y : Z) : Z :=
  if (0 <=? y) && (y <=? 99) then 1900 + y else y.

Definition newDate (year month date : Z) : Date :=
  MakeDate (MakeDay (MakeFullYear year) month date) 0.

Definition getFullYear (d : Date) : Z := YearFromTime d.
Definition getMonth (d : Date) : Z := MonthFromTime d.
Definition getDate (d : Date) : Z := DateFromTime d.

(** [d.setHours(0, 0, 0, 0)] *)
Definition setHoursZero (d : Date) : Date := MakeDate (Day d) 0.

(** Relational operators on dates compare time values. *)
Definition gt (a b : Date) : bool := b <? a.
Definition lt (a b : Date) : bool := a <? b.

(** The calendar's own month lengths, independent of the above: the
    reference against which the day lists are checked. *)
Definition daysInMonth (y m : Z) : Z :=
  match m with
  | 2 => if isLeapYear y then 29 else 28
  | 4 | 6 | 9 | 11 => 30
  | _ => 31
  end.

End JSDate.

Import JSDate.

(** ** JavaScript values and arrays *)

(** A number that may be [undefined]: what [values[i]] yields, and so what
    the selection state can hold.  [None] also stands for [NaN], which
    arithmetic on [undefined] produces; both fail every comparison with a
    number, which is all the component does with them. *)
Definition JSnum := option Z.

(** [a === b] for a number [b] *)
Definition js_eq (a : JSnum) (b : Z) : bool :=
  match a with Some x => x =? b | None => false end.

(** [a > b] for a number [b] *)
Definition js_gt (a : JSnum) (b : Z) : bool :=
  match a with Some x => b <? x | None => false end.

(** [a > b] and [a < b] when either side may be [undefined] *)
Definition js_gtb (a b : JSnum) : bool :=
  match a, b with Some x, Some y => y <? x | _, _ => false end.

Definition js_ltb (a b : JSnum) : bool :=
  match a, b with Some x, Some y => x <? y | _, _ => false end.

(** [a === b] on state values, as [setState] and dependency lists compare *)
Definition js_same (a b : JSnum) : bool :=
  match a, b with
  | Some x, Some y => x =? y
  | None, None => true
  | _, _ => false
  end.

Definition js_add (a : JSnum) (b : Z) : JSnum := option_map (fun x => x + b) a.

(** [Array.from({ length: len }, (_, i) => start + i)]: a negative or [NaN]
    length gives the empty array. *)
Definition array_from_range (len : JSnum) (start : Z) : list Z :=
  match len with
  | Some n => map (fun i => start + Z.of_nat i) (seq 0 (Z.to_nat n))
  | None => []
  end.

(** [values[i]]: [undefined] outside the array *)
Definition js_index (values : list Z) (i : Z) : JSnum :=
  if i <? 0 then None else nth_error values (Z.to_nat i).

(** [values.includes(v)] *)
Definition includes (values : list Z) (v : JSnum) : bool :=
  match v with
  | Some x => existsb (Z.eqb x) values
  | None => false
  end.

(** [values.indexOf(v)], -1 when absent *)
Fixpoint indexOf_from (values : list Z) (v : Z) (i : Z) : Z :=
  match values with
  | [] => -1
  | x :: rest => if x =? v then i else indexOf_from rest v (i + 1)
  end.

Definition indexOf (values : list Z) (v : JSnum) : Z :=
  match v with
  | Some x => indexOf_from values x 0
  | None => -1
  end.

Definition js_length (values : list Z) : Z := Z.of_nat (length values).

(** [Math.round] on a rational: halves go up. *)
Definition Math_round (x : Q) : Z := Qfloor (x + (1 # 2)).

(** ** Props and derived bounds *)

Record Props := {
  (** a valid date, or absent: an Invalid Date object is not represented *)
  initialDate : option Date;
  minDateProp : option Date;
  maxDate : option Date;
  (** whether the caller passed each callback *)
  onConfirm : bool;
  onCancel : bool;
  onDismiss : bool;
  (** the value of [new Date()] when the component mounts *)
  now : Date
}.

Definition ITEM_HEIGHT : Z := 46.
Definition VISIBLE_ITEM_COUNT : Z := 5.
Definition PADDING : Z := ITEM_HEIGHT * 2.

(** [minDate = new Date(1945, 0, 1)] when the prop is absent *)
Definition minDate (P : Props) : Date :=
  match minDateProp P with
  | Some d => d
  | None => newDate 1945 0 1
  end.

Definition today (P : Props) : Date := setHoursZero (now P).

Definition effectiveMaxDate (P : Props) : Date :=
  match maxDate P with
  | Some m =>
      let maxDateCopy := setHoursZero m in
      if gt maxDateCopy (today P) then today P else maxDateCopy
  | None => today P
  end.

(** ** RangeCalculator *)

Definition buildYearList (P : Props) : list Z :=
  let start := getFullYear (minDate P) in
  let end_ := getFullYear (effectiveMaxDate P) in
  array_from_range (Some (end_ - start + 1)) start.

Definition buildMonthList (P : Props) (year : JSnum) : list Z :=
  let minMonth :=
    if js_eq year (getFullYear (minDate P)) then getMonth (minDate P) + 1 else 1 in
  if js_eq year (getFullYear (effectiveMaxDate P)) then
    let maxMonth := getMonth (effectiveMaxDate P) + 1 in
    array_from_range (Some (maxMonth - minMonth + 1)) minMonth
  else if js_gt year (getFullYear (effectiveMaxDate P)) then []
  else
    let maxMonth := 12 in
    array_from_range (Some (maxMonth - minMonth + 1)) minMonth.

(** [new Date(year, month, 0).getDate()]; [NaN] when an argument is
    [undefined]. *)
Definition totalDaysOf (year month : JSnum) : JSnum :=
  match year, month with
  | Some y, Some m => Some (getDate (newDate y m 0))
  | _, _ => None
  end.

Definition buildDayList (P : Props) (year month : JSnum) : list Z :=
  let totalDays := totalDaysOf year month in
  let minDay :=
    if js_eq year (getFullYear (minDate P)) && js_eq month (getMonth (minDate P) + 1)
    then getDate (minDate P) else 1 in
  if js_eq year (getFullYear (effectiveMaxDate P))
     && js_eq month (getMonth (effectiveMaxDate P) + 1)
  then
    let maxDay := getDate (effectiveMaxDate P) in
    array_from_range (Some (maxDay - minDay + 1)) minDay
  else if js_gt year (getFullYear (effectiveMaxDate P))
          || (js_eq year (getFullYear (effectiveMaxDate P))
              && js_gt month (getMonth (effectiveMaxDate P) + 1))
  then []
  else
    let maxDay := totalDays in
    array_from_range (js_add (js_add maxDay (- minDay)) 1) minDay.

(** ** Component state *)

Inductive Column := ColYear | ColMonth | ColDay.

(** The three [useState] cells that make up the selected date.  A render's
    closures see one such triple; timers and memoised callbacks keep the
    triple of the render that created them. *)
Record Selection := {
  selectedYear : JSnum;
  selectedMonth : JSnum;
  selectedDay : JSnum
}.

(** [PickerColumnState], one per column, held in a ref.  An armed
    [scrollStopTimer] carries the closure of the render that armed it. *)
Record PickerColumnState := {
  scrollStopTimer : option Selection;
  isAutoScrolling : bool;
  centerIndex : Z
}.

(** The whole component between two events.  [pendingInit],
    [pendingMonthSync] and [pendingDaySync] say which of the three effects
    React will run for the last render (their dependencies changed);
    [initTimer] is the armed 100 ms timer of the initialisation effect, with
    the seed its closure holds, and [initDoneTimer] its 200 ms timer;
    [pressSelectedDay] is the [selectedDay] seen by the memoised
    [handleItemPress], re-created only when year or month change;
    [yearCenterIndex], [monthCenterIndex] and [dayCenterIndex] are the state
    cells that copy the columns' [centerIndex] for rendering. *)
Record State := {
  visible : bool;
  selection : Selection;
  yearColumnState : PickerColumnState;
  monthColumnState : PickerColumnState;
  dayColumnState : PickerColumnState;
  isInitializing : bool;
  initTimer : option Selection;
  initDoneTimer : bool;
  pendingInit : bool;
  pendingMonthSync : bool;
  pendingDaySync : bool;
  yearCenterIndex : Z;
  monthCenterIndex : Z;
  dayCenterIndex : Z;
  pressSelectedDay : JSnum
}.

(** What the component does to the outside: the callbacks it invokes and the
    scroll commands it issues. *)
Inductive Output :=
| CallConfirm (date : option Date)
| CallCancel
| CallDismiss
| ScrollTo (column : Column) (y : Q) (animated : bool).

Definition columnState (s : State) (column : Column) : PickerColumnState :=
  match column with
  | ColYear => yearColumnState s
  | ColMonth => monthColumnState s
  | ColDay => dayColumnState s
  end.

Definition setColumnState (s : State) (column : Column) (c : PickerColumnState)
  : State :=
  match column with
  | ColYear =>
      {| visible := visible s; selection := selection s;
         yearColumnState := c; monthColumnState := monthColumnState s;
         dayColumnState := dayColumnState s; isInitializing := isInitializing s;
         initTimer := initTimer s;
         initDoneTimer := initDoneTimer s; pendingInit := pendingInit s;
         pendingMonthSync := pendingMonthSync s;
         pendingDaySync := pendingDaySync s;
         yearCenterIndex := yearCenterIndex s;
         monthCenterIndex := monthCenterIndex s;
         dayCenterIndex := dayCenterIndex s;
         pressSelectedDay := pressSelectedDay s |}
  | ColMonth =>
      {| visible := visible s; selection := selection s;
         yearColumnState := yearColumnState s; monthColumnState := c;
         dayColumnState := dayColumnState s; isInitializing := isInitializing s;
         initTimer := initTimer s;
         initDoneTimer := initDoneTimer s; pendingInit := pendingInit s;
         pendingMonthSync := pendingMonthSync s;
         pendingDaySync := pendingDaySync s;
         yearCenterIndex := yearCenterIndex s;
         monthCenterIndex := monthCenterIndex s;
         dayCenterIndex := dayCenterIndex s;
         pressSelectedDay := pressSelectedDay s |}
  | ColDay =>
      {| visible := visible s; selection := selection s;
         yearColumnState := yearColumnState s;
         monthColumnState := monthColumnState s;
         dayColumnState := c; isInitializing := isInitializing s;
         initTimer := initTimer s;
         initDoneTimer := initDoneTimer s; pendingInit := pendingInit s;
         pendingMonthSync := pendingMonthSync s;
         pendingDaySync := pendingDaySync s;
         yearCenterIndex := yearCenterIndex s;
         monthCenterIndex := monthCenterIndex s;
         dayCenterIndex := dayCenterIndex s;
         pressSelectedDay := pressSelectedDay s |}
  end.

Definition setInitializing (s : State) (b : bool) (t : option Selection)
  (done : bool) : State :=
  {| visible := visible s; selection := selection s;
     yearColumnState := yearColumnState s;
     monthColumnState := monthColumnState s;
     dayColumnState := dayColumnState s; isInitializing := b;
     initTimer := t; initDoneTimer := done;
     pendingInit := pendingInit s;
     pendingMonthSync := pendingMonthSync s;
     pendingDaySync := pendingDaySync s;
     yearCenterIndex := yearCenterIndex s;
     monthCenterIndex := monthCenterIndex s;
     dayCenterIndex := dayCenterIndex s;
     pressSelectedDay := pressSelectedDay s |}.

(** [minDate = new Date(1945, 0, 1)] is a default parameter: when the prop is
    absent, every render builds a new [Date] object, so every hook that
    depends on [minDate] (the three list builders and, through them, the three
    effects) finds a changed dependency at every render. *)
Definition freshMinDate (P : Props) : bool :=
  match minDateProp P with
  | Some _ => false
  | None => true
  end.

(** The component renders with [visible = vis] and the selection [sel']: the
    effects whose dependencies differ from the previous render's are
    scheduled, and [handleItemPress] is re-created when its dependencies
    ([selectedYear], [selectedMonth]) differ.  The updates of one event are
    batched into one render: what an earlier update of the same event has
    scheduled stays scheduled. *)
Definition render (P : Props) (s : State) (vis : bool) (sel' : Selection)
  : State :=
  let visibleChanged := negb (Bool.eqb vis (visible s)) in
  let yearChanged :=
    negb (js_same (selectedYear sel') (selectedYear (selection s))) in
  let monthChanged :=
    negb (js_same (selectedMonth sel') (selectedMonth (selection s))) in
  {| visible := vis; selection := sel';
     yearColumnState := yearColumnState s;
     monthColumnState := monthColumnState s;
     dayColumnState := dayColumnState s;
     isInitializing := isInitializing s;
     initTimer := initTimer s;
     initDoneTimer := initDoneTimer s;
     pendingInit := pendingInit s || visibleChanged || freshMinDate P;
     pendingMonthSync :=
       pendingMonthSync s || yearChanged || visibleChanged || freshMinDate P;
     pendingDaySync :=
       pendingDaySync s || yearChanged || monthChanged || visibleChanged
       || freshMinDate P;
     yearCenterIndex := yearCenterIndex s;
     monthCenterIndex := monthCenterIndex s;
     dayCenterIndex := dayCenterIndex s;
     pressSelectedDay :=
       if yearChanged || monthChanged then selectedDay sel'
       else pressSelectedDay s |}.

Definition selection_same (a b : Selection) : bool :=
  js_same (selectedYear a) (selectedYear b)
  && js_same (selectedMonth a) (selectedMonth b)
  && js_same (selectedDay a) (selectedDay b).

(** The state setters have been called and leave the selection [sel']:
    React renders again only if a cell changed. *)
Definition commit (P : Props) (s : State) (sel' : Selection) : State :=
  if selection_same sel' (selection s) then s
  else render P s (visible s) sel'.

Definition centerIndexState (s : State) (column : Column) : Z :=
  match column with
  | ColYear => yearCenterIndex s
  | ColMonth => monthCenterIndex s
  | ColDay => dayCenterIndex s
  end.

Definition withCenterIndexState (s : State) (column : Column) (index : Z)
  : State :=
  {| visible := visible s; selection := selection s;
     yearColumnState := yearColumnState s;
     monthColumnState := monthColumnState s;
     dayColumnState := dayColumnState s;
     isInitializing := isInitializing s;
     initTimer := initTimer s; initDoneTimer := initDoneTimer s;
     pendingInit := pendingInit s;
     pendingMonthSync := pendingMonthSync s;
     pendingDaySync := pendingDaySync s;
     yearCenterIndex :=
       match column with ColYear => index | _ => yearCenterIndex s end;
     monthCenterIndex :=
       match column with ColMonth => index | _ => monthCenterIndex s end;
     dayCenterIndex :=
       match column with ColDay => index | _ => dayCenterIndex s end;
     pressSelectedDay := pressSelectedDay s |}.

(** [setYearCenterIndex(index)] and its two siblings: React renders again
    only if the cell changed. *)
Definition setCenterIndexState (P : Props) (s : State) (column : Column)
  (index : Z) : State :=
  if centerIndexState s column =? index then s
  else render P (withCenterIndexState s column index) (visible s) (selection s).

Definition withYear (sel : Selection) (v : JSnum) : Selection :=
  {| selectedYear := v; selectedMonth := selectedMonth sel;
     selectedDay := selectedDay sel |}.
Definition withMonth (sel : Selection) (v : JSnum) : Selection :=
  {| selectedYear := selectedYear sel; selectedMonth := v;
     selectedDay := selectedDay sel |}.
Definition withDay (sel : Selection) (v : JSnum) : Selection :=
  {| selectedYear := selectedYear sel; selectedMonth := selectedMonth sel;
     selectedDay := v |}.

(** The value list of a column as a closure with selection [sel] builds it. *)
Definition columnValues (P : Props) (sel : Selection) (column : Column) : list Z :=
  match column with
  | ColYear => buildYearList P
  | ColMonth => buildMonthList P (selectedYear sel)
  | ColDay => buildDayList P (selectedYear sel) (selectedMonth sel)
  end.

Definition columnSelected (sel : Selection) (column : Column) : JSnum :=
  match column with
  | ColYear => selectedYear sel
  | ColMonth => selectedMonth sel
  | ColDay => selectedDay sel
  end.

(** [Math.max(0, Math.min(index, values.length - 1))] *)
Definition clampIndex (values : list Z) (index : Z) : Z :=
  Z.max 0 (Z.min index (js_length values - 1)).

(** The state when the component mounts, before it is shown. *)
Definition idleColumn : PickerColumnState :=
  {| scrollStopTimer := None; isAutoScrolling := false; centerIndex := 0 |}.

Definition mount (P : Props) : State :=
  {| visible := false;
     selection :=
       {| selectedYear := Some (getFullYear (today P));
          selectedMonth := Some (getMonth (today P) + 1);
          selectedDay := Some (getDate (today P)) |};
     yearColumnState := idleColumn;
     monthColumnState := idleColumn;
     dayColumnState := idleColumn;
     isInitializing := false;
     initTimer := None;
     initDoneTimer := false;
     pendingInit := false;
     pendingMonthSync := false;
     pendingDaySync := false;
     yearCenterIndex := 0;
     monthCenterIndex := 0;
     dayCenterIndex := 0;
     pressSelectedDay := Some (getDate (today P)) |}.

(** ** AlignmentEngine *)

(** [(clampedIndex - centerIndex) * ITEM_HEIGHT + PADDING] with
    [centerIndex = (VISIBLE_ITEM_COUNT - 1) / 2] *)
Definition targetOffset (clampedIndex : Z) : Q :=
  let centerIndex := (inject_Z (VISIBLE_ITEM_COUNT - 1) / 2)%Q in
  ((inject_Z clampedIndex - centerIndex) * inject_Z ITEM_HEIGHT
   + inject_Z PADDING)%Q.

(** The [y] handed to [ref.scrollTo]: [Math.max(0, targetOffset)] *)
Definition scrollY (clampedIndex : Z) : Q := Qmax 0 (targetOffset clampedIndex).

(** [scrollToIndex], run by a closure that sees the selection [closure].  The
    column's [ScrollView] is mounted exactly while the modal is visible.  The
    scroll command, which the source defers to the next animation frame, is
    emitted at once; the timer that clears [isAutoScrolling] is the event
    [AutoScrollEnd] below. *)
Definition scrollToIndex (P : Props) (closure : Selection) (column : Column)
  (index : Z) (animate : bool) (s : State) : State * list Output :=
  if negb (visible s) then (s, [])
  else
    let values := columnValues P closure column in
    let clampedIndex := clampIndex values index in
    let state := columnState s column in
    (setCenterIndexState P
       (setColumnState s column
          {| scrollStopTimer := scrollStopTimer state;
             isAutoScrolling := true;
             centerIndex := clampedIndex |})
       column clampedIndex,
     [ScrollTo column (scrollY clampedIndex) animate]).

(** [state.centerIndex = index] and the state cell after it. *)
Definition setCenterIndex (P : Props) (s : State) (column : Column) (index : Z)
  : State :=
  let state := columnState s column in
  setCenterIndexState P
    (setColumnState s column
       {| scrollStopTimer := scrollStopTimer state;
          isAutoScrolling := isAutoScrolling state;
          centerIndex := index |})
    column index.

Definition alignColumnToSelection (P : Props) (closure : Selection)
  (column : Column) (animate : bool) (s : State) : State * list Output :=
  if negb (visible s) then (s, [])
  else
    let values := columnValues P closure column in
    let selectedValue := columnSelected closure column in
    let index := indexOf values selectedValue in
    if index =? -1 then (s, [])
    else
      scrollToIndex P closure column index animate
        (setCenterIndex P s column index).

(** [alignToValue] of the initialisation timer: the values come from the
    seeded year and month, not from the state. *)
Definition alignToValue (P : Props) (seed : Selection) (column : Column)
  (s : State) : State * list Output :=
  if negb (visible s) then (s, [])
  else
    let values := columnValues P seed column in
    let index := indexOf values (columnSelected seed column) in
    if index =? -1 then (s, [])
    else
      let clampedIndex := clampIndex values index in
      let state := columnState s column in
      (setCenterIndexState P
         (setColumnState s column
            {| scrollStopTimer := scrollStopTimer state;
               isAutoScrolling := true;
               centerIndex := clampedIndex |})
         column clampedIndex,
       [ScrollTo column (scrollY clampedIndex) false]).

(** ** ScrollEventInterpreter *)

(** The index a scroll offset stands for:
    [centerOffset = offsetY + ITEM_HEIGHT * (VISIBLE_ITEM_COUNT - 1) / 2 - PADDING],
    [Math.round(centerOffset / ITEM_HEIGHT)], clamped into the list. *)
Definition centerOffsetOf (offsetY : Q) : Q :=
  (offsetY + inject_Z ITEM_HEIGHT * inject_Z (VISIBLE_ITEM_COUNT - 1) / 2
   - inject_Z PADDING)%Q.

Definition indexOfOffset (values : list Z) (offsetY : Q) : Z :=
  let newIndex := Math_round (centerOffsetOf offsetY / inject_Z ITEM_HEIGHT)%Q in
  clampIndex values newIndex.

(** [applySelectionFromIndex] run by a closure that sees [closure]; [cur] is
    the state the setter acts on.  Setting a cell to the value it holds
    changes nothing. *)
Definition applySelectionFromIndex (P : Props) (closure : Selection)
  (column : Column) (index : Z) (cur : Selection) : Selection :=
  let values := columnValues P closure column in
  let clampedIndex := clampIndex values index in
  match column with
  | ColYear =>
      let year := js_index values clampedIndex in
      if negb (js_same year (selectedYear closure)) then withYear cur year else cur
  | ColMonth =>
      let month := js_index values clampedIndex in
      if negb (js_same month (selectedMonth closure)) then withMonth cur month
      else cur
  | ColDay =>
      let day := js_index values clampedIndex in
      if negb (js_same day (selectedDay closure)) then withDay cur day else cur
  end.

Definition armScrollStop (s : State) (column : Column) (t : option Selection)
  : State :=
  let state := columnState s column in
  setColumnState s column
    {| scrollStopTimer := t;
       isAutoScrolling := isAutoScrolling state;
       centerIndex := centerIndex state |}.

Definition handleScroll (P : Props) (column : Column) (offsetY : Q) (s : State)
  : State :=
  let state := columnState s column in
  if isAutoScrolling state then s
  else
    let values := columnValues P (selection s) column in
    let clampedIndex := indexOfOffset values offsetY in
    let s1 :=
      if negb (centerIndex state =? clampedIndex) then
        commit P (setCenterIndex P s column clampedIndex)
          (applySelectionFromIndex P (selection s) column clampedIndex
             (selection s))
      else s in
    armScrollStop s1 column (Some (selection s)).

(** The [onMomentumScrollEnd] handler of a column.  Its 50 ms timer is the
    event [SnapTimer]. *)
Definition handleMomentumScrollEnd (P : Props) (column : Column) (offsetY : Q)
  (s : State) : State :=
  let state := columnState s column in
  if isAutoScrolling state then s
  else
    let values := columnValues P (selection s) column in
    let clampedIndex := indexOfOffset values offsetY in
    if 0 <? Z.abs (centerIndex state - clampedIndex) then
      commit P (setCenterIndex P s column clampedIndex)
        (applySelectionFromIndex P (selection s) column clampedIndex
           (selection s))
    else s.

(** [handleItemPress] is memoised on year and month: the [selectedDay] its
    closure sees is [pressSelectedDay].  The scroll it requests for the next
    animation frame is run at once. *)
Definition handleItemPress (P : Props) (column : Column) (index : Z) (s : State)
  : State * list Output :=
  let closure := withDay (selection s) (pressSelectedDay s) in
  let state := columnState s column in
  let values := columnValues P closure column in
  let clampedIndex := clampIndex values index in
  let s1 :=
    setColumnState s column
      {| scrollStopTimer := None;
         isAutoScrolling := false;
         centerIndex := centerIndex state |} in
  let s2 :=
    commit P s1
      (applySelectionFromIndex P closure column clampedIndex (selection s)) in
  scrollToIndex P closure column clampedIndex true s2.

(** The 150 ms timer armed by [handleScroll]: [autoCenter] unless the column
    is scrolling by itself. *)
Definition scrollStopFired (P : Props) (column : Column) (s : State)
  : State * list Output :=
  let state := columnState s column in
  match scrollStopTimer state with
  | None => (s, [])
  | Some closure =>
      let s1 := armScrollStop s column None in
      if isAutoScrolling state then (s1, [])
      else scrollToIndex P closure column (centerIndex state) true s1
  end.

(** ** SelectionCoordinator *)

(** The initialisation effect, first half: [initialDate] (or today) brought
    back to [effectiveMaxDate], then up to [minDate]. *)
Definition dateToUse (P : Props) : Date :=
  match initialDate P with Some d => d | None => today P end.

Definition finalDate (P : Props) : Date :=
  let clampedDate :=
    if gt (dateToUse P) (effectiveMaxDate P) then effectiveMaxDate P
    else dateToUse P in
  if lt clampedDate (minDate P) then minDate P else clampedDate.

(** Second half: year, month and day of [finalDate], each checked against
    the list it must belong to. *)
Definition clampComponents (P : Props) (finalDate : Date) : Selection :=
  let year := getFullYear finalDate in
  let month := getMonth finalDate + 1 in
  let day := getDate finalDate in
  let clampedYear :=
    Z.max (getFullYear (minDate P))
      (Z.min year (getFullYear (effectiveMaxDate P))) in
  let availableMonths := buildMonthList P (Some clampedYear) in
  let clampedMonth :=
    if (0 <? js_length availableMonths) && includes availableMonths (Some month)
    then Some month
    else if 0 <? js_length availableMonths then js_index availableMonths 0
    else Some 1 in
  let availableDays := buildDayList P (Some clampedYear) clampedMonth in
  let clampedDay :=
    if (0 <? js_length availableDays) && includes availableDays (Some day)
    then Some day
    else if 0 <? js_length availableDays then
      if js_gtb (Some day) (js_index availableDays (js_length availableDays - 1))
      then js_index availableDays (js_length availableDays - 1)
      else if js_ltb (Some day) (js_index availableDays 0)
      then js_index availableDays 0
      else js_index availableDays 0
    else Some 1 in
  {| selectedYear := Some clampedYear;
     selectedMonth := clampedMonth;
     selectedDay := clampedDay |}.

(** The selection that the initialisation effect computes and sets. *)
Definition seedSelection (P : Props) : Selection :=
  clampComponents P (finalDate P).

(** The parent shows the dialog: the component renders with [visible] true. *)
Definition openDialog (P : Props) (s : State) : State :=
  if visible s then s else render P s true (selection s).

(** The parent hides the dialog. *)
Definition closeDialog (P : Props) (s : State) : State :=
  if visible s then render P s false (selection s) else s.

(** The initialisation effect: the cleanup of its previous run clears the
    100 ms timer and the flag (the 200 ms timer, once armed, is not cleared);
    then, if the dialog is visible, the flag is raised, the seed is computed
    and set, and the 100 ms timer is armed.  The result is the state of the
    refs and the seed that was set, if any. *)
Definition initEffect (P : Props) (s : State) : State * option Selection :=
  let s1 := setInitializing s false None (initDoneTimer s) in
  if visible s then
    let seed := seedSelection P in
    (setInitializing s1 true (Some seed) (initDoneTimer s), Some seed)
  else (s1, None).

Definition thread (f g : State -> State * list Output) (s : State)
  : State * list Output :=
  let (s1, o1) := f s in
  let (s2, o2) := g s1 in
  (s2, o1 ++ o2).

(** The 100 ms timer: the three columns are aligned to the seeded values and
    the 200 ms timer that lowers [isInitializing] is armed. *)
Definition initTimerFired (P : Props) (s : State) : State * list Output :=
  match initTimer s with
  | None => (s, [])
  | Some seed =>
      thread (alignToValue P seed ColYear)
        (thread (alignToValue P seed ColMonth) (alignToValue P seed ColDay))
        (setInitializing s (isInitializing s) None true)
  end.

Definition initDoneFired (s : State) : State :=
  if initDoneTimer s then setInitializing s false (initTimer s) false else s.

(** The month synchronising effect: the [setSelectedMonth] it calls, if any.
    (Its timers are the event [AlignTimer].) *)
Definition monthSync (P : Props) (s : State) : option JSnum :=
  if negb (visible s) then None
  else if isInitializing s then None
  else
    let availableMonths := buildMonthList P (selectedYear (selection s)) in
    if negb (includes availableMonths (selectedMonth (selection s))) then
      let newMonth := js_index availableMonths 0 in
      Some newMonth
    else None.

(** The day synchronising effect: the [setSelectedDay] it calls, if any. *)
Definition daySync (P : Props) (s : State) : option JSnum :=
  if negb (visible s) then None
  else if isInitializing s then None
  else
    let selectedDay := selectedDay (selection s) in
    let availableDays :=
      buildDayList P (selectedYear (selection s)) (selectedMonth (selection s)) in
    if negb (includes availableDays selectedDay) then
      let newDay :=
        if js_gtb selectedDay
             (js_index availableDays (js_length availableDays - 1))
        then js_index availableDays (js_length availableDays - 1)
        else if js_ltb selectedDay (js_index availableDays 0)
        then js_index availableDays 0
        else js_index availableDays 0 in
      Some newDay
    else None.

Definition clearPending (s : State) : State :=
  {| visible := visible s; selection := selection s;
     yearColumnState := yearColumnState s;
     monthColumnState := monthColumnState s;
     dayColumnState := dayColumnState s;
     isInitializing := isInitializing s;
     initTimer := initTimer s; initDoneTimer := initDoneTimer s;
     pendingInit := false;
     pendingMonthSync := false; pendingDaySync := false;
     yearCenterIndex := yearCenterIndex s;
     monthCenterIndex := monthCenterIndex s;
     dayCenterIndex := dayCenterIndex s;
     pressSelectedDay := pressSelectedDay s |}.

(** React runs the effects scheduled for the last render, in the order the
    component declares them: initialisation, month, day.  All read that
    render's selection; the two synchronising effects read [isInitializing]
    as the initialisation effect has just left it.  The updates are batched
    into the next render. *)
Definition flushEffects (P : Props) (s : State) : State :=
  let (s1, seeded) := if pendingInit s then initEffect P s else (s, None) in
  let monthUpdate := if pendingMonthSync s then monthSync P s1 else None in
  let dayUpdate := if pendingDaySync s then daySync P s1 else None in
  let sel0 :=
    match seeded with
    | Some seed => seed
    | None => selection s
    end in
  let sel1 :=
    match monthUpdate with
    | Some m => withMonth sel0 m
    | None => sel0
    end in
  let sel2 :=
    match dayUpdate with
    | Some d => withDay sel1 d
    | None => sel1
    end in
  commit P (clearPending s1) sel2.

(** Effects are run, render after render, until none is scheduled. *)
Fixpoint settle (P : Props) (fuel : nat) (s : State) : State :=
  match fuel with
  | O => s
  | S n =>
      if pendingInit s || pendingMonthSync s || pendingDaySync s
      then settle P n (flushEffects P s)
      else s
  end.

(** ** DialogController *)

Definition invoke (provided : bool) (o : Output) : list Output :=
  if provided then [o] else [].

(** [new Date(selectedYear, selectedMonth - 1, selectedDay)]: an invalid date
    when a cell is [undefined]. *)
Definition confirmDate (sel : Selection) : option Date :=
  match selectedYear sel, selectedMonth sel, selectedDay sel with
  | Some y, Some m, Some d => Some (newDate y (m - 1) d)
  | _, _, _ => None
  end.

Definition handleDismiss (P : Props) : list Output :=
  invoke (onDismiss P) CallDismiss.

Definition handleConfirm (P : Props) (s : State) : list Output :=
  let date := confirmDate (selection s) in
  invoke (onConfirm P) (CallConfirm date) ++ handleDismiss P.

Definition handleCancel (P : Props) : list Output :=
  invoke (onCancel P) CallCancel ++ handleDismiss P.

(** ** The event loop *)

Inductive Event :=
| Open
| Close
| InitTimer
| InitDone
| Effects
| Scroll (column : Column) (offsetY : Q)
| MomentumScrollEnd (column : Column) (offsetY : Q)
| ItemPress (column : Column) (index : Z)
| ScrollStopTimer (column : Column)
| SnapTimer (column : Column) (index : Z) (closure : Selection)
| AlignTimer (column : Column) (animate : bool) (closure : Selection)
| AutoScrollEnd (column : Column)
| PressConfirm
| PressCancel
| OverlayPress
| RequestClose.

Definition settleFuel : nat := 3.

(** One event.  [Effects] runs the effects of the last render once; every
    other event finds them already run, as React runs a render's effects
    before it handles the next event.  User events reach the component only
    while the modal is visible. *)
Definition step (P : Props) (s : State) (e : Event) : State * list Output :=
  match e with
  | Effects => (flushEffects P s, [])
  | _ =>
      let s := settle P settleFuel s in
      match e with
      | Open => (openDialog P s, [])
      | Close => (closeDialog P s, [])
      | InitTimer => initTimerFired P s
      | InitDone => (initDoneFired s, [])
      | Effects => (s, [])
      | Scroll column offsetY =>
          if visible s then (handleScroll P column offsetY s, []) else (s, [])
      | MomentumScrollEnd column offsetY =>
          if visible s then (handleMomentumScrollEnd P column offsetY s, [])
          else (s, [])
      | ItemPress column index =>
          if visible s then handleItemPress P column index s else (s, [])
      | ScrollStopTimer column => scrollStopFired P column s
      | SnapTimer column index closure =>
          if isAutoScrolling (columnState s column) then (s, [])
          else scrollToIndex P closure column index true s
      | AlignTimer column animate closure =>
          alignColumnToSelection P closure column animate s
      | AutoScrollEnd column =>
          let state := columnState s column in
          (setColumnState s column
             {| scrollStopTimer := scrollStopTimer state;
                isAutoScrolling := false;
                centerIndex := centerIndex state |}, [])
      | PressConfirm => if visible s then (s, handleConfirm P s) else (s, [])
      | PressCancel | OverlayPress | RequestClose =>
          if visible s then (s, handleCancel P) else (s, [])
      end
  end.

Fixpoint run (P : Props) (s : State) (es : list Event) : State * list Output :=
  match es with
  | [] => (s, [])
  | e :: rest =>
      let (s1, o1) := step P s e in
      let (s2, o2) := run P s1 rest in
      (s2, o1 ++ o2)
  end.

(** A state the component can be in: some events lead to it from mounting. *)
Definition reachable (P : Props) (s : State) : Prop :=
  exists es, fst (run P (mount P) es) = s.

(** ** Reference notions the properties are stated with *)

(** The contiguous ascending list [lo; lo + 1; ...; hi], empty when
    [hi < lo]. *)
Fixpoint count_up (start : Z) (n : nat) : list Z :=
  match n with
  | O => []
  | S k => start :: count_up (start + 1) k
  end.

Definition interval (lo hi : Z) : list Z := count_up lo (Z.to_nat (hi - lo + 1)).

(** Calendar order on (year, month, day) triples. *)
Definition ymd_le (y1 m1 d1 y2 m2 d2 : Z) : Prop :=
  y1 < y2 \/ (y1 = y2 /\ (m1 < m2 \/ (m1 = m2 /\ d1 <= d2))).

(** Order on (year, month) pairs. *)
Definition ym_le (y1 m1 y2 m2 : Z) : Prop :=
  y1 < y2 \/ (y1 = y2 /\ m1 <= m2).

Definition ym_lt (y1 m1 y2 m2 : Z) : Prop :=
  y1 < y2 \/ (y1 = y2 /\ m1 < m2).

(** The calendar date of a [Date], as a selection. *)
Definition selectionOfDate (d : Date) : Selection :=
  {| selectedYear := Some (getFullYear d);
     selectedMonth := Some (getMonth d + 1);
     selectedDay := Some (getDate d) |}.

(** The invariant the data model asks of the selected date: it is a calendar
    date between [minDate] and [effectiveMaxDate]. *)
Definition selection_in_range (P : Props) (sel : Selection) : Prop :=
  exists y m d,
    sel = {| selectedYear := Some y; selectedMonth := Some m;
             selectedDay := Some d |}
    /\ ymd_le (getFullYear (minDate P)) (getMonth (minDate P) + 1)
              (getDate (minDate P)) y m d
    /\ ymd_le y m d (getFullYear (effectiveMaxDate P))
              (getMonth (effectiveMaxDate P) + 1) (getDate (effectiveMaxDate P))
    /\ 1 <= m <= 12
    /\ 1 <= d <= daysInMonth y m.

(** Each cell of the selection is an entry of its column's list. *)
Definition legal (P : Props) (sel : Selection) : bool :=
  includes (buildYearList P) (selectedYear sel)
  && includes (buildMonthList P (selectedYear sel)) (selectedMonth sel)
  && includes (buildDayList P (selectedYear sel) (selectedMonth sel))
       (selectedDay sel).

(** No effect is waiting to run. *)
Definition settled (s : State) : bool :=
  negb (pendingInit s || pendingMonthSync s || pendingDaySync s).

(** The callbacks among the outputs, and their kinds. *)
Definition isCallback (o : Output) : bool :=
  match o with
  | ScrollTo _ _ _ => false
  | _ => true
  end.

Definition callbacks (os : list Output) : list Output := filter isCallback os.

Definition isDismiss (o : Output) : bool :=
  match o with
  | CallDismiss => true
  | _ => false
  end.

Definition isConfirmOrCancel (o : Output) : bool :=
  match o with
  | CallConfirm _ | CallCancel => true
  | _ => false
  end.

(** A list of callbacks made of pairs: [onConfirm] or [onCancel], then
    [onDismiss]. *)
Fixpoint closingPairs (os : list Output) : bool :=
  match os with
  | [] => true
  | CallConfirm _ :: CallDismiss :: rest => closingPairs rest
  | CallCancel :: CallDismiss :: rest => closingPairs rest
  | _ => false
  end.

(** A press on confirm, on cancel, on the overlay or on the hardware back
    button. *)
Definition isPress (e : Event) : bool :=
  match e with
  | PressConfirm | PressCancel | OverlayPress | RequestClose => true
  | _ => false
  end.

(** The events of one visibility cycle: all but the parent showing or hiding
    the dialog. *)
Definition withinCycle (e : Event) : bool :=
  match e with
  | Open | Close => false
  | _ => true
  end.

(** ** Scenarios *)

(** A midnight [Date] whose year is taken as given, as a caller obtains with
    [setFullYear(year, month, date)] (the constructor would read a year from
    0 to 99 as 1900 + year). *)
Definition midnightOf (year month date : Z) : Date :=
  MakeDate (MakeDay year month date) 0.

(** The spec's scenario: [minDate] 1945-01-01 and [maxDate] 2025-12-31, both
    passed by the caller, the clock at 2024-06-15 10:30. *)
Definition scenarioProps (initial : option Date) : Props :=
  {| initialDate := initial;
     minDateProp := Some (newDate 1945 0 1);
     maxDate := Some (newDate 2025 11 31);
     onConfirm := true; onCancel := true; onDismiss := true;
     now := MakeDate (MakeDay 2024 5 15) 37800000 |}.

(** The same with [minDate] and [maxDate] left out. *)
Definition defaultProps (initial : option Date) : Props :=
  {| initialDate := initial;
     minDateProp := None;
     maxDate := None;
     onConfirm := true; onCancel := true; onDismiss := true;
     now := MakeDate (MakeDay 2024 5 15) 37800000 |}.

(** A range that starts before year 0. *)
Definition ancientProps (minimum : Date) (initial : option Date) : Props :=
  {| initialDate := initial;
     minDateProp := Some minimum;
     maxDate := None;
     onConfirm := true; onCancel := true; onDismiss := true;
     now := MakeDate (MakeDay 2024 5 15) 37800000 |}.

(** The events from mounting to the end of initialisation. *)
Definition opening : list Event := [Open; Effects; InitTimer; InitDone].

(** What holds of the selection while effects may be waiting: the year is an
    entry of the year list, and whatever is not an entry of its list is
    waited for by the effect that repairs it. *)
Definition repairPending (P : Props) (s : State) : Prop :=
  let sel := selection s in
  includes (buildYearList P) (selectedYear sel) = true
  /\ (pendingMonthSync s = false ->
      includes (buildMonthList P (selectedYear sel)) (selectedMonth sel) = true)
  /\ (pendingDaySync s = false ->
      includes (buildMonthList P (selectedYear sel)) (selectedMonth sel) = true
      /\ includes (buildDayList P (selectedYear sel) (selectedMonth sel))
           (selectedDay sel) = true)
  /\ (pendingMonthSync s = true -> pendingDaySync s = true).

(** The day the day-synchronising effect picks for a day that its list lacks. *)
Definition nearestDay (availableDays : list Z) (selectedDay : JSnum) : JSnum :=
  if js_gtb selectedDay (js_index availableDays (js_length availableDays - 1))
  then js_index availableDays (js_length availableDays - 1)
  else if js_ltb selectedDay (js_index availableDays 0)
  then js_index availableDays 0
  else js_index availableDays 0.

(** Two states that differ at most in the columns' scroll state, the
    centre-index cells and the initialisation timers: either the same
    effects are waiting, or a render with a new [minDate] object has
    scheduled the initialisation effect. *)
Definition sameCore (P : Props) (s s' : State) : Prop :=
  visible s' = visible s
  /\ selection s' = selection s
  /\ isInitializing s' = isInitializing s
  /\ ((pendingInit s' = pendingInit s
       /\ pendingMonthSync s' = pendingMonthSync s
       /\ pendingDaySync s' = pendingDaySync s)
      \/ (freshMinDate P = true /\ pendingInit s' = true)).

(** What holds of a visible dialog between two events.  With a [minDate]
    that is a new object at every render, the initialisation effect runs
    again after every render: either it is waiting to run, or nothing is
    waiting and the selection is the seed.  With a [minDate] that the
    caller passes, initialisation is over and the effects that are waiting
    repair what is not legal. *)
Definition coordinated (P : Props) (s : State) : Prop :=
  visible s = true
  /\ if freshMinDate P
     then pendingInit s = true
          \/ (settled s = true /\ selection s = seedSelection P)
     else pendingInit s = false /\ isInitializing s = false
          /\ repairPending P s.

(** The initialisation effect has run and its timer has not fired yet. *)
Definition seeding (P : Props) (s : State) : Prop :=
  visible s = true /\ isInitializing s = true
  /\ initTimer s = Some (seedSelection P)
  /\ selection s = seedSelection P.

(** A visible dialog with nothing waiting, ready for the next event. *)
Definition ready (P : Props) (s : State) : Prop :=
  visible s = true /\ settled s = true
  /\ if freshMinDate P then selection s = seedSelection P
     else isInitializing s = false /\ legal P (selection s) = true.
(** The timers of the component: the two of the initialisation, the
    scroll-stop timer, the snap timer of a momentum end, the alignment timer
    of a synchronising effect and the timer that ends a programmatic
    scroll. *)
Definition isTimer (e : Event) : bool :=
  match e with
  | InitTimer | InitDone | ScrollStopTimer _ | SnapTimer _ _ _
  | AlignTimer _ _ _ | AutoScrollEnd _ => true
  | _ => false
  end.

(** The state cell that copies a column's centre index holds that index. *)
Definition cellsAgree (s : State) : Prop :=
  forall column,
    centerIndexState s column = centerIndex (columnState s column).


(** * Properties *)

(** ** The host's calendar arithmetic *)

Module JSDateFacts.

Ltac floor_lia := Z.div_mod_to_equations; lia.

(** Splits a goal on the twelve values of a month number. *)
Ltac month_cases m H :=
  let C := fresh "C" in
  assert (C : m = H \/ m = H + 1 \/ m = H + 2 \/ m = H + 3 \/ m = H + 4 \/
              m = H + 5 \/ m = H + 6 \/ m = H + 7 \/ m = H + 8 \/ m = H + 9 \/
              m = H + 10 \/ m = H + 11) by lia;
  simpl in C;
  repeat (destruct C as [-> | C]); try subst m.

Ltac split_ltb :=
  repeat (match goal with
          | |- context [?a <? ?b] => destruct (Z.ltb_spec a b); try lia
          end).

Lemma isLeapYear_cases (y : Z) :
  (isLeapYear y = true /\ ((y mod 4 = 0 /\ y mod 100 <> 0) \/ y mod 400 = 0)) \/
  (isLeapYear y = false /\ (y mod 4 <> 0 \/ y mod 100 = 0) /\ y mod 400 <> 0).
Proof.
  unfold isLeapYear.
  destruct (Z.eqb_spec (y mod 4) 0), (Z.eqb_spec (y mod 100) 0),
    (Z.eqb_spec (y mod 400) 0); simpl; intuition.
Qed.

Lemma DayFromYear_succ (y : Z) :
  DayFromYear (y + 1) = DayFromYear y + DaysInYear y.
Proof.
  unfold DaysInYear.
  destruct (isLeapYear_cases y) as [[-> H] | [-> H]]; unfold DayFromYear;
    floor_lia.
Qed.

Lemma DayFromYear_le (y1 y2 : Z) : y1 <= y2 -> DayFromYear y1 <= DayFromYear y2.
Proof. intros H. unfold DayFromYear. floor_lia. Qed.

(** [YearFromDay] is the year ECMA-262 specifies: the one whose days include
    [d]. *)
Lemma YearFromDay_spec (d : Z) :
  DayFromYear (YearFromDay d) <= d < DayFromYear (YearFromDay d + 1).
Proof.
  unfold YearFromDay.
  set (y0 := 1970 + 400 * d / 146097).
  assert (E : DayFromYear (y0 - 1) <= d < DayFromYear (y0 + 2)).
  { subst y0. unfold DayFromYear. floor_lia. }
  destruct (Z.leb_spec (DayFromYear (y0 + 1)) d).
  - replace (y0 + 1 + 1) with (y0 + 2) by lia. lia.
  - destruct (Z.leb_spec (DayFromYear y0) d).
    + lia.
    + replace (y0 - 1 + 1) with y0 by lia. lia.
Qed.

Lemma YearFromDay_unique (d y : Z) :
  DayFromYear y <= d < DayFromYear (y + 1) -> YearFromDay d = y.
Proof.
  intros H. pose proof (YearFromDay_spec d) as S.
  destruct (Z.lt_trichotomy (YearFromDay d) y) as [L | [E | G]]; [| exact E |].
  - pose proof (DayFromYear_le (YearFromDay d + 1) y ltac:(lia)). lia.
  - pose proof (DayFromYear_le (y + 1) (YearFromDay d) ltac:(lia)). lia.
Qed.

Lemma YearFromDay_le (d1 d2 : Z) : d1 <= d2 -> YearFromDay d1 <= YearFromDay d2.
Proof.
  intros H.
  pose proof (YearFromDay_spec d1) as S1. pose proof (YearFromDay_spec d2) as S2.
  destruct (Z.le_gt_cases (YearFromDay d1) (YearFromDay d2)) as [L | G];
    [exact L |].
  pose proof (DayFromYear_le (YearFromDay d2 + 1) (YearFromDay d1) ltac:(lia)).
  lia.
Qed.

Lemma Day_MakeDate (d : Z) : Day (MakeDate d 0) = d.
Proof. unfold Day, MakeDate, msPerDay. floor_lia. Qed.

Lemma TimeWithinDay_MakeDate (d : Z) : TimeWithinDay (MakeDate d 0) = 0.
Proof. unfold TimeWithinDay, MakeDate, msPerDay. floor_lia. Qed.

Lemma Day_le (t1 t2 : Z) : t1 <= t2 -> Day t1 <= Day t2.
Proof. intros H. unfold Day, msPerDay. floor_lia. Qed.

Lemma DayWithinYear_range (t : Z) :
  0 <= DayWithinYear t < DaysInYear (YearFromTime t).
Proof.
  unfold DayWithinYear, YearFromTime.
  pose proof (YearFromDay_spec (Day t)) as S.
  rewrite DayFromYear_succ in S. lia.
Qed.

(** Every time value denotes a calendar date. *)
Lemma fields_valid (t : Date) :
  0 <= getMonth t <= 11 /\
  1 <= getDate t <= daysInMonth (getFullYear t) (getMonth t + 1).
Proof.
  pose proof (DayWithinYear_range t) as R.
  unfold getMonth, getDate, getFullYear, DateFromTime, MonthFromTime,
    InLeapYear, DaysInYear in *.
  destruct (isLeapYear (YearFromTime t)) eqn:L;
    unfold monthOfYearDay; split_ltb;
    unfold monthStart, daysInMonth; simpl; rewrite ?L; lia.
Qed.

(** The date built from a calendar triple has that triple as its fields. *)
Lemma MakeDay_fields (y mn dt : Z) :
  0 <= mn <= 11 -> 1 <= dt <= daysInMonth y (mn + 1) ->
  let t := MakeDate (MakeDay y mn dt) 0 in
  YearFromTime t = y /\ MonthFromTime t = mn /\ DateFromTime t = dt.
Proof.
  intros Hm Hd t.
  assert (Ey : YearFromTime t = y).
  { unfold t, YearFromTime. rewrite Day_MakeDate.
    apply YearFromDay_unique. rewrite DayFromYear_succ.
    unfold MakeDay, DaysInYear.
    replace (mn / 12) with 0 by floor_lia.
    replace (mn mod 12) with mn by floor_lia.
    replace (y + 0) with y by lia.
    destruct (isLeapYear y) eqn:L; month_cases mn 0;
      unfold daysInMonth in Hd; simpl in Hd; rewrite ?L in Hd;
      unfold monthStart; lia. }
  split; [exact Ey |].
  unfold MonthFromTime, DateFromTime, MonthFromTime, InLeapYear, DayWithinYear.
  rewrite Ey. unfold t. rewrite Day_MakeDate. unfold MakeDay.
  replace (mn / 12) with 0 by floor_lia.
  replace (mn mod 12) with mn by floor_lia.
  replace (y + 0) with y by lia.
  destruct (isLeapYear y) eqn:L; month_cases mn 0;
    unfold daysInMonth in Hd; simpl in Hd; rewrite ?L in Hd;
    unfold monthStart, monthOfYearDay; split_ltb; lia.
Qed.

(** Later time values denote later (or equal) calendar dates. *)
Lemma fields_le (t1 t2 : Date) :
  t1 <= t2 ->
  ymd_le (getFullYear t1) (getMonth t1) (getDate t1)
         (getFullYear t2) (getMonth t2) (getDate t2).
Proof.
  intros H. apply Day_le in H.
  pose proof (YearFromDay_le _ _ H) as Hy.
  unfold ymd_le, getFullYear, YearFromTime.
  destruct (Z.eq_dec (YearFromDay (Day t1)) (YearFromDay (Day t2))) as [E | N];
    [right; split; [exact E |] | left; lia].
  pose proof (DayWithinYear_range t1) as R1.
  pose proof (DayWithinYear_range t2) as R2.
  unfold getMonth, getDate, DateFromTime, MonthFromTime, InLeapYear,
    DayWithinYear, YearFromTime, DaysInYear in *.
  rewrite E in *.
  destruct (isLeapYear (YearFromDay (Day t2)));
    unfold monthOfYearDay; split_ltb; unfold monthStart; lia.
Qed.

Lemma daysInMonth_range (y m : Z) : 28 <= daysInMonth y m <= 31.
Proof.
  unfold daysInMonth.
  destruct m as [| p | p]; try lia.
  destruct p as [p | p |]; try lia;
    destruct p as [p | p |]; try lia;
    try (destruct p as [p | p |]; try lia; destruct p; lia);
    destruct (isLeapYear y); lia.
Qed.

Lemma MakeDay_day_zero (y m : Z) :
  1 <= m <= 12 -> MakeDay y m 0 = MakeDay y (m - 1) (daysInMonth y m).
Proof.
  intros H. unfold MakeDay.
  month_cases m 1; simpl;
    rewrite ?Z.add_0_r; try (destruct (isLeapYear y); lia).
  rewrite DayFromYear_succ. unfold DaysInYear.
  destruct (isLeapYear (y + 1)), (isLeapYear y); lia.
Qed.

(** [new Date(year, month, 0).getDate()] is the length of month [month]
    (1-based) of the year the constructor reads [year] as. *)
Lemma getDate_day_zero (y m : Z) :
  1 <= m <= 12 ->
  getDate (newDate y m 0) = daysInMonth (MakeFullYear y) m.
Proof.
  intros H. unfold newDate. rewrite MakeDay_day_zero by exact H.
  apply (MakeDay_fields (MakeFullYear y) (m - 1)); [lia |].
  replace (m - 1 + 1) with m by lia.
  pose proof (daysInMonth_range (MakeFullYear y) m). lia.
Qed.

Lemma isLeapYear_two_digit (y : Z) :
  1 <= y <= 99 -> isLeapYear (1900 + y) = isLeapYear y.
Proof.
  intros H. unfold isLeapYear.
  destruct (Z.eqb_spec ((1900 + y) mod 4) 0),
    (Z.eqb_spec ((1900 + y) mod 100) 0),
    (Z.eqb_spec ((1900 + y) mod 400) 0), (Z.eqb_spec (y mod 4) 0),
    (Z.eqb_spec (y mod 100) 0), (Z.eqb_spec (y mod 400) 0); simpl;
    try reflexivity; exfalso; floor_lia.
Qed.

Lemma daysInMonth_ext (a b m : Z) :
  isLeapYear a = isLeapYear b -> daysInMonth a m = daysInMonth b m.
Proof.
  intros E. unfold daysInMonth.
  destruct m as [| p | p]; try reflexivity.
  destruct p as [p | p |]; try reflexivity.
  destruct p as [p | p |]; try reflexivity.
  rewrite E. reflexivity.
Qed.

(** Except in year 0, which the constructor reads as 1900 (not a leap year),
    the month lengths it computes are the calendar's. *)
Lemma daysInMonth_MakeFullYear (y m : Z) :
  y <> 0 -> daysInMonth (MakeFullYear y) m = daysInMonth y m.
Proof.
  intros H. unfold MakeFullYear.
  destruct (Z.leb_spec 0 y), (Z.leb_spec y 99); simpl; try reflexivity.
  apply daysInMonth_ext, isLeapYear_two_digit. lia.
Qed.

Lemma daysInMonth_MakeFullYear_le (y m : Z) :
  daysInMonth (MakeFullYear y) m <= daysInMonth y m.
Proof.
  destruct (Z.eq_dec y 0) as [-> | N].
  - unfold daysInMonth.
    destruct m as [| p | p]; try lia.
    destruct p as [p | p |]; try lia.
    destruct p as [p | p |]; try lia.
    vm_compute. discriminate.
  - rewrite daysInMonth_MakeFullYear by exact N. lia.
Qed.

(** Outside 0..99 the constructor takes the year as given. *)
Lemma newDate_fields (y m d : Z) :
  ~ (0 <= y <= 99) -> 1 <= m <= 12 -> 1 <= d <= daysInMonth y m ->
  getFullYear (newDate y (m - 1) d) = y /\
  getMonth (newDate y (m - 1) d) + 1 = m /\
  getDate (newDate y (m - 1) d) = d /\
  TimeWithinDay (newDate y (m - 1) d) = 0.
Proof.
  intros Hy Hm Hd. unfold newDate, MakeFullYear.
  replace ((0 <=? y) && (y <=? 99)) with false
    by (destruct (Z.leb_spec 0 y), (Z.leb_spec y 99); simpl; try reflexivity; lia).
  destruct (MakeDay_fields y (m - 1) d) as (A & B & C);
    [lia | replace (m - 1 + 1) with m by lia; exact Hd |].
  unfold getFullYear, getMonth, getDate.
  rewrite A, B, C, TimeWithinDay_MakeDate. repeat split; lia.
Qed.

Lemma setHoursZero_le (t : Date) : setHoursZero t <= t.
Proof. unfold setHoursZero, MakeDate, Day, msPerDay. floor_lia. Qed.

Lemma setHoursZero_mono (a b : Date) : a <= b -> setHoursZero a <= setHoursZero b.
Proof.
  intros H. apply Day_le in H. unfold setHoursZero, MakeDate, msPerDay. lia.
Qed.

Lemma setHoursZero_idem (t : Date) : setHoursZero (setHoursZero t) = setHoursZero t.
Proof. unfold setHoursZero. rewrite Day_MakeDate. reflexivity. Qed.

Lemma setHoursZero_midnight (t : Date) : TimeWithinDay (setHoursZero t) = 0.
Proof. apply TimeWithinDay_MakeDate. Qed.

End JSDateFacts.

(** ** Arrays built by [Array.from] *)

Section Arrays.

Lemma count_up_map (start : Z) (n : nat) :
  map (fun i => start + Z.of_nat i) (seq 0 n) = count_up start n.
Proof.
  revert start. induction n as [| n IH]; intros start; simpl.
  - reflexivity.
  - f_equal; [lia |].
    rewrite <- seq_shift, map_map, <- IH.
    apply map_ext. intros i. lia.
Qed.

Lemma array_from_range_interval (lo hi : Z) :
  array_from_range (Some (hi - lo + 1)) lo = interval lo hi.
Proof. unfold array_from_range, interval. apply count_up_map. Qed.

Lemma array_from_range_interval' (lo hi : Z) :
  array_from_range (Some (hi + - lo + 1)) lo = interval lo hi.
Proof.
  replace (hi + - lo + 1) with (hi - lo + 1) by lia.
  apply array_from_range_interval.
Qed.

Lemma In_count_up (x start : Z) (n : nat) :
  In x (count_up start n) <-> start <= x < start + Z.of_nat n.
Proof.
  revert start. induction n as [| n IH]; intros start; simpl.
  - lia.
  - rewrite IH. lia.
Qed.

Lemma In_interval (x lo hi : Z) : In x (interval lo hi) <-> lo <= x <= hi.
Proof. unfold interval. rewrite In_count_up. lia. Qed.

Lemma length_count_up (start : Z) (n : nat) : length (count_up start n) = n.
Proof.
  revert start. induction n as [| n IH]; intros start; simpl; [| rewrite IH];
    reflexivity.
Qed.

Lemma length_interval (lo hi : Z) :
  js_length (interval lo hi) = Z.max 0 (hi - lo + 1).
Proof. unfold js_length, interval. rewrite length_count_up. lia. Qed.

Lemma interval_nil (lo hi : Z) : interval lo hi = [] <-> hi < lo.
Proof.
  split; intros H.
  - pose proof (length_interval lo hi) as L. rewrite H in L.
    unfold js_length in L. simpl in L. lia.
  - unfold interval. replace (Z.to_nat (hi - lo + 1)) with O by lia. reflexivity.
Qed.

Lemma nth_error_count_up (start : Z) (n i : nat) :
  (i < n)%nat -> nth_error (count_up start n) i = Some (start + Z.of_nat i).
Proof.
  revert start i. induction n as [| n IH]; intros start i H; [lia |].
  destruct i as [| i]; simpl.
  - f_equal. lia.
  - rewrite IH by lia. f_equal. lia.
Qed.

(** The element at a legal index of a contiguous list. *)
Lemma js_index_interval (lo hi i : Z) :
  0 <= i <= hi - lo -> js_index (interval lo hi) i = Some (lo + i).
Proof.
  intros H. unfold js_index, interval.
  destruct (Z.ltb_spec i 0); [lia |].
  rewrite nth_error_count_up by lia. f_equal. lia.
Qed.

Lemma js_index_nil (i : Z) : js_index [] i = None.
Proof.
  unfold js_index. destruct (i <? 0); [reflexivity |].
  destruct (Z.to_nat i); reflexivity.
Qed.

Lemma includes_In (values : list Z) (x : Z) :
  includes values (Some x) = true <-> In x values.
Proof.
  unfold includes. rewrite existsb_exists. split.
  - intros (y & Hy & E). apply Z.eqb_eq in E. subst. exact Hy.
  - intros H. exists x. split; [exact H | apply Z.eqb_refl].
Qed.

Lemma includes_Some (values : list Z) (v : JSnum) :
  includes values v = true -> exists x, v = Some x /\ In x values.
Proof.
  destruct v as [x |]; simpl; [| discriminate].
  intros H. exists x. split; [reflexivity |]. apply includes_In. exact H.
Qed.

Lemma includes_interval (lo hi x : Z) :
  includes (interval lo hi) (Some x) = (lo <=? x) && (x <=? hi).
Proof.
  destruct (includes (interval lo hi) (Some x)) eqn:E.
  - apply includes_In, In_interval in E.
    symmetry. apply andb_true_iff. split; apply Z.leb_le; lia.
  - destruct (Z.leb_spec lo x), (Z.leb_spec x hi); simpl; try reflexivity.
    assert (T : includes (interval lo hi) (Some x) = true)
      by (apply includes_In, In_interval; lia).
    congruence.
Qed.

End Arrays.

(** ** RangeCalculator *)

Section RangeCalculator.

Variable P : Props.

Let minY := getFullYear (minDate P).
Let minM := getMonth (minDate P) + 1.
Let minD := getDate (minDate P).
Let maxY := getFullYear (effectiveMaxDate P).
Let maxM := getMonth (effectiveMaxDate P) + 1.
Let maxD := getDate (effectiveMaxDate P).

Lemma buildYearList_interval : buildYearList P = interval minY maxY.
Proof. unfold buildYearList. apply array_from_range_interval. Qed.

(** C5.  The year list is the contiguous ascending run of the years from
    [minDate]'s to [effectiveMaxDate]'s: it holds max - min + 1 years, the
    i-th being min + i; and it is empty exactly when [minDate]'s year is
    greater than [effectiveMaxDate]'s. *)
Theorem buildYearList_contiguous :
  buildYearList P
  = interval (getFullYear (minDate P)) (getFullYear (effectiveMaxDate P))
  /\ js_length (buildYearList P)
     = Z.max 0 (getFullYear (effectiveMaxDate P) - getFullYear (minDate P) + 1)
  /\ (forall i,
        0 <= i <= getFullYear (effectiveMaxDate P) - getFullYear (minDate P) ->
        js_index (buildYearList P) i = Some (getFullYear (minDate P) + i))
  /\ (buildYearList P = []
      <-> getFullYear (effectiveMaxDate P) < getFullYear (minDate P)).
Proof.
  rewrite buildYearList_interval. fold minY maxY.
  split; [reflexivity |].
  split; [apply length_interval |].
  split; [intros i Hi; apply js_index_interval; exact Hi |].
  apply interval_nil.
Qed.

Lemma buildMonthList_interval (year : Z) :
  buildMonthList P (Some year)
  = if maxY <? year then []
    else interval (if year =? minY then minM else 1)
                  (if year =? maxY then maxM else 12).
Proof.
  unfold buildMonthList, js_eq, js_gt. fold minY maxY minM maxM.
  destruct (Z.eqb_spec year maxY) as [E | N].
  - destruct (Z.ltb_spec maxY year); [lia |].
    apply array_from_range_interval.
  - destruct (Z.ltb_spec maxY year); [reflexivity |].
    apply array_from_range_interval.
Qed.

(** C4.  For a year of the year list, the month list is the contiguous
    ascending run from [minDate]'s month (in [minDate]'s year, else 1) to
    [effectiveMaxDate]'s month (in [effectiveMaxDate]'s year, else 12); for a
    year strictly between the two it is 1..12; for a year after
    [effectiveMaxDate]'s it is empty. *)
Theorem buildMonthList_contiguous (year : Z) :
  (In year (buildYearList P) ->
   buildMonthList P (Some year)
   = interval
       (if year =? getFullYear (minDate P) then getMonth (minDate P) + 1 else 1)
       (if year =? getFullYear (effectiveMaxDate P)
        then getMonth (effectiveMaxDate P) + 1 else 12))
  /\ (getFullYear (minDate P) < year < getFullYear (effectiveMaxDate P) ->
      buildMonthList P (Some year) = [1; 2; 3; 4; 5; 6; 7; 8; 9; 10; 11; 12])
  /\ (getFullYear (effectiveMaxDate P) < year ->
      buildMonthList P (Some year) = []).
Proof.
  rewrite buildMonthList_interval. fold minY maxY minM maxM.
  repeat split.
  - intros H. rewrite buildYearList_interval in H. apply In_interval in H.
    destruct (Z.ltb_spec maxY year); [lia | reflexivity].
  - intros H.
    destruct (Z.ltb_spec maxY year); [lia |].
    destruct (Z.eqb_spec year minY); [lia |].
    destruct (Z.eqb_spec year maxY); [lia |].
    reflexivity.
  - intros H. destruct (Z.ltb_spec maxY year); [reflexivity | lia].
Qed.

(** The day list of a calendar month, with the month length as the [Date]
    constructor computes it. *)
Lemma buildDayList_interval (year month : Z) :
  1 <= month <= 12 ->
  buildDayList P (Some year) (Some month)
  = if (maxY <? year) || ((year =? maxY) && (maxM <? month)) then []
    else interval
           (if (year =? minY) && (month =? minM) then minD else 1)
           (if (year =? maxY) && (month =? maxM) then maxD
            else daysInMonth (MakeFullYear year) month).
Proof.
  intros Hm. unfold buildDayList, totalDaysOf, js_eq, js_gt, js_add, option_map.
  rewrite JSDateFacts.getDate_day_zero by exact Hm.
  fold minY maxY minM maxM minD maxD.
  destruct (Z.eqb_spec year maxY) as [Ey | Ny];
    destruct (Z.eqb_spec month maxM) as [Em | Nm];
    destruct (Z.ltb_spec maxY year); try lia;
    destruct (Z.ltb_spec maxM month); try lia;
    cbn [andb orb]; try reflexivity;
    first [apply array_from_range_interval | apply array_from_range_interval'].
Qed.

(** C3, as the code has it.  For a calendar month of a year other than 0 that
    is not after [effectiveMaxDate]'s month, the day list is the contiguous
    run from [minDate]'s day (in [minDate]'s month, else 1) to
    [effectiveMaxDate]'s day (in [effectiveMaxDate]'s month, else the
    calendar's length of the month); away from both boundary months it has
    exactly as many days as the month, 29 for February of a leap year; and
    for a month after [effectiveMaxDate]'s it is empty.  Year 0 is left out:
    [new Date(0, month, 0)] is a date of 1900. *)
Theorem buildDayList_calendar (year month : Z) :
  year <> 0 -> 1 <= month <= 12 ->
  (ym_le year month (getFullYear (effectiveMaxDate P))
                    (getMonth (effectiveMaxDate P) + 1) ->
   buildDayList P (Some year) (Some month)
   = interval
       (if (year =? getFullYear (minDate P))
           && (month =? getMonth (minDate P) + 1)
        then getDate (minDate P) else 1)
       (if (year =? getFullYear (effectiveMaxDate P))
           && (month =? getMonth (effectiveMaxDate P) + 1)
        then getDate (effectiveMaxDate P) else daysInMonth year month))
  /\ (ym_lt year month (getFullYear (effectiveMaxDate P))
                       (getMonth (effectiveMaxDate P) + 1) ->
      ~ (year = getFullYear (minDate P) /\ month = getMonth (minDate P) + 1) ->
      buildDayList P (Some year) (Some month)
      = interval 1 (daysInMonth year month)
      /\ js_length (buildDayList P (Some year) (Some month))
         = daysInMonth year month)
  /\ (ym_lt (getFullYear (effectiveMaxDate P))
            (getMonth (effectiveMaxDate P) + 1) year month ->
      buildDayList P (Some year) (Some month) = []).
Proof.
  intros Hy Hm.
  rewrite (buildDayList_interval year month Hm).
  rewrite (JSDateFacts.daysInMonth_MakeFullYear year month Hy).
  fold minY maxY minM maxM minD maxD. unfold ym_le, ym_lt.
  split; [| split].
  - intros H.
    replace ((maxY <? year) || ((year =? maxY) && (maxM <? month))) with false;
      [reflexivity |].
    destruct (Z.ltb_spec maxY year), (Z.eqb_spec year maxY),
      (Z.ltb_spec maxM month); cbn [andb orb]; try reflexivity; lia.
  - intros H N.
    replace ((maxY <? year) || ((year =? maxY) && (maxM <? month))) with false
      by (destruct (Z.ltb_spec maxY year), (Z.eqb_spec year maxY),
            (Z.ltb_spec maxM month); cbn [andb orb]; try reflexivity; lia).
    replace ((year =? minY) && (month =? minM)) with false
      by (destruct (Z.eqb_spec year minY), (Z.eqb_spec month minM);
            cbn [andb]; try reflexivity; tauto).
    replace ((year =? maxY) && (month =? maxM)) with false
      by (destruct (Z.eqb_spec year maxY), (Z.eqb_spec month maxM);
            cbn [andb]; try reflexivity; lia).
    split; [reflexivity |].
    rewrite length_interval.
    pose proof (JSDateFacts.daysInMonth_range year month). lia.
  - intros H.
    replace ((maxY <? year) || ((year =? maxY) && (maxM <? month))) with true;
      [reflexivity |].
    destruct (Z.ltb_spec maxY year), (Z.eqb_spec year maxY),
      (Z.ltb_spec maxM month); cbn [andb orb]; try reflexivity; lia.
Qed.

End RangeCalculator.

(** ** The effective maximum *)

Section EffectiveMaxDate.

Variable P : Props.

Lemma today_midnight : setHoursZero (today P) = today P.
Proof. unfold today. apply JSDateFacts.setHoursZero_idem. Qed.

(** C6.  With a [maxDate] not after today, [effectiveMaxDate] is [maxDate]
    at midnight; with a later [maxDate] it is today (at midnight); without
    [maxDate] it is today; so it is never after today (and always a
    midnight). *)
Theorem effectiveMaxDate_min_of_maxDate_and_today :
  (forall m, maxDate P = Some m -> m <= today P ->
             effectiveMaxDate P = setHoursZero m)
  /\ (forall m, maxDate P = Some m -> today P < m ->
                effectiveMaxDate P = today P)
  /\ (maxDate P = None -> effectiveMaxDate P = today P)
  /\ effectiveMaxDate P <= today P
  /\ TimeWithinDay (effectiveMaxDate P) = 0.
Proof.
  unfold effectiveMaxDate, gt.
  repeat split.
  - intros m -> H.
    pose proof (JSDateFacts.setHoursZero_le m).
    destruct (Z.ltb_spec (today P) (setHoursZero m)); [lia | reflexivity].
  - intros m -> H.
    destruct (Z.ltb_spec (today P) (setHoursZero m)) as [L | L];
      [reflexivity |].
    pose proof (JSDateFacts.setHoursZero_mono (today P) m ltac:(lia)) as M.
    rewrite today_midnight in M. lia.
  - intros ->. reflexivity.
  - destruct (maxDate P) as [m |]; [| lia].
    destruct (Z.ltb_spec (today P) (setHoursZero m)); lia.
  - destruct (maxDate P) as [m |];
      [destruct (Z.ltb_spec (today P) (setHoursZero m)) |];
      first [apply JSDateFacts.setHoursZero_midnight].
Qed.

End EffectiveMaxDate.

(** ** Offsets and indices *)

Section Offsets.

Lemma targetOffset_linear (i : Z) :
  (targetOffset i == inject_Z (ITEM_HEIGHT * i))%Q.
Proof.
  unfold targetOffset, ITEM_HEIGHT, VISIBLE_ITEM_COUNT, PADDING, ITEM_HEIGHT.
  rewrite !inject_Z_mult. simpl (inject_Z (5 - 1)). field.
Qed.

Lemma scrollY_linear (i : Z) :
  0 <= i -> (scrollY i == inject_Z (ITEM_HEIGHT * i))%Q.
Proof.
  intros H. unfold scrollY.
  rewrite Q.max_r; [apply targetOffset_linear |].
  rewrite targetOffset_linear.
  change 0%Q with (inject_Z 0). rewrite <- Zle_Qle.
  unfold ITEM_HEIGHT. lia.
Qed.

Lemma Math_round_inject_Z (i : Z) : Math_round (inject_Z i) = i.
Proof.
  unfold Math_round, Qfloor, inject_Z, Qplus. simpl.
  Z.div_mod_to_equations; lia.
Qed.

Lemma indexOfOffset_scaled (values : list Z) (y : Q) (i : Z) :
  (y == inject_Z (ITEM_HEIGHT * i))%Q ->
  indexOfOffset values y = clampIndex values i.
Proof.
  intros E. unfold indexOfOffset. f_equal.
  transitivity (Math_round (inject_Z i)); [| apply Math_round_inject_Z].
  unfold Math_round. apply Qfloor_comp.
  apply Qplus_comp; [| reflexivity].
  unfold centerOffsetOf. rewrite E.
  unfold ITEM_HEIGHT, VISIBLE_ITEM_COUNT, PADDING, ITEM_HEIGHT.
  rewrite !inject_Z_mult. simpl (inject_Z (5 - 1)). field.
Qed.

Lemma clampIndex_legal (values : list Z) (i : Z) :
  0 <= i < js_length values -> clampIndex values i = i.
Proof. intros H. unfold clampIndex. lia. Qed.

Lemma indexOfOffset_scrollY (values : list Z) (i : Z) :
  0 <= i < js_length values -> indexOfOffset values (scrollY i) = i.
Proof.
  intros H. rewrite (indexOfOffset_scaled values (scrollY i) i).
  - apply clampIndex_legal. exact H.
  - apply scrollY_linear. lia.
Qed.

(** C8.  For a legal index [i] of a column's value list, [scrollToIndex]
    scrolls to the offset (i - 2) * 46 + 2 * 46, not below 0, and the scroll
    handler's formula reads that offset back as [i]. *)
Theorem index_offset_round_trip (P : Props) (s : State) (column : Column)
  (i : Z) (animate : bool) :
  visible s = true ->
  0 <= i < js_length (columnValues P (selection s) column) ->
  exists y,
    snd (scrollToIndex P (selection s) column i animate s)
    = [ScrollTo column y animate]
    /\ (y == Qmax 0 ((inject_Z i - 2) * 46 + 2 * 46))%Q
    /\ indexOfOffset (columnValues P (selection s) column) y = i.
Proof.
  intros V H. exists (scrollY i).
  unfold scrollToIndex. rewrite V. cbn [negb snd].
  rewrite (clampIndex_legal _ i H).
  split; [reflexivity |]. split.
  - unfold scrollY. apply Q.max_compat; [reflexivity |].
    rewrite targetOffset_linear. unfold ITEM_HEIGHT.
    rewrite inject_Z_mult. field.
  - apply indexOfOffset_scrollY. exact H.
Qed.

End Offsets.

(** ** Initial seeding *)

Section Seeding.

Variable P : Props.

Let minY := getFullYear (minDate P).
Let minM := getMonth (minDate P) + 1.
Let minD := getDate (minDate P).
Let maxY := getFullYear (effectiveMaxDate P).
Let maxM := getMonth (effectiveMaxDate P) + 1.
Let maxD := getDate (effectiveMaxDate P).

(** What [clampComponents] does with a date between the bounds: year and
    month are kept, and so is the day when the day list has it; otherwise
    the day list is not empty, the day is above its last entry, and that
    entry is taken. *)
Lemma clampComponents_in_range (f : Date) :
  getFullYear (minDate P) <> 0 ->
  minDate P <= f <= effectiveMaxDate P ->
  let days := buildDayList P (Some (getFullYear f)) (Some (getMonth f + 1)) in
  selectedYear (clampComponents P f) = Some (getFullYear f)
  /\ selectedMonth (clampComponents P f) = Some (getMonth f + 1)
  /\ (includes days (Some (getDate f)) = true ->
      selectedDay (clampComponents P f) = Some (getDate f))
  /\ (includes days (Some (getDate f)) = false ->
      exists last,
        js_index days (js_length days - 1) = Some last
        /\ last < getDate f
        /\ selectedDay (clampComponents P f) = Some last)
  /\ (getFullYear f <> 0
      \/ (getFullYear f = maxY /\ getMonth f + 1 = maxM) ->
      includes days (Some (getDate f)) = true).
Proof.
  intros Hz [Hlo Hhi] days. fold minY in Hz.
  pose proof (JSDateFacts.fields_le _ _ Hlo) as Lo.
  pose proof (JSDateFacts.fields_le _ _ Hhi) as Hi.
  pose proof (JSDateFacts.fields_valid f) as (Vm & Vd).
  pose proof (JSDateFacts.fields_valid (minDate P)) as (Vm1 & Vd1).
  pose proof (JSDateFacts.fields_valid (effectiveMaxDate P)) as (Vm2 & Vd2).
  unfold ymd_le in Lo, Hi.
  fold minY minD in Lo, Vd1. fold maxY maxD in Hi, Vd2.
  set (y := getFullYear f) in *. set (m := getMonth f + 1) in *.
  set (d := getDate f) in *.
  assert (Em : getMonth f = m - 1) by (subst m; lia).
  rewrite Em in *. clear Em.
  assert (Em1 : getMonth (minDate P) = minM - 1) by (subst minM; lia).
  assert (Em2 : getMonth (effectiveMaxDate P) = maxM - 1) by (subst maxM; lia).
  rewrite Em1 in *. rewrite Em2 in *. clear Em1 Em2.
  assert (Ey : Z.max minY (Z.min y maxY) = y) by lia.
  assert (Hmonths : buildMonthList P (Some y)
                    = interval (if y =? minY then minM else 1)
                               (if y =? maxY then maxM else 12)).
  { rewrite buildMonthList_interval. fold maxY minY minM maxM.
    destruct (Z.ltb_spec maxY y); [lia | reflexivity]. }
  assert (Hin : includes (buildMonthList P (Some y)) (Some m) = true).
  { rewrite Hmonths, includes_interval.
    destruct (Z.eqb_spec y minY), (Z.eqb_spec y maxY);
      apply andb_true_iff; split; apply Z.leb_le; lia. }
  assert (Hlen : (0 <? js_length (buildMonthList P (Some y))) = true).
  { rewrite Hmonths, length_interval. apply Z.ltb_lt.
    destruct (Z.eqb_spec y minY), (Z.eqb_spec y maxY); lia. }
  assert (Hdays : days
                  = interval
                      (if (y =? minY) && (m =? minM) then minD else 1)
                      (if (y =? maxY) && (m =? maxM) then maxD
                       else daysInMonth (MakeFullYear y) m)).
  { subst days. rewrite buildDayList_interval by lia.
    fold minY minM minD maxY maxM maxD.
    replace ((maxY <? y) || ((y =? maxY) && (maxM <? m))) with false;
      [reflexivity |].
    destruct (Z.ltb_spec maxY y), (Z.eqb_spec y maxY), (Z.ltb_spec maxM m);
      cbn [andb orb]; try reflexivity; lia. }
  set (lo := if (y =? minY) && (m =? minM) then minD else 1) in *.
  set (hi := if (y =? maxY) && (m =? maxM) then maxD
             else daysInMonth (MakeFullYear y) m) in *.
  assert (Hlod : 1 <= lo <= d).
  { subst lo. destruct (Z.eqb_spec y minY), (Z.eqb_spec m minM);
      cbn [andb]; lia. }
  assert (Hhi1 : lo <= hi).
  { subst lo hi.
    pose proof (JSDateFacts.daysInMonth_range (MakeFullYear y) m).
    destruct (Z.eqb_spec y minY), (Z.eqb_spec m minM), (Z.eqb_spec y maxY),
      (Z.eqb_spec m maxM); cbn [andb]; try lia.
    all: replace (minM - 1 + 1) with minM in Vd1 by lia.
    all: match goal with
         | E1 : ?a = minY, E2 : ?b = minM
           |- _ <= daysInMonth (MakeFullYear ?a) ?b =>
             rewrite E1, E2, (JSDateFacts.daysInMonth_MakeFullYear minY minM Hz);
             lia
         end. }
  unfold clampComponents. fold y m d minY maxY. rewrite Ey.
  rewrite Hlen, Hin. cbn [andb]. fold days.
  rewrite Hdays, includes_interval, length_interval.
  replace (0 <? Z.max 0 (hi - lo + 1)) with true by (symmetry; apply Z.ltb_lt; lia).
  cbn [selectedYear selectedMonth selectedDay].
  split; [reflexivity |]. split; [reflexivity |].
  split; [intros ->; reflexivity |].
  split.
  - intros F. rewrite F. cbn [andb].
    replace (Z.max 0 (hi - lo + 1) - 1) with (hi - lo) by lia.
    rewrite js_index_interval by lia.
    replace (lo + (hi - lo)) with hi by lia.
    exists hi.
    assert (hi < d).
    { apply andb_false_iff in F. destruct F as [F | F]; apply Z.leb_gt in F; lia. }
    split; [reflexivity |]. split; [assumption |].
    unfold js_gtb. destruct (Z.ltb_spec hi d); [reflexivity | lia].
  - intros C. apply andb_true_iff. split; apply Z.leb_le; [lia |].
    subst hi. destruct C as [C | [C1 C2]].
    + rewrite (JSDateFacts.daysInMonth_MakeFullYear y m C).
      destruct ((y =? maxY) && (m =? maxM)) eqn:B; [| lia].
      apply andb_true_iff in B. destruct B as [B1 B2].
      apply Z.eqb_eq in B1, B2. lia.
    + rewrite C1, C2, !Z.eqb_refl. cbn [andb]. lia.
Qed.

Lemma selectionOfDate_clampComponents (f : Date) :
  getFullYear (minDate P) <> 0 ->
  minDate P <= f <= effectiveMaxDate P ->
  getFullYear f <> 0 \/ (getFullYear f = maxY /\ getMonth f + 1 = maxM) ->
  clampComponents P f = selectionOfDate f.
Proof.
  intros Hz Hf C.
  destruct (clampComponents_in_range f Hz Hf) as (A & B & D & _ & E).
  specialize (D (E C)).
  destruct (clampComponents P f) as [sy sm sd]. cbn in A, B, D.
  subst. reflexivity.
Qed.

(** C7, as the code has it.  With [minDate] not after [effectiveMaxDate]
    (and not in year 0): an [initialDate] (today when absent) after
    [effectiveMaxDate] seeds exactly [effectiveMaxDate]; one before [minDate]
    seeds exactly [minDate]; one in between keeps its year and month, and
    its day too when the day list has it, and otherwise takes the list's
    last entry, which it exceeds; it is kept whole when its year is not 0. *)
Theorem seedSelection_clamps_initialDate :
  minDate P <= effectiveMaxDate P ->
  getFullYear (minDate P) <> 0 ->
  (effectiveMaxDate P < dateToUse P ->
   seedSelection P = selectionOfDate (effectiveMaxDate P))
  /\ (dateToUse P < minDate P ->
      seedSelection P = selectionOfDate (minDate P))
  /\ (minDate P <= dateToUse P <= effectiveMaxDate P ->
      let days :=
        buildDayList P (Some (getFullYear (dateToUse P)))
          (Some (getMonth (dateToUse P) + 1)) in
      selectedYear (seedSelection P) = Some (getFullYear (dateToUse P))
      /\ selectedMonth (seedSelection P) = Some (getMonth (dateToUse P) + 1)
      /\ (includes days (Some (getDate (dateToUse P))) = true ->
          selectedDay (seedSelection P) = Some (getDate (dateToUse P)))
      /\ (includes days (Some (getDate (dateToUse P))) = false ->
          exists last,
            js_index days (js_length days - 1) = Some last
            /\ last < getDate (dateToUse P)
            /\ selectedDay (seedSelection P) = Some last)
      /\ (getFullYear (dateToUse P) <> 0 ->
          seedSelection P = selectionOfDate (dateToUse P))).
Proof.
  intros Hb Hz. unfold seedSelection, finalDate, gt, lt.
  split; [| split].
  - intros H.
    destruct (Z.ltb_spec (effectiveMaxDate P) (dateToUse P)); [| lia].
    destruct (Z.ltb_spec (effectiveMaxDate P) (minDate P)); [lia |].
    apply selectionOfDate_clampComponents; [exact Hz | lia |].
    right. split; reflexivity.
  - intros H.
    destruct (Z.ltb_spec (effectiveMaxDate P) (dateToUse P)); [lia |].
    destruct (Z.ltb_spec (dateToUse P) (minDate P)); [| lia].
    apply selectionOfDate_clampComponents; [exact Hz | lia |].
    left. exact Hz.
  - intros H. cbv zeta.
    destruct (Z.ltb_spec (effectiveMaxDate P) (dateToUse P)); [lia |].
    destruct (Z.ltb_spec (dateToUse P) (minDate P)); [lia |].
    pose proof (clampComponents_in_range (dateToUse P) Hz H) as X.
    cbv zeta in X. destruct X as (A & B & C & D & E).
    repeat split; try assumption.
    intros N. apply selectionOfDate_clampComponents; [exact Hz | exact H |].
    left. exact N.
Qed.

End Seeding.

(** ** Synchronisation of the columns *)

Section Synchronisation.

Variable P : Props.
Hypothesis Hb : minDate P <= effectiveMaxDate P.
Hypothesis Hz : getFullYear (minDate P) <> 0.

Let minY := getFullYear (minDate P).
Let minM := getMonth (minDate P) + 1.
Let minD := getDate (minDate P).
Let maxY := getFullYear (effectiveMaxDate P).
Let maxM := getMonth (effectiveMaxDate P) + 1.
Let maxD := getDate (effectiveMaxDate P).

Lemma bounds_facts :
  (minY < maxY \/ (minY = maxY /\ (minM < maxM \/ (minM = maxM /\ minD <= maxD))))
  /\ 1 <= minM <= 12 /\ 1 <= maxM <= 12
  /\ 1 <= minD <= daysInMonth minY minM
  /\ 1 <= maxD <= daysInMonth maxY maxM.
Proof.
  pose proof (JSDateFacts.fields_le _ _ Hb) as L.
  pose proof (JSDateFacts.fields_valid (minDate P)) as (Vm1 & Vd1).
  pose proof (JSDateFacts.fields_valid (effectiveMaxDate P)) as (Vm2 & Vd2).
  unfold ymd_le in L. fold minY minD minM in Vd1. fold maxY maxD maxM in Vd2.
  fold minY maxY minD maxD in L. subst minM maxM.
  repeat split; lia.
Qed.

Lemma includes_year (y : Z) :
  includes (buildYearList P) (Some y) = true <-> minY <= y <= maxY.
Proof.
  rewrite buildYearList_interval, includes_In. apply In_interval.
Qed.

(** The months of a year of the year list: a non-empty run within 1..12. *)
Lemma months_of_year (y : Z) :
  minY <= y <= maxY ->
  exists lo hi,
    buildMonthList P (Some y) = interval lo hi
    /\ 1 <= lo <= hi /\ hi <= 12
    /\ lo = (if y =? minY then minM else 1)
    /\ hi = (if y =? maxY then maxM else 12).
Proof.
  intros Hy. destruct bounds_facts as (O & M1 & M2 & _).
  eexists _, _. split; [| split; [| split; [| split; reflexivity]]].
  - rewrite buildMonthList_interval. fold minY maxY minM maxM.
    destruct (Z.ltb_spec maxY y); [lia | reflexivity].
  - destruct (Z.eqb_spec y minY), (Z.eqb_spec y maxY); lia.
  - destruct (Z.eqb_spec y maxY); lia.
Qed.

(** The days of a month of the month list: a non-empty run of days of that
    month. *)
Lemma days_of_month (y m : Z) :
  minY <= y <= maxY ->
  includes (buildMonthList P (Some y)) (Some m) = true ->
  exists lo hi,
    buildDayList P (Some y) (Some m) = interval lo hi
    /\ 1 <= lo <= hi /\ hi <= daysInMonth y m
    /\ (y = minY -> m = minM -> minD <= lo)
    /\ (y = maxY -> m = maxM -> hi <= maxD).
Proof.
  intros Hy Hm. destruct bounds_facts as (O & M1 & M2 & D1 & D2).
  destruct (months_of_year y Hy) as (lo & hi & E & R1 & R2 & Elo & Ehi).
  rewrite E, includes_In, In_interval in Hm.
  assert (M : 1 <= m <= 12) by lia.
  rewrite (buildDayList_interval P y m M). fold minY maxY minM maxM minD maxD.
  replace ((maxY <? y) || ((y =? maxY) && (maxM <? m))) with false.
  2:{ destruct (Z.ltb_spec maxY y), (Z.eqb_spec y maxY), (Z.ltb_spec maxM m);
        cbn [andb orb]; try reflexivity; lia. }
  eexists _, _. split; [reflexivity |].
  pose proof (JSDateFacts.daysInMonth_range (MakeFullYear y) m) as Rg.
  pose proof (JSDateFacts.daysInMonth_MakeFullYear_le y m) as Le.
  assert (F1 : y = minY -> m = minM -> minD <= daysInMonth (MakeFullYear y) m).
  { intros -> ->. rewrite (JSDateFacts.daysInMonth_MakeFullYear _ _ Hz).
    fold minY. lia. }
  assert (F2 : y = maxY -> m = maxM -> maxD <= daysInMonth y m).
  { intros -> ->. lia. }
  destruct (Z.eqb_spec y minY) as [E1 | N1], (Z.eqb_spec m minM) as [E2 | N2],
    (Z.eqb_spec y maxY) as [E3 | N3], (Z.eqb_spec m maxM) as [E4 | N4];
    cbn [andb]; repeat split; lia.
Qed.


Lemma js_same_refl (a : JSnum) : js_same a a = true.
Proof. destruct a; simpl; [apply Z.eqb_refl | reflexivity]. Qed.

Lemma js_same_eq (a b : JSnum) : js_same a b = true -> a = b.
Proof.
  destruct a, b; simpl; intros H; try discriminate; [| reflexivity].
  apply Z.eqb_eq in H. subst. reflexivity.
Qed.

(** A clamped index reads an entry of a list that has one. *)
Lemma js_index_clampIndex (values : list Z) (i : Z) :
  values <> [] ->
  exists v, js_index values (clampIndex values i) = Some v /\ In v values.
Proof.
  intros N. unfold js_index, clampIndex, js_length.
  assert (L : (0 < length values)%nat) by (destruct values; simpl; [congruence | lia]).
  set (k := Z.max 0 (Z.min i (Z.of_nat (length values) - 1))).
  destruct (Z.ltb_spec k 0); [lia |].
  destruct (nth_error values (Z.to_nat k)) as [v |] eqn:E.
  - exists v. split; [reflexivity |]. eapply nth_error_In. exact E.
  - apply nth_error_None in E. lia.
Qed.

(** The day picked for a missing day is an entry of a non-empty run. *)
Lemma nearestDay_interval (lo hi : Z) (day : JSnum) :
  lo <= hi ->
  nearestDay (interval lo hi) day = Some lo
  \/ nearestDay (interval lo hi) day = Some hi.
Proof.
  intros H. unfold nearestDay. rewrite length_interval.
  replace (Z.max 0 (hi - lo + 1) - 1) with (hi - lo) by lia.
  rewrite !js_index_interval by lia.
  replace (lo + (hi - lo)) with hi by lia. replace (lo + 0) with lo by lia.
  destruct (js_gtb day (Some hi)); [right; reflexivity |].
  destruct (js_ltb day (Some lo)); left; reflexivity.
Qed.

Lemma daySync_nearestDay (s : State) :
  daySync P s
  = if negb (visible s) then None
    else if isInitializing s then None
    else
      let days :=
        buildDayList P (selectedYear (selection s))
          (selectedMonth (selection s)) in
      if negb (includes days (selectedDay (selection s)))
      then Some (nearestDay days (selectedDay (selection s)))
      else None.
Proof. reflexivity. Qed.

(** The seeded selection is legal, whatever [initialDate] is. *)
Lemma clampComponents_legal (f : Date) : legal P (clampComponents P f) = true.
Proof.
  destruct bounds_facts as (O & _).
  unfold legal, clampComponents. cbv zeta.
  cbn [selectedYear selectedMonth selectedDay]. fold minY maxY.
  remember (Z.max minY (Z.min (getFullYear f) maxY)) as cy eqn:Ecy.
  assert (Hy : minY <= cy <= maxY) by lia. clear Ecy.
  destruct (months_of_year cy Hy) as (lo & hi & Em & R & _).
  remember (if (0 <? js_length (buildMonthList P (Some cy)))
               && includes (buildMonthList P (Some cy)) (Some (getMonth f + 1))
            then Some (getMonth f + 1)
            else if 0 <? js_length (buildMonthList P (Some cy))
                 then js_index (buildMonthList P (Some cy)) 0
                 else Some 1) as cm eqn:Ecm.
  assert (Hm : includes (buildMonthList P (Some cy)) cm = true).
  { subst cm. rewrite Em, length_interval.
    replace (0 <? Z.max 0 (hi - lo + 1)) with true
      by (symmetry; apply Z.ltb_lt; lia).
    cbn [andb].
    destruct (includes (interval lo hi) (Some (getMonth f + 1))) eqn:E;
      [exact E |].
    rewrite js_index_interval by lia. apply includes_In, In_interval. lia. }
  clear Ecm.
  destruct (includes_Some _ _ Hm) as (m & -> & _).
  destruct (days_of_month cy m Hy Hm) as (lo' & hi' & Ed & R' & _).
  rewrite Hm, (proj2 (includes_year cy) Hy). cbn [andb].
  rewrite Ed.
  rewrite length_interval.
  replace (0 <? Z.max 0 (hi' - lo' + 1)) with true
    by (symmetry; apply Z.ltb_lt; lia).
  cbn [andb].
  destruct (includes (interval lo' hi') (Some (getDate f))) eqn:E; [exact E |].
  replace (Z.max 0 (hi' - lo' + 1) - 1) with (hi' - lo') by lia.
  rewrite !js_index_interval by lia.
  destruct (js_gtb _ _); [| destruct (js_ltb _ _)];
    apply includes_In, In_interval; lia.
Qed.

(** A legal selection is a calendar date between the bounds. *)
Lemma legal_in_range (sel : Selection) :
  legal P sel = true -> selection_in_range P sel.
Proof.
  intros L. unfold legal in L.
  apply andb_true_iff in L. destruct L as (L & L3).
  apply andb_true_iff in L. destruct L as (L1 & L2).
  destruct sel as [sy sm sd]. cbn [selectedYear selectedMonth selectedDay] in *.
  destruct (includes_Some _ _ L1) as (y & -> & _).
  destruct (includes_Some _ _ L2) as (m & -> & _).
  destruct (includes_Some _ _ L3) as (d & -> & _).
  apply includes_year in L1.
  destruct (months_of_year y L1) as (lo & hi & Em & Rm & Rm' & Elo & Ehi).
  destruct (days_of_month y m L1 L2) as (lo' & hi' & Ed & Rd & Rd' & Dlo & Dhi).
  rewrite Em, includes_In, In_interval in L2.
  rewrite Ed, includes_In, In_interval in L3.
  exists y, m, d. split; [reflexivity |].
  fold minY minM minD maxY maxM maxD. unfold ymd_le.
  destruct (Z.eqb_spec y minY), (Z.eqb_spec y maxY);
    repeat split; try lia.
  all: destruct (Z.eq_dec m minM), (Z.eq_dec m maxM); lia.
Qed.



(** *** Renders and effects *)

Lemma selection_ext (a b : Selection) :
  selectedYear a = selectedYear b -> selectedMonth a = selectedMonth b ->
  selectedDay a = selectedDay b -> a = b.
Proof. destruct a, b; cbn; intros -> -> ->; reflexivity. Qed.

Lemma selection_same_refl (a : Selection) : selection_same a a = true.
Proof. unfold selection_same. rewrite !js_same_refl. reflexivity. Qed.

Lemma selection_same_eq (a b : Selection) : selection_same a b = true -> a = b.
Proof.
  unfold selection_same. intros H.
  apply andb_true_iff in H. destruct H as (H & H3).
  apply andb_true_iff in H. destruct H as (H1 & H2).
  apply selection_ext; apply js_same_eq; assumption.
Qed.

(** Setting the cells either changes nothing, or renders. *)
Lemma commit_cases (s : State) (sel' : Selection) :
  (commit P s sel' = s /\ sel' = selection s)
  \/ (commit P s sel' = render P s (visible s) sel'
      /\ selection_same sel' (selection s) = false).
Proof.
  unfold commit. destruct (selection_same sel' (selection s)) eqn:E.
  - left. split; [reflexivity | apply selection_same_eq; exact E].
  - right. split; reflexivity.
Qed.

Lemma settle_of_settled (fuel : nat) (s : State) :
  settled s = true -> settle P fuel s = s.
Proof.
  intros S. unfold settled in S. apply negb_true_iff in S.
  destruct fuel; cbn [settle]; [| rewrite S]; reflexivity.
Qed.

Lemma settled_flags (s : State) :
  settled s = true <->
  pendingInit s = false /\ pendingMonthSync s = false /\ pendingDaySync s = false.
Proof.
  unfold settled.
  destruct (pendingInit s), (pendingMonthSync s), (pendingDaySync s);
    cbn; intuition congruence.
Qed.

Lemma clearPending_settled (s : State) : settled s = true -> clearPending s = s.
Proof.
  intros S. apply settled_flags in S. destruct S as (A & B & C).
  destruct s. cbn in *. subst. reflexivity.
Qed.

(** With nothing waiting, running the effects changes nothing. *)
Lemma flushEffects_settled (s : State) :
  settled s = true -> flushEffects P s = s.
Proof.
  intros S. pose proof S as F. apply settled_flags in F.
  destruct F as (A & B & C).
  unfold flushEffects. rewrite A, B, C. unfold commit.
  cbn [clearPending selection]. rewrite selection_same_refl.
  apply clearPending_settled. exact S.
Qed.

(** *** A [minDate] passed by the caller *)

(** What one run of the synchronising effects leaves: the year untouched,
    the month effect never scheduled again, the day effect scheduled exactly
    when the month changed. *)
Lemma flushEffects_fields (s : State) :
  freshMinDate P = false -> pendingInit s = false ->
  visible (flushEffects P s) = visible s
  /\ isInitializing (flushEffects P s) = isInitializing s
  /\ selectedYear (selection (flushEffects P s)) = selectedYear (selection s)
  /\ selectedMonth (selection (flushEffects P s))
     = match (if pendingMonthSync s then monthSync P s else None) with
       | Some m => m
       | None => selectedMonth (selection s)
       end
  /\ selectedDay (selection (flushEffects P s))
     = match (if pendingDaySync s then daySync P s else None) with
       | Some d => d
       | None => selectedDay (selection s)
       end
  /\ pendingInit (flushEffects P s) = false
  /\ pendingMonthSync (flushEffects P s) = false
  /\ pendingDaySync (flushEffects P s)
     = negb (js_same (selectedMonth (selection (flushEffects P s)))
                     (selectedMonth (selection s))).
Proof.
  intros Fr Pi. unfold flushEffects. rewrite Pi.
  set (mu := if pendingMonthSync s then monthSync P s else None).
  set (du := if pendingDaySync s then daySync P s else None).
  set (sel2 := match du with
               | Some d => withDay (match mu with
                                    | Some m => withMonth (selection s) m
                                    | None => selection s
                                    end) d
               | None => match mu with
                         | Some m => withMonth (selection s) m
                         | None => selection s
                         end
               end).
  assert (Y2 : selectedYear sel2 = selectedYear (selection s))
    by (subst sel2; destruct du, mu; reflexivity).
  assert (M2 : selectedMonth sel2
               = match mu with Some m => m | None => selectedMonth (selection s) end)
    by (subst sel2; destruct du, mu; reflexivity).
  assert (D2 : selectedDay sel2
               = match du with Some d => d | None => selectedDay (selection s) end)
    by (subst sel2; destruct du, mu; reflexivity).
  destruct (commit_cases (clearPending s) sel2) as [(-> & E) | (-> & _)].
  - cbn [clearPending selection] in E.
    cbn [clearPending visible isInitializing selection pendingInit
           pendingMonthSync pendingDaySync].
    rewrite <- M2, <- D2, E, js_same_refl. repeat split.
  - cbn [render clearPending visible isInitializing selection pendingInit
           pendingMonthSync pendingDaySync].
    rewrite Y2, M2, D2, Fr, js_same_refl, Bool.eqb_reflx.
    cbn [negb orb]. rewrite ?orb_false_r. repeat split.
Qed.

(** The month the month-synchronising effect leaves is a month of the year. *)
Lemma monthSync_repairs (s : State) (y : Z) :
  visible s = true -> isInitializing s = false ->
  selectedYear (selection s) = Some y -> minY <= y <= maxY ->
  includes (buildMonthList P (Some y))
    (match monthSync P s with
     | Some m => m
     | None => selectedMonth (selection s)
     end) = true.
Proof.
  intros V I Ey Hy. unfold monthSync. rewrite V, I, Ey. cbn [negb].
  destruct (includes (buildMonthList P (Some y)) (selectedMonth (selection s)))
    eqn:E; cbn [negb]; [exact E |].
  destruct (months_of_year y Hy) as (lo & hi & -> & R & _).
  rewrite js_index_interval by lia.
  apply includes_In, In_interval. lia.
Qed.

(** The day the day-synchronising effect leaves, run on a month of the
    year, is a day of that month. *)
Lemma daySync_repairs (s : State) (y m : Z) :
  visible s = true -> isInitializing s = false ->
  selectedYear (selection s) = Some y -> minY <= y <= maxY ->
  selectedMonth (selection s) = Some m ->
  includes (buildMonthList P (Some y)) (Some m) = true ->
  includes (buildDayList P (Some y) (Some m))
    (match daySync P s with
     | Some d => d
     | None => selectedDay (selection s)
     end) = true.
Proof.
  intros V I Ey Hy Em Hm. rewrite daySync_nearestDay, V, I, Ey, Em.
  cbn [negb]. cbv zeta.
  destruct (includes (buildDayList P (Some y) (Some m))
              (selectedDay (selection s))) eqn:E; cbn [negb]; [exact E |].
  destruct (days_of_month y m Hy Hm) as (lo & hi & -> & R & _).
  destruct (nearestDay_interval lo hi (selectedDay (selection s))) as [-> | ->];
    [lia | |]; apply includes_In, In_interval; lia.
Qed.

(** Running the effects keeps [repairPending]. *)
Lemma flushEffects_repairPending (s : State) :
  freshMinDate P = false -> pendingInit s = false ->
  visible s = true -> isInitializing s = false ->
  repairPending P s -> repairPending P (flushEffects P s).
Proof.
  intros Fr Pi V I (Wy & Wm & Wd & Wc).
  destruct (flushEffects_fields s Fr Pi) as (_ & _ & Fy & Fm & Fd & _ & Fpm & Fpd).
  destruct (includes_Some _ _ Wy) as (y & Ey & Iy).
  rewrite buildYearList_interval in Iy. apply In_interval in Iy.
  fold minY maxY in Iy.
  unfold repairPending. cbv zeta.
  rewrite Fy, Ey, Fpm. rewrite Ey in Wy, Wm, Wd.
  assert (Hmonth : includes (buildMonthList P (Some y))
                     (selectedMonth (selection (flushEffects P s))) = true).
  { rewrite Fm. destruct (pendingMonthSync s) eqn:Pm.
    - apply monthSync_repairs; assumption.
    - apply Wm. reflexivity. }
  split; [exact Wy |]. split; [intros _; exact Hmonth |].
  split; [| discriminate].
  intros Q. split; [exact Hmonth |].
  rewrite Fpd in Q. apply negb_false_iff, js_same_eq in Q.
  rewrite Q in Hmonth |- *.
  destruct (includes_Some _ _ Hmonth) as (m & Em & _).
  rewrite Em in Hmonth |- *.
  rewrite Fd. destruct (pendingDaySync s) eqn:Pd.
  - apply daySync_repairs; assumption.
  - rewrite Em in Wd. apply Wd. reflexivity.
Qed.

(** With nothing waiting, [repairPending] says that the selection is legal. *)
Lemma repairPending_settled_legal (s : State) :
  repairPending P s -> settled s = true -> legal P (selection s) = true.
Proof.
  intros (Wy & Wm & Wd & _) S. apply settled_flags in S.
  destruct S as (_ & S1 & S2).
  destruct (Wd S2) as (A & B). unfold legal. rewrite Wy, A, B. reflexivity.
Qed.

(** A settled state, with every cell an entry of its list. *)
Lemma legal_repairPending (s : State) :
  settled s = true -> legal P (selection s) = true -> repairPending P s.
Proof.
  intros S L. apply settled_flags in S. destruct S as (_ & S1 & S2).
  unfold legal in L. apply andb_true_iff in L. destruct L as (L & L3).
  apply andb_true_iff in L. destruct L as (L1 & L2).
  unfold repairPending. cbv zeta. rewrite S1.
  repeat split; intros; try assumption; discriminate.
Qed.

(** Two runs of the effects settle a state that they repair. *)
Lemma settle_stable (s : State) :
  freshMinDate P = false ->
  pendingInit s = false -> visible s = true -> isInitializing s = false ->
  repairPending P s ->
  let s0 := settle P settleFuel s in
  visible s0 = true /\ isInitializing s0 = false
  /\ settled s0 = true /\ legal P (selection s0) = true.
Proof.
  intros Fr Pi V I W.
  assert (Done : forall x, visible x = true -> isInitializing x = false ->
                           repairPending P x -> settled x = true ->
                           forall fuel,
                             visible (settle P fuel x) = true
                             /\ isInitializing (settle P fuel x) = false
                             /\ settled (settle P fuel x) = true
                             /\ legal P (selection (settle P fuel x)) = true).
  { intros x Vx Ix Wx Sx fuel. rewrite (settle_of_settled fuel x Sx).
    repeat split; try assumption.
    apply repairPending_settled_legal; assumption. }
  unfold settleFuel. cbv zeta. cbn [settle].
  destruct (pendingInit s || pendingMonthSync s || pendingDaySync s) eqn:E1.
  2:{ repeat split; try assumption.
      - unfold settled. rewrite E1. reflexivity.
      - apply repairPending_settled_legal; [exact W |].
        unfold settled. rewrite E1. reflexivity. }
  destruct (flushEffects_fields s Fr Pi) as (Fv & Fi & _ & _ & _ & Fpi & Fpm & _).
  pose proof (flushEffects_repairPending s Fr Pi V I W) as W1.
  set (s1 := flushEffects P s) in *.
  rewrite Fpi, Fpm. cbn [orb].
  destruct (pendingDaySync s1) eqn:E2.
  2:{ repeat split; try congruence.
      - apply settled_flags. repeat split; assumption.
      - apply repairPending_settled_legal; [exact W1 |].
        apply settled_flags. repeat split; assumption. }
  destruct (flushEffects_fields s1 Fr Fpi)
    as (Fv2 & Fi2 & _ & Fm2 & _ & Fpi2 & Fpm2 & Fpd2).
  rewrite Fpm in Fm2.
  pose proof (flushEffects_repairPending s1 Fr Fpi ltac:(congruence)
                ltac:(congruence) W1) as W2.
  assert (S2 : settled (flushEffects P s1) = true).
  { apply settled_flags. repeat split; try assumption.
    rewrite Fpd2, Fm2. apply negb_false_iff, js_same_refl. }
  apply (Done (flushEffects P s1) ltac:(congruence) ltac:(congruence) W2 S2 1%nat).
Qed.

(** *** The initialisation effect *)

Lemma monthSync_initializing (s : State) :
  isInitializing s = true -> monthSync P s = None.
Proof.
  intros I. unfold monthSync. rewrite I. destruct (negb (visible s)); reflexivity.
Qed.

Lemma daySync_initializing (s : State) :
  isInitializing s = true -> daySync P s = None.
Proof.
  intros I. unfold daySync. rewrite I. destruct (negb (visible s)); reflexivity.
Qed.

(** A run of the effects that includes the initialisation effect, on a
    visible dialog, leaves the seed selected; the synchronising effects of
    that run do nothing. *)
Lemma flushEffects_init (s : State) :
  visible s = true -> pendingInit s = true ->
  seeding P (flushEffects P s)
  /\ (settled (flushEffects P s) = true
      \/ pendingInit (flushEffects P s) = freshMinDate P)
  /\ (selection s = seedSelection P -> settled (flushEffects P s) = true).
Proof.
  intros V Pi. unfold flushEffects, initEffect. rewrite Pi, V.
  set (s1 := setInitializing
               (setInitializing s false None (initDoneTimer s)) true
               (Some (seedSelection P)) (initDoneTimer s)).
  assert (I1 : isInitializing s1 = true) by reflexivity.
  rewrite (monthSync_initializing s1 I1), (daySync_initializing s1 I1).
  destruct (pendingMonthSync s), (pendingDaySync s);
    destruct (commit_cases (clearPending s1) (seedSelection P))
      as [(-> & E) | (-> & E)];
    cbn [selection clearPending s1 setInitializing] in E;
    (split; [| split]);
    try (left; reflexivity);
    try (right; cbn; rewrite V; reflexivity);
    try (repeat split; cbn; congruence);
    try (intros Q; rewrite Q, selection_same_refl in E; discriminate E);
    try (intros _; reflexivity).
Qed.

(** Once the seed is selected and the flag is up, the effects change
    nothing until the timers fire. *)
Lemma flushEffects_seeding (s : State) :
  seeding P s ->
  seeding P (flushEffects P s) /\ settled (flushEffects P s) = true.
Proof.
  intros (V & I & T & E).
  destruct (pendingInit s) eqn:Pi.
  - destruct (flushEffects_init s V Pi) as (A & _ & C).
    split; [exact A | exact (C E)].
  - unfold flushEffects. rewrite Pi.
    rewrite (monthSync_initializing s I), (daySync_initializing s I).
    replace (if pendingMonthSync s then None else None) with (@None JSnum)
      by (destruct (pendingMonthSync s); reflexivity).
    replace (if pendingDaySync s then None else None) with (@None JSnum)
      by (destruct (pendingDaySync s); reflexivity).
    unfold commit. cbn [clearPending selection].
    rewrite selection_same_refl.
    split; [repeat split; cbn; assumption | reflexivity].
Qed.

Lemma settle_seeding (s : State) :
  seeding P s ->
  seeding P (settle P settleFuel s) /\ settled (settle P settleFuel s) = true.
Proof.
  intros Y. unfold settleFuel. cbn [settle].
  destruct (pendingInit s || pendingMonthSync s || pendingDaySync s) eqn:E.
  - destruct (flushEffects_seeding s Y) as (Y1 & S1).
    pose proof S1 as S1'. unfold settled in S1'. apply negb_true_iff in S1'.
    rewrite S1'. split; assumption.
  - split; [exact Y |]. unfold settled. rewrite E. reflexivity.
Qed.

(** *** A [minDate] that is new at every render *)

Lemma settle_fresh (s : State) :
  freshMinDate P = true -> coordinated P s -> ready P (settle P settleFuel s).
Proof.
  intros Fr (V & C). rewrite Fr in C. unfold ready. rewrite Fr.
  destruct C as [Pi | (S & E)].
  - unfold settleFuel. cbn [settle]. rewrite Pi. cbn [orb].
    destruct (flushEffects_init s V Pi) as (Y & _ & _).
    destruct (settle_seeding (flushEffects P s) Y) as ((V2 & _ & _ & E2) & S2).
    unfold settleFuel in *. cbn [settle] in V2, E2, S2.
    destruct (pendingInit (flushEffects P s) || pendingMonthSync (flushEffects P s)
              || pendingDaySync (flushEffects P s)) eqn:Q.
    + destruct (flushEffects_seeding _ Y) as ((V3 & _ & _ & E3) & S3).
      pose proof S3 as S3'. unfold settled in S3'. apply negb_true_iff in S3'.
      rewrite S3'. repeat split; assumption.
    + destruct Y as (V3 & _ & _ & E3).
      repeat split;
        first [assumption | unfold settled; rewrite Q; reflexivity].
  - rewrite (settle_of_settled settleFuel s S). repeat split; assumption.
Qed.

Lemma settle_ready (s : State) :
  coordinated P s -> ready P (settle P settleFuel s).
Proof.
  intros C. destruct (freshMinDate P) eqn:Fr; [apply settle_fresh; assumption |].
  destruct C as (V & C). rewrite Fr in C. destruct C as (Pi & I & W).
  destruct (settle_stable s Fr Pi V I W) as (V0 & I0 & S0 & L0).
  unfold ready. rewrite Fr. repeat split; assumption.
Qed.

Lemma ready_coordinated (s : State) : ready P s -> coordinated P s.
Proof.
  intros (V & S & R). split; [exact V |].
  destruct (freshMinDate P).
  - right. split; assumption.
  - destruct R as (I & L).
    split; [apply settled_flags in S; tauto |].
    split; [exact I | apply legal_repairPending; assumption].
Qed.

(** *** Handlers *)

Lemma sameCore_refl (s : State) : sameCore P s s.
Proof. repeat split. left. repeat split. Qed.

Lemma sameCore_trans (a b c : State) :
  sameCore P a b -> sameCore P b c -> sameCore P a c.
Proof.
  intros (A1 & A2 & A3 & A4) (B1 & B2 & B3 & B4).
  repeat split; try congruence.
  destruct B4 as [(B4 & B5 & B6) | B4]; [| right; exact B4].
  destruct A4 as [(A4 & A5 & A6) | (A4 & A5)];
    [left; repeat split; congruence | right; split; congruence].
Qed.

Lemma setColumnState_core (s : State) (column : Column) (c : PickerColumnState) :
  sameCore P s (setColumnState s column c).
Proof. destruct column; repeat split; left; repeat split. Qed.

Lemma setCenterIndexState_core (s : State) (column : Column) (index : Z) :
  sameCore P s (setCenterIndexState P s column index).
Proof.
  unfold setCenterIndexState.
  destruct (centerIndexState s column =? index); [apply sameCore_refl |].
  repeat split. cbn. rewrite Bool.eqb_reflx, !js_same_refl. cbn [negb orb].
  destruct (freshMinDate P).
  - right. split; [reflexivity | apply orb_true_r].
  - left. rewrite !orb_false_r. repeat split.
Qed.

Lemma setCenterIndex_core (s : State) (column : Column) (index : Z) :
  sameCore P s (setCenterIndex P s column index).
Proof.
  unfold setCenterIndex.
  eapply sameCore_trans; [apply setColumnState_core |].
  apply setCenterIndexState_core.
Qed.

Lemma scrollToIndex_core (closure : Selection) (column : Column) (index : Z)
  (animate : bool) (s : State) :
  sameCore P s (fst (scrollToIndex P closure column index animate s)).
Proof.
  unfold scrollToIndex. destruct (negb (visible s)); cbn [fst];
    [apply sameCore_refl |].
  eapply sameCore_trans; [apply setColumnState_core |].
  apply setCenterIndexState_core.
Qed.

Lemma alignColumnToSelection_core (closure : Selection) (column : Column)
  (animate : bool) (s : State) :
  sameCore P s (fst (alignColumnToSelection P closure column animate s)).
Proof.
  unfold alignColumnToSelection.
  destruct (negb (visible s)); [apply sameCore_refl |].
  destruct (_ =? -1); [apply sameCore_refl |].
  eapply sameCore_trans; [| apply scrollToIndex_core].
  apply setCenterIndex_core.
Qed.

Lemma alignToValue_core (seed : Selection) (column : Column) (s : State) :
  sameCore P s (fst (alignToValue P seed column s)).
Proof.
  unfold alignToValue.
  destruct (negb (visible s)); [apply sameCore_refl |].
  destruct (_ =? -1); [apply sameCore_refl |]. cbn [fst].
  eapply sameCore_trans; [apply setColumnState_core |].
  apply setCenterIndexState_core.
Qed.

Lemma thread_core (f g : State -> State * list Output) (s : State) :
  (forall x, sameCore P x (fst (f x))) -> (forall x, sameCore P x (fst (g x))) ->
  sameCore P s (fst (thread f g s)).
Proof.
  intros Hf Hg. unfold thread.
  pose proof (Hf s) as A. destruct (f s) as [s1 o1]. cbn [fst] in A.
  pose proof (Hg s1) as B. destruct (g s1) as [s2 o2]. cbn [fst] in *.
  eapply sameCore_trans; eassumption.
Qed.

(** With a [minDate] that the caller passes, the same effects are waiting. *)
Lemma sameCore_stable (s s' : State) :
  freshMinDate P = false -> sameCore P s s' ->
  pendingInit s' = pendingInit s
  /\ pendingMonthSync s' = pendingMonthSync s
  /\ pendingDaySync s' = pendingDaySync s.
Proof.
  intros Fr (_ & _ & _ & [C | (C & _)]); [exact C | congruence].
Qed.

Lemma sameCore_coordinated (s s' : State) :
  sameCore P s s' -> coordinated P s -> coordinated P s'.
Proof.
  intros C (V & K). pose proof C as (A & B & I & F).
  unfold coordinated. rewrite A. split; [exact V |].
  destruct (freshMinDate P) eqn:Fr.
  - destruct F as [(F1 & F2 & F3) | (_ & F)]; [| left; exact F].
    unfold settled in *. rewrite F1, F2, F3, B. exact K.
  - destruct (sameCore_stable s s' Fr C) as (F1 & F2 & F3).
    destruct K as (K1 & K2 & K3). rewrite F1, I.
    split; [exact K1 |]. split; [exact K2 |].
    unfold repairPending in *. rewrite B, F2, F3. exact K3.
Qed.

(** The lists of a legal selection have entries. *)
Lemma legal_lists (sel : Selection) (column : Column) :
  legal P sel = true -> columnValues P sel column <> [].
Proof.
  intros L. unfold legal in L. apply andb_true_iff in L. destruct L as (L & L3).
  apply andb_true_iff in L. destruct L as (L1 & L2).
  destruct column; cbn [columnValues]; intros E;
    [rewrite E in L1; destruct (selectedYear sel)
    | rewrite E in L2; destruct (selectedMonth sel)
    | rewrite E in L3; destruct (selectedDay sel)]; discriminate.
Qed.

(** A render after a handler applied the entry at an index of a column:
    what it leaves is repaired by the effects it schedules. *)
Lemma render_applySelection (s s1 : State) (closure : Selection)
  (column : Column) (index : Z) :
  freshMinDate P = false ->
  sameCore P s s1 -> settled s = true -> legal P (selection s) = true ->
  selectedYear closure = selectedYear (selection s) ->
  selectedMonth closure = selectedMonth (selection s) ->
  let s2 :=
    render P s1 (visible s1)
      (applySelectionFromIndex P closure column index (selection s)) in
  pendingInit s2 = false /\ repairPending P s2.
Proof.
  intros Fr C S L Ey Em s2.
  destruct (sameCore_stable s s1 Fr C) as (F1 & F2 & F3).
  destruct C as (C1 & C2 & C3 & _).
  destruct (proj1 (settled_flags s) S) as (S1 & S2 & S3).
  rewrite S1 in F1. rewrite S2 in F2. rewrite S3 in F3.
  split; [subst s2; cbn; rewrite F1, Fr, Bool.eqb_reflx; reflexivity |].
  assert (Hvalues : columnValues P closure column
                    = columnValues P (selection s) column).
  { destruct column; cbn [columnValues]; rewrite ?Ey, ?Em; reflexivity. }
  destruct (js_index_clampIndex (columnValues P (selection s) column) index
              (legal_lists _ column L)) as (v & Ev & Iv).
  pose proof L as L'. unfold legal in L'.
  apply andb_true_iff in L'. destruct L' as (L' & L3).
  apply andb_true_iff in L'. destruct L' as (L1 & L2).
  subst s2. unfold repairPending, render, applySelectionFromIndex.
  rewrite Hvalues, Ev. cbv zeta.
  cbn [selection pendingMonthSync pendingDaySync visible].
  rewrite C2, F2, F3, Fr, Bool.eqb_reflx. cbn [negb orb].
  rewrite !orb_false_r.
  destruct column; cbn [columnValues] in Iv.
  - destruct (negb (js_same (Some v) (selectedYear closure))) eqn:B;
      cbn [withYear selectedYear selectedMonth selectedDay].
    + rewrite Ey in B. cbn [js_same] in B |- *.
      destruct (selectedYear (selection s)) as [y |] eqn:Y; [| discriminate].
      cbn [js_same] in B |- *. rewrite B. cbn [orb].
      repeat split; intros; try discriminate; try reflexivity.
      apply includes_In. exact Iv.
    + rewrite !js_same_refl. cbn [negb orb].
      repeat split; intros; try assumption; discriminate.
  - destruct (negb (js_same (Some v) (selectedMonth closure))) eqn:B;
      cbn [withMonth selectedYear selectedMonth selectedDay];
      rewrite !js_same_refl; cbn [negb orb].
    + rewrite Em in B. rewrite B.
      repeat split; intros; try assumption; try discriminate;
        apply includes_In; exact Iv.
    + repeat split; intros; try assumption; discriminate.
  - destruct (negb (js_same (Some v) (selectedDay closure))) eqn:B;
      cbn [withDay selectedYear selectedMonth selectedDay];
      rewrite !js_same_refl; cbn [negb orb].
    + repeat split; intros; try assumption; try discriminate;
        apply includes_In; exact Iv.
    + repeat split; intros; try assumption; discriminate.
Qed.

(** A handler that applies the entry at an index, on a dialog that is
    ready, leaves it coordinated. *)
Lemma commit_applySelection (s s1 : State) (closure : Selection)
  (column : Column) (index : Z) :
  sameCore P s s1 -> ready P s ->
  selectedYear closure = selectedYear (selection s) ->
  selectedMonth closure = selectedMonth (selection s) ->
  coordinated P
    (commit P s1 (applySelectionFromIndex P closure column index (selection s))).
Proof.
  intros C R Ey Em.
  destruct (commit_cases s1
              (applySelectionFromIndex P closure column index (selection s)))
    as [(-> & _) | (-> & _)];
    [apply (sameCore_coordinated s s1 C), ready_coordinated; exact R |].
  destruct R as (V & S & R). pose proof C as (C1 & _ & C3 & _).
  unfold coordinated. split; [cbn; congruence |].
  destruct (freshMinDate P) eqn:Fr.
  - left. cbn. rewrite Fr. apply orb_true_r.
  - destruct R as (I & L).
    destruct (render_applySelection s s1 closure column index Fr C S L Ey Em)
      as (A & B).
    split; [exact A |]. split; [| exact B].
    cbn. congruence.
Qed.

Lemma handleScroll_coordinated (column : Column) (offsetY : Q) (s : State) :
  ready P s -> coordinated P (handleScroll P column offsetY s).
Proof.
  intros R. unfold handleScroll.
  destruct (isAutoScrolling (columnState s column));
    [apply ready_coordinated; exact R |].
  cbv zeta. unfold armScrollStop.
  eapply sameCore_coordinated; [apply setColumnState_core |].
  destruct (negb (centerIndex (columnState s column) =? _)).
  - apply commit_applySelection;
      [apply setCenterIndex_core | exact R | reflexivity | reflexivity].
  - apply ready_coordinated. exact R.
Qed.

Lemma handleMomentumScrollEnd_coordinated (column : Column) (offsetY : Q)
  (s : State) :
  ready P s -> coordinated P (handleMomentumScrollEnd P column offsetY s).
Proof.
  intros R. unfold handleMomentumScrollEnd.
  destruct (isAutoScrolling (columnState s column));
    [apply ready_coordinated; exact R |].
  cbv zeta. destruct (0 <? _).
  - apply commit_applySelection;
      [apply setCenterIndex_core | exact R | reflexivity | reflexivity].
  - apply ready_coordinated. exact R.
Qed.

Lemma handleItemPress_coordinated (column : Column) (index : Z) (s : State) :
  ready P s -> coordinated P (fst (handleItemPress P column index s)).
Proof.
  intros R. unfold handleItemPress. cbv zeta.
  eapply sameCore_coordinated; [apply scrollToIndex_core |].
  apply commit_applySelection;
    [apply setColumnState_core | exact R | reflexivity | reflexivity].
Qed.

(** *** Events *)

Lemma flushEffects_coordinated (s : State) :
  coordinated P s -> coordinated P (flushEffects P s).
Proof.
  intros (V & C). unfold coordinated. destruct (freshMinDate P) eqn:Fr.
  - destruct C as [Pi | (S & E)].
    + destruct (flushEffects_init s V Pi) as ((V1 & _ & _ & E1) & [S1 | Q1] & _).
      * split; [exact V1 |]. right. split; assumption.
      * split; [exact V1 |]. left. rewrite Q1. exact Fr.
    + rewrite (flushEffects_settled s S). split; [exact V |].
      right. split; assumption.
  - destruct C as (Pi & I & W).
    destruct (flushEffects_fields s Fr Pi) as (Fv & Fi & _ & _ & _ & Fpi & _).
    rewrite Fv, Fi, Fpi.
    split; [exact V |]. split; [reflexivity |]. split; [exact I |].
    apply flushEffects_repairPending; assumption.
Qed.

Lemma setInitializing_core (s : State) (t : option Selection) (done : bool) :
  sameCore P s (setInitializing s (isInitializing s) t done).
Proof. repeat split. left. repeat split. Qed.

Lemma initTimerFired_core (s : State) : sameCore P s (fst (initTimerFired P s)).
Proof.
  unfold initTimerFired. destruct (initTimer s) as [seed |];
    [| apply sameCore_refl].
  eapply sameCore_trans; [apply setInitializing_core |].
  apply thread_core; [intros x; apply alignToValue_core |].
  intros x. apply thread_core; intros x0; apply alignToValue_core.
Qed.

Lemma initDoneFired_coordinated (s : State) :
  coordinated P s -> coordinated P (initDoneFired s).
Proof.
  intros C. unfold initDoneFired. destruct (initDoneTimer s); [| exact C].
  destruct C as (V & C). unfold coordinated.
  destruct (freshMinDate P); [split; [exact V | exact C] |].
  destruct C as (Pi & I & W).
  split; [exact V |]. split; [exact Pi |]. split; [reflexivity | exact W].
Qed.

Lemma scrollStopFired_core (column : Column) (s : State) :
  sameCore P s (fst (scrollStopFired P column s)).
Proof.
  unfold scrollStopFired.
  destruct (scrollStopTimer (columnState s column)); [| apply sameCore_refl].
  destruct (isAutoScrolling (columnState s column)); cbn [fst].
  - apply setColumnState_core.
  - eapply sameCore_trans; [| apply scrollToIndex_core].
    apply setColumnState_core.
Qed.

(** Every event of a visibility cycle keeps the dialog coordinated. *)
Lemma step_coordinated (s : State) (e : Event) :
  withinCycle e = true -> coordinated P s -> coordinated P (fst (step P s e)).
Proof.
  intros We C.
  destruct e; try discriminate We;
    try (cbn [step fst]; apply flushEffects_coordinated; exact C);
    pose proof (settle_ready s C) as R;
    pose proof (ready_coordinated _ R) as C0;
    pose proof R as (V & _);
    unfold step; rewrite ?V.
  - eapply sameCore_coordinated; [apply initTimerFired_core | exact C0].
  - apply initDoneFired_coordinated. exact C0.
  - apply handleScroll_coordinated. exact R.
  - apply handleMomentumScrollEnd_coordinated. exact R.
  - apply handleItemPress_coordinated. exact R.
  - eapply sameCore_coordinated; [apply scrollStopFired_core | exact C0].
  - destruct (isAutoScrolling _); [exact C0 |].
    eapply sameCore_coordinated; [apply scrollToIndex_core | exact C0].
  - eapply sameCore_coordinated; [apply alignColumnToSelection_core | exact C0].
  - eapply sameCore_coordinated; [apply setColumnState_core | exact C0].
  - exact C0.
  - exact C0.
  - exact C0.
  - exact C0.
Qed.

Lemma fst_run_cons (s : State) (e : Event) (es : list Event) :
  fst (run P s (e :: es)) = fst (run P (fst (step P s e)) es).
Proof.
  cbn [run]. destruct (step P s e) as [s1 o1]. cbn [fst].
  destruct (run P s1 es) as [s2 o2]. reflexivity.
Qed.

Lemma fst_run_app (s : State) (es1 es2 : list Event) :
  fst (run P s (es1 ++ es2)) = fst (run P (fst (run P s es1)) es2).
Proof.
  revert s. induction es1 as [| e es1 IH]; intros s; [reflexivity |].
  rewrite <- app_comm_cons, !fst_run_cons. apply IH.
Qed.

Lemma run_coordinated (es : list Event) (s : State) :
  forallb withinCycle es = true -> coordinated P s ->
  coordinated P (fst (run P s es)).
Proof.
  revert s. induction es as [| e es IH]; intros s W C; [exact C |].
  cbn [forallb] in W. apply andb_true_iff in W. destruct W as (We & W).
  rewrite fst_run_cons. apply IH; [exact W |].
  apply step_coordinated; assumption.
Qed.

(** *** Opening *)

Lemma step_Open_mount :
  visible (fst (step P (mount P) Open)) = true
  /\ pendingInit (fst (step P (mount P) Open)) = true.
Proof. split; reflexivity. Qed.

Lemma alignToValue_initDoneTimer (seed : Selection) (column : Column)
  (s : State) :
  initDoneTimer (fst (alignToValue P seed column s)) = initDoneTimer s.
Proof.
  unfold alignToValue.
  destruct (negb (visible s)); [reflexivity |].
  destruct (_ =? -1); [reflexivity |]. cbn [fst].
  unfold setCenterIndexState. destruct (_ =? _); destruct column; reflexivity.
Qed.

Lemma initTimerFired_initDoneTimer (s : State) (seed : Selection) :
  initTimer s = Some seed -> initDoneTimer (fst (initTimerFired P s)) = true.
Proof.
  intros T. unfold initTimerFired, thread. rewrite T.
  destruct (alignToValue P seed ColYear _) as [s1 o1] eqn:E1.
  destruct (alignToValue P seed ColMonth s1) as [s2 o2] eqn:E2.
  destruct (alignToValue P seed ColDay s2) as [s3 o3] eqn:E3.
  cbn [fst].
  change s3 with (fst (s3, o3)). rewrite <- E3, alignToValue_initDoneTimer.
  change s2 with (fst (s2, o2)). rewrite <- E2, alignToValue_initDoneTimer.
  change s1 with (fst (s1, o1)). rewrite <- E1, alignToValue_initDoneTimer.
  reflexivity.
Qed.

(** After [opening] the dialog is coordinated. *)
Lemma opening_coordinated : coordinated P (fst (run P (mount P) opening)).
Proof.
  unfold opening. rewrite fst_run_cons.
  destruct step_Open_mount as (V1 & Pi1).
  revert V1 Pi1. generalize (fst (step P (mount P) Open)). intros s1 V1 Pi1.
  destruct (freshMinDate P) eqn:Fr.
  { apply run_coordinated; [reflexivity |].
    split; [exact V1 |]. rewrite Fr. left. exact Pi1. }
  (* Effects *)
  rewrite fst_run_cons.
  change (step P s1 Effects) with (flushEffects P s1, @nil Output). cbn [fst].
  destruct (flushEffects_init s1 V1 Pi1) as (Y2 & _).
  revert Y2. generalize (flushEffects P s1). intros s2 Y2.
  (* InitTimer *)
  rewrite fst_run_cons.
  change (step P s2 InitTimer) with (initTimerFired P (settle P settleFuel s2)).
  destruct (settle_seeding s2 Y2) as ((V3 & I3 & T3 & E3) & S3).
  revert V3 I3 T3 E3 S3. generalize (settle P settleFuel s2).
  intros s3 V3 I3 T3 E3 S3.
  pose proof (initTimerFired_core s3) as C4.
  pose proof (initTimerFired_initDoneTimer s3 _ T3) as D4.
  revert C4 D4. generalize (fst (initTimerFired P s3)). intros s4 C4 D4.
  destruct (sameCore_stable s3 s4 Fr C4) as (F1 & F2 & F3).
  destruct C4 as (V4 & E4 & I4 & _).
  assert (S4 : settled s4 = true)
    by (unfold settled in *; rewrite F1, F2, F3; exact S3).
  (* InitDone *)
  rewrite fst_run_cons. unfold step. rewrite (settle_of_settled _ _ S4).
  cbn [run fst]. unfold initDoneFired. rewrite D4.
  apply ready_coordinated. unfold ready. rewrite Fr.
  split; [cbn; congruence |]. split; [exact S4 |].
  split; [reflexivity |]. cbn [selection setInitializing].
  rewrite E4, E3. apply clampComponents_legal.
Qed.

(** What the synchronising effects do achieve.  With [minDate] not after
    [effectiveMaxDate] (and not in year 0): when the first opening has run
    to the end of its initialisation, then after any events of that
    visibility cycle (scrolls, momentum ends, taps, timers, effect runs,
    presses), once the effects that are waiting have run, the dialog is
    visible and the selected date is a calendar date between [minDate] and
    [effectiveMaxDate].  ([initialDate] is a valid date or absent; a change
    made before the initialisation timers have fired is outside this
    statement, and is not repaired.) *)
Lemma selection_in_range_once_settled (es : list Event) :
  forallb withinCycle es = true ->
  visible (settle P settleFuel (fst (run P (mount P) (opening ++ es)))) = true
  /\ settled (settle P settleFuel (fst (run P (mount P) (opening ++ es))))
     = true
  /\ selection_in_range P
       (selection
          (settle P settleFuel (fst (run P (mount P) (opening ++ es))))).
Proof.
  intros Hc. rewrite fst_run_app.
  pose proof (run_coordinated es _ Hc opening_coordinated) as C.
  destruct (settle_ready _ C) as (V & S & R).
  split; [exact V |]. split; [exact S |].
  apply legal_in_range. destruct (freshMinDate P).
  - rewrite R. apply clampComponents_legal.
  - apply R.
Qed.

End Synchronisation.

(** ** Further properties of the component *)

(** *** Runs *)

Section Runs.

Variable P : Props.

Lemma snd_run_cons (s : State) (e : Event) (es : list Event) :
  snd (run P s (e :: es))
  = snd (step P s e) ++ snd (run P (fst (step P s e)) es).
Proof.
  cbn [run]. destruct (step P s e) as [s1 o1]. cbn [fst snd].
  destruct (run P s1 es) as [s2 o2]. reflexivity.
Qed.

Lemma snd_run_app (s : State) (es1 es2 : list Event) :
  snd (run P s (es1 ++ es2))
  = snd (run P s es1) ++ snd (run P (fst (run P s es1)) es2).
Proof.
  revert s. induction es1 as [| e es1 IH]; intros s; [reflexivity |].
  rewrite <- app_comm_cons, !snd_run_cons, fst_run_cons, IH.
  apply app_assoc.
Qed.



Lemma snd_step_Open (s : State) : snd (step P s Open) = [].
Proof. reflexivity. Qed.

Lemma snd_step_Close (s : State) : snd (step P s Close) = [].
Proof. reflexivity. Qed.



End Runs.

(** *** The effects, from any state *)

Section EffectPasses.

Variable P : Props.

Lemma settle_flush (n : nat) (s : State) :
  settle P (S n) s = settle P n (flushEffects P s).
Proof.
  cbn [settle].
  destruct (pendingInit s || pendingMonthSync s || pendingDaySync s) eqn:E;
    [reflexivity |].
  assert (Q : settled s = true) by (unfold settled; rewrite E; reflexivity).
  rewrite (flushEffects_settled P s Q), (settle_of_settled P n s Q).
  reflexivity.
Qed.

Lemma monthSync_hidden (s : State) : visible s = false -> monthSync P s = None.
Proof. intros V. unfold monthSync. rewrite V. reflexivity. Qed.

Lemma daySync_hidden (s : State) : visible s = false -> daySync P s = None.
Proof. intros V. unfold daySync. rewrite V. reflexivity. Qed.

(** While the dialog is hidden one pass runs at most the cleanup of the
    initialisation effect. *)
Lemma flushEffects_hidden (s : State) :
  visible s = false ->
  visible (flushEffects P s) = false
  /\ selection (flushEffects P s) = selection s
  /\ settled (flushEffects P s) = true
  /\ yearColumnState (flushEffects P s) = yearColumnState s
  /\ monthColumnState (flushEffects P s) = monthColumnState s
  /\ dayColumnState (flushEffects P s) = dayColumnState s.
Proof.
  intros V. unfold flushEffects, initEffect. rewrite V.
  destruct (pendingInit s).
  - rewrite monthSync_hidden, daySync_hidden by exact V.
    destruct (pendingMonthSync s), (pendingDaySync s);
      unfold commit; cbn [clearPending setInitializing selection];
      rewrite selection_same_refl; repeat split; exact V.
  - rewrite monthSync_hidden, daySync_hidden by exact V.
    destruct (pendingMonthSync s), (pendingDaySync s);
      unfold commit; cbn [clearPending selection];
      rewrite selection_same_refl; repeat split; exact V.
Qed.

(** A pass never shows or hides the dialog and never touches a column's
    scroll state. *)
Lemma flushEffects_frame (s : State) :
  visible (flushEffects P s) = visible s
  /\ yearColumnState (flushEffects P s) = yearColumnState s
  /\ monthColumnState (flushEffects P s) = monthColumnState s
  /\ dayColumnState (flushEffects P s) = dayColumnState s.
Proof.
  unfold flushEffects.
  destruct (if pendingInit s then initEffect P s else (s, None))
    as [s1 seeded] eqn:E.
  assert (F : visible s1 = visible s
              /\ yearColumnState s1 = yearColumnState s
              /\ monthColumnState s1 = monthColumnState s
              /\ dayColumnState s1 = dayColumnState s).
  { destruct (pendingInit s); [| injection E as <- _; repeat split].
    unfold initEffect in E. destruct (visible s) eqn:V; injection E as <- _;
      cbn; repeat split; exact V. }
  destruct F as (F1 & F2 & F3 & F4).
  match goal with
  | |- context [commit P (clearPending s1) ?sel] =>
      destruct (commit_cases P (clearPending s1) sel) as [(-> & _) | (-> & _)]
  end; cbn; repeat split; assumption.
Qed.

Lemma settle_frame (n : nat) (s : State) :
  visible (settle P n s) = visible s
  /\ yearColumnState (settle P n s) = yearColumnState s
  /\ monthColumnState (settle P n s) = monthColumnState s
  /\ dayColumnState (settle P n s) = dayColumnState s.
Proof.
  revert s. induction n as [| n IH]; intros s; [repeat split |].
  rewrite settle_flush.
  destruct (IH (flushEffects P s)) as (A1 & A2 & A3 & A4).
  destruct (flushEffects_frame s) as (B1 & B2 & B3 & B4).
  repeat split; congruence.
Qed.

Lemma settle_columnState (n : nat) (s : State) (column : Column) :
  columnState (settle P n s) column = columnState s column.
Proof.
  destruct (settle_frame n s) as (_ & A & B & C).
  destruct column; assumption.
Qed.

(** While the initialisation flag is up and the initialisation effect is not
    waiting, a pass runs no setter. *)
Lemma flushEffects_flag_up (s : State) :
  isInitializing s = true -> pendingInit s = false ->
  flushEffects P s = clearPending s.
Proof.
  intros I Pi. unfold flushEffects. rewrite Pi.
  rewrite (monthSync_initializing P s I), (daySync_initializing P s I).
  destruct (pendingMonthSync s), (pendingDaySync s);
    unfold commit; cbn [clearPending selection];
    rewrite selection_same_refl; reflexivity.
Qed.

(** With a [minDate] passed by the caller, two passes settle any state. *)
Lemma flushEffects_twice_stable (s : State) :
  freshMinDate P = false ->
  settled (flushEffects P (flushEffects P s)) = true.
Proof.
  intros Fr. destruct (pendingInit s) eqn:Pi.
  - destruct (visible s) eqn:V.
    + destruct (flushEffects_init P s V Pi) as (Y & _).
      apply (flushEffects_seeding P _ Y).
    + destruct (flushEffects_hidden s V) as (_ & _ & Q & _).
      rewrite (flushEffects_settled P _ Q). exact Q.
  - destruct (flushEffects_fields P s Fr Pi)
      as (_ & _ & _ & _ & _ & Fpi & Fpm & _).
    destruct (flushEffects_fields P (flushEffects P s) Fr Fpi)
      as (_ & _ & _ & Fm & _ & Gpi & Gpm & Gpd).
    rewrite Fpm in Fm. apply settled_flags.
    split; [exact Gpi |]. split; [exact Gpm |].
    rewrite Gpd, Fm. apply negb_false_iff, js_same_refl.
Qed.

(** With a [minDate] that is new at every render, one pass either settles
    the state or leaves the initialisation effect waiting on a visible
    dialog. *)
Lemma flushEffects_fresh (s : State) :
  freshMinDate P = true ->
  settled (flushEffects P s) = true
  \/ (visible (flushEffects P s) = true
      /\ pendingInit (flushEffects P s) = true).
Proof.
  intros Fr. destruct (visible s) eqn:V.
  2:{ left. apply (flushEffects_hidden s V). }
  destruct (pendingInit s) eqn:Pi.
  - destruct (flushEffects_init P s V Pi) as ((V1 & _) & [Q | Q] & _);
      [left; exact Q | right; split; [exact V1 | rewrite Q; exact Fr]].
  - unfold flushEffects. rewrite Pi.
    match goal with
    | |- context [commit P (clearPending s) ?sel] =>
        destruct (commit_cases P (clearPending s) sel) as [(-> & _) | (-> & _)]
    end.
    + left. reflexivity.
    + right. cbn. rewrite V, Fr. split; [reflexivity | apply orb_true_r].
Qed.

Lemma flushEffects_thrice_fresh (s : State) :
  freshMinDate P = true ->
  settled (flushEffects P (flushEffects P (flushEffects P s))) = true.
Proof.
  intros Fr. destruct (flushEffects_fresh s Fr) as [Q | (V & Pi)].
  - rewrite !(flushEffects_settled P _ Q). exact Q.
  - destruct (flushEffects_init P _ V Pi) as (Y & _).
    apply (flushEffects_seeding P _ Y).
Qed.

(** X1.  Whatever the props and the state, the effects come to rest: after
    at most three passes (two when the caller passes [minDate]) no effect is
    waiting, and a further pass changes nothing. *)
Theorem effects_come_to_rest (s : State) :
  settled (settle P settleFuel s) = true
  /\ flushEffects P (settle P settleFuel s) = settle P settleFuel s
  /\ (freshMinDate P = false ->
      settle P settleFuel s = flushEffects P (flushEffects P s)).
Proof.
  assert (E : settle P settleFuel s
              = flushEffects P (flushEffects P (flushEffects P s))).
  { unfold settleFuel. rewrite !settle_flush. reflexivity. }
  assert (Q : settled (settle P settleFuel s) = true).
  { rewrite E. destruct (freshMinDate P) eqn:Fr.
    - apply flushEffects_thrice_fresh. exact Fr.
    - rewrite (flushEffects_settled P _ (flushEffects_twice_stable s Fr)).
      apply flushEffects_twice_stable. exact Fr. }
  split; [exact Q |]. split; [apply flushEffects_settled; exact Q |].
  intros Fr. rewrite E.
  apply flushEffects_settled, flushEffects_twice_stable. exact Fr.
Qed.

End EffectPasses.
(** *** Showing and hiding *)

Section Reopening.

Variable P : Props.

Lemma closeDialog_hidden (s : State) : visible (closeDialog P s) = false.
Proof. unfold closeDialog. destruct (visible s) eqn:V; [reflexivity | exact V]. Qed.

Lemma openDialog_hidden (s : State) :
  visible s = false ->
  visible (openDialog P s) = true /\ pendingInit (openDialog P s) = true.
Proof.
  intros V. unfold openDialog. rewrite V. cbn. rewrite V.
  split; [reflexivity |]. destruct (pendingInit s); reflexivity.
Qed.

(** X2.  Whatever is selected and whatever the state, once the dialog has
    been hidden and shown again and the effects of that render have run, the
    selection is the seed computed from [initialDate] and the bounds, the
    initialisation flag is up and the alignment timer is armed: a selection
    that was not confirmed is not kept across openings. *)
Theorem reopening_seeds_again (s : State) :
  seeding P (fst (run P s [Close; Open; Effects])).
Proof.
  rewrite !fst_run_cons. cbn [run fst].
  change (step P s Close) with (closeDialog P (settle P settleFuel s), @nil Output).
  cbn [fst].
  pose proof (closeDialog_hidden (settle P settleFuel s)) as V1.
  revert V1. generalize (closeDialog P (settle P settleFuel s)). intros s1 V1.
  change (step P s1 Open) with (openDialog P (settle P settleFuel s1), @nil Output).
  cbn [fst].
  destruct (settle_frame P settleFuel s1) as (V2 & _). rewrite V1 in V2.
  destruct (openDialog_hidden _ V2) as (V3 & Pi3).
  revert V3 Pi3. generalize (openDialog P (settle P settleFuel s1)).
  intros s3 V3 Pi3.
  change (step P s3 Effects) with (flushEffects P s3, @nil Output). cbn [fst].
  apply (flushEffects_init P s3 V3 Pi3).
Qed.

End Reopening.
(** *** Columns: the scroll state and the centre-index cells *)

Section Columns.

Variable P : Props.

Lemma column_eq_dec (a b : Column) : {a = b} + {a <> b}.
Proof. decide equality. Qed.

Lemma columnState_setColumnState (s : State) (c c' : Column)
  (x : PickerColumnState) :
  columnState (setColumnState s c x) c'
  = if column_eq_dec c c' then x else columnState s c'.
Proof.
  destruct (column_eq_dec c c') as [<- | N]; destruct c; try reflexivity;
    destruct c'; try reflexivity; contradiction.
Qed.

Lemma centerIndexState_setColumnState (s : State) (c c' : Column)
  (x : PickerColumnState) :
  centerIndexState (setColumnState s c x) c' = centerIndexState s c'.
Proof. destruct c, c'; reflexivity. Qed.

Lemma columnState_setCenterIndexState (s : State) (c c' : Column) (i : Z) :
  columnState (setCenterIndexState P s c i) c' = columnState s c'.
Proof.
  unfold setCenterIndexState. destruct (_ =? _); destruct c, c'; reflexivity.
Qed.

Lemma centerIndexState_setCenterIndexState (s : State) (c c' : Column) (i : Z) :
  centerIndexState (setCenterIndexState P s c i) c'
  = if column_eq_dec c c' then i else centerIndexState s c'.
Proof.
  unfold setCenterIndexState.
  destruct (centerIndexState s c =? i) eqn:E.
  - apply Z.eqb_eq in E.
    destruct (column_eq_dec c c') as [<- | N]; [exact E | reflexivity].
  - destruct (column_eq_dec c c') as [<- | N]; destruct c; try reflexivity;
      destruct c'; try reflexivity; contradiction.
Qed.

Lemma visible_setCenterIndexState (s : State) (c : Column) (i : Z) :
  visible (setCenterIndexState P s c i) = visible s.
Proof. unfold setCenterIndexState. destruct (_ =? _); reflexivity. Qed.

Lemma selection_setCenterIndexState (s : State) (c : Column) (i : Z) :
  selection (setCenterIndexState P s c i) = selection s.
Proof. unfold setCenterIndexState. destruct (_ =? _); reflexivity. Qed.

Lemma visible_setColumnState (s : State) (c : Column) (x : PickerColumnState) :
  visible (setColumnState s c x) = visible s.
Proof. destruct c; reflexivity. Qed.

Lemma selection_setColumnState (s : State) (c : Column) (x : PickerColumnState) :
  selection (setColumnState s c x) = selection s.
Proof. destruct c; reflexivity. Qed.

(** [commit] and [render] leave the columns and the cells alone. *)
Lemma columnState_commit (s : State) (sel : Selection) (c : Column) :
  columnState (commit P s sel) c = columnState s c.
Proof. unfold commit. destruct (selection_same _ _); destruct c; reflexivity. Qed.

Lemma centerIndexState_commit (s : State) (sel : Selection) (c : Column) :
  centerIndexState (commit P s sel) c = centerIndexState s c.
Proof. unfold commit. destruct (selection_same _ _); destruct c; reflexivity. Qed.

Lemma visible_commit (s : State) (sel : Selection) :
  visible (commit P s sel) = visible s.
Proof. unfold commit. destruct (selection_same _ _); reflexivity. Qed.

Lemma selection_commit (s : State) (sel : Selection) :
  selection (commit P s sel) = sel.
Proof.
  destruct (commit_cases P s sel) as [(-> & E) | (-> & _)];
    [symmetry; exact E | reflexivity].
Qed.

(** What [scrollToIndex] leaves of a visible dialog. *)
Lemma scrollToIndex_visible (closure : Selection) (column : Column)
  (index : Z) (animate : bool) (s : State) :
  visible s = true ->
  let j := clampIndex (columnValues P closure column) index in
  let s' := fst (scrollToIndex P closure column index animate s) in
  snd (scrollToIndex P closure column index animate s)
  = [ScrollTo column (scrollY j) animate]
  /\ columnState s' column
     = {| scrollStopTimer := scrollStopTimer (columnState s column);
          isAutoScrolling := true; centerIndex := j |}
  /\ centerIndexState s' column = j
  /\ (forall c, c <> column ->
        columnState s' c = columnState s c
        /\ centerIndexState s' c = centerIndexState s c)
  /\ visible s' = true /\ selection s' = selection s.
Proof.
  intros V. cbv zeta. unfold scrollToIndex. rewrite V. cbn [negb fst snd].
  split; [reflexivity |].
  rewrite columnState_setCenterIndexState, columnState_setColumnState.
  rewrite centerIndexState_setCenterIndexState.
  destruct (column_eq_dec column column) as [_ | N]; [| contradiction].
  split; [reflexivity |]. split; [reflexivity |].
  split.
  - intros c N.
    rewrite columnState_setCenterIndexState, columnState_setColumnState.
    rewrite centerIndexState_setCenterIndexState,
      centerIndexState_setColumnState.
    destruct (column_eq_dec column c) as [E | _];
      [symmetry in E; contradiction | split; reflexivity].
  - rewrite visible_setCenterIndexState, visible_setColumnState.
    rewrite selection_setCenterIndexState, selection_setColumnState.
    split; [exact V | reflexivity].
Qed.

Lemma scrollToIndex_hidden (closure : Selection) (column : Column)
  (index : Z) (animate : bool) (s : State) :
  visible s = false ->
  scrollToIndex P closure column index animate s = (s, []).
Proof. intros V. unfold scrollToIndex. rewrite V. reflexivity. Qed.

End Columns.

(** *** Arrays: [indexOf] *)

Section IndexOf.

Lemma indexOf_from_spec (values : list Z) (x i : Z) :
  (In x values ->
   i <= indexOf_from values x i < i + js_length values
   /\ nth_error values (Z.to_nat (indexOf_from values x i - i)) = Some x)
  /\ (~ In x values -> indexOf_from values x i = -1).
Proof.
  revert i. induction values as [| v rest IH]; intros i.
  - split; [intros [] | reflexivity].
  - cbn [indexOf_from]. unfold js_length. cbn [length].
    destruct (v =? x) eqn:E.
    + apply Z.eqb_eq in E. subst v. split; [| intros N; elim N; left; reflexivity].
      intros _. split; [lia |]. rewrite Z.sub_diag. reflexivity.
    + apply Z.eqb_neq in E. destruct (IH (i + 1)) as (A & B). split.
      * intros [Q | Q]; [contradiction |]. destruct (A Q) as (A1 & A2).
        unfold js_length in A1. split; [lia |].
        replace (Z.to_nat (indexOf_from rest x (i + 1) - i))
          with (S (Z.to_nat (indexOf_from rest x (i + 1) - (i + 1)))) by lia.
        exact A2.
      * intros N. apply B. intros Q. apply N. right. exact Q.
Qed.

(** [indexOf] finds an entry that [includes] says is there, and answers -1
    exactly when it is not. *)
Lemma indexOf_includes (values : list Z) (v : JSnum) :
  (includes values v = true ->
   0 <= indexOf values v < js_length values
   /\ js_index values (indexOf values v) = v)
  /\ (includes values v = false -> indexOf values v = -1).
Proof.
  destruct v as [x |]; [| split; [discriminate | reflexivity]].
  cbn [indexOf]. destruct (indexOf_from_spec values x 0) as (A & B). split.
  - intros I. apply includes_In in I. destruct (A I) as (A1 & A2).
    split; [lia |]. unfold js_index.
    destruct (indexOf_from values x 0 <? 0) eqn:L;
      [apply Z.ltb_lt in L; lia |].
    rewrite Z.sub_0_r in A2. exact A2.
  - intros I. apply B. intros Q. apply includes_In in Q. congruence.
Qed.

End IndexOf.
(** *** Alignment and scroll interpretation *)

Section Alignment.

Variable P : Props.

Lemma clampIndex_range (values : list Z) (index : Z) :
  0 <= clampIndex values index <= Z.max 0 (js_length values - 1)
  /\ (0 <= index < js_length values -> clampIndex values index = index)
  /\ (index < 0 -> clampIndex values index = 0)
  /\ (js_length values <= index ->
      clampIndex values index = Z.max 0 (js_length values - 1)).
Proof. unfold clampIndex, js_length. lia. Qed.

Lemma clampIndex_idem (values : list Z) (index : Z) :
  clampIndex values (clampIndex values index) = clampIndex values index.
Proof. unfold clampIndex, js_length. lia. Qed.


Lemma setCenterIndex_frame (s : State) (column : Column) (index : Z) :
  visible (setCenterIndex P s column index) = visible s
  /\ selection (setCenterIndex P s column index) = selection s.
Proof.
  unfold setCenterIndex.
  rewrite visible_setCenterIndexState, visible_setColumnState.
  rewrite selection_setCenterIndexState, selection_setColumnState.
  split; reflexivity.
Qed.

(** X4.  [alignColumnToSelection] on a visible dialog, run by a closure whose
    value for the column is an entry of the column's list: it issues exactly
    one scroll command, to 46 times the index of that entry, and the column's
    centre index and state cell become that index; the selection is not
    touched.  When the value is not in the list, or the dialog is hidden, it
    does nothing at all. *)
Theorem alignColumnToSelection_scrolls_to_selected (closure : Selection)
  (column : Column) (animate : bool) (s : State) :
  let values := columnValues P closure column in
  let v := columnSelected closure column in
  let r := alignColumnToSelection P closure column animate s in
  (visible s = true -> includes values v = true ->
   exists i,
     0 <= i < js_length values
     /\ js_index values i = v
     /\ snd r = [ScrollTo column (scrollY i) animate]
     /\ (scrollY i == inject_Z (ITEM_HEIGHT * i))%Q
     /\ centerIndex (columnState (fst r) column) = i
     /\ centerIndexState (fst r) column = i
     /\ isAutoScrolling (columnState (fst r) column) = true
     /\ selection (fst r) = selection s)
  /\ (visible s = false \/ includes values v = false -> r = (s, [])).
Proof.
  cbv zeta. unfold alignColumnToSelection.
  destruct (indexOf_includes (columnValues P closure column)
              (columnSelected closure column)) as (A & B).
  remember (indexOf (columnValues P closure column)
              (columnSelected closure column)) as i eqn:Ei.
  split.
  - intros V I. rewrite V. cbn [negb]. destruct (A I) as (R & J).
    destruct (i =? -1) eqn:E; [apply Z.eqb_eq in E; lia |].
    exists i.
    destruct (setCenterIndex_frame s column i) as (V1 & E1).
    rewrite <- V1 in V.
    destruct (scrollToIndex_visible P closure column i animate _ V)
      as (O & C & K & _ & _ & E2).
    rewrite (clampIndex_legal _ _ R) in O, C, K.
    split; [exact R |]. split; [exact J |]. split; [exact O |].
    split; [apply scrollY_linear; lia |].
    rewrite C. cbn [centerIndex isAutoScrolling].
    split; [reflexivity |]. split; [exact K |].
    split; [reflexivity | congruence].
  - intros [V | I]; [rewrite V; reflexivity |].
    rewrite (B I). destruct (negb (visible s)); reflexivity.
Qed.









End Alignment.
(** *** Scroll events and taps *)

Section Handlers.

Variable P : Props.

(** What [applySelectionFromIndex] leaves when its closure sees the year and
    the month that are selected: the column's cell is the entry at the index
    (brought into the list), except that the day is compared with the day
    the closure sees. *)
Lemma applySelection_year_month (closure cur : Selection) (column : Column)
  (index : Z) :
  selectedYear closure = selectedYear cur ->
  selectedMonth closure = selectedMonth cur ->
  column <> ColDay ->
  let values := columnValues P cur column in
  let sel' := applySelectionFromIndex P closure column index cur in
  columnSelected sel' column = js_index values (clampIndex values index)
  /\ (forall c, c <> column -> columnSelected sel' c = columnSelected cur c).
Proof.
  intros Ey Em N. cbv zeta. unfold applySelectionFromIndex.
  destruct column; [| | contradiction]; cbn [columnValues columnSelected];
    rewrite ?Ey, ?Em.
  - destruct (js_same _ (selectedYear cur)) eqn:E; cbn [negb].
    + apply js_same_eq in E. split; [symmetry; exact E |]. reflexivity.
    + split; [reflexivity |]. intros [] C; try reflexivity. contradiction.
  - destruct (js_same _ (selectedMonth cur)) eqn:E; cbn [negb].
    + apply js_same_eq in E. split; [symmetry; exact E |]. reflexivity.
    + split; [reflexivity |]. intros [] C; try reflexivity. contradiction.
Qed.

Lemma applySelection_current (sel : Selection) (column : Column) (index : Z) :
  let values := columnValues P sel column in
  let sel' := applySelectionFromIndex P sel column index sel in
  columnSelected sel' column = js_index values (clampIndex values index)
  /\ (forall c, c <> column -> columnSelected sel' c = columnSelected sel c).
Proof.
  destruct column;
    try (apply applySelection_year_month; [reflexivity | reflexivity | discriminate]).
  cbv zeta. unfold applySelectionFromIndex. cbn [columnValues columnSelected].
  destruct (js_same _ (selectedDay sel)) eqn:E; cbn [negb].
  - apply js_same_eq in E. split; [symmetry; exact E |]. reflexivity.
  - split; [reflexivity |]. intros [] C; try reflexivity. contradiction.
Qed.

Lemma indexOfOffset_nonneg (values : list Z) (y : Q) :
  0 <= indexOfOffset values y.
Proof. unfold indexOfOffset. apply clampIndex_range. Qed.

Lemma indexOfOffset_clamped (values : list Z) (y : Q) :
  clampIndex values (indexOfOffset values y) = indexOfOffset values y.
Proof. unfold indexOfOffset. apply clampIndex_idem. Qed.

Lemma columnState_setCenterIndex (s : State) (column : Column) (index : Z) :
  columnState (setCenterIndex P s column index) column
  = {| scrollStopTimer := scrollStopTimer (columnState s column);
       isAutoScrolling := isAutoScrolling (columnState s column);
       centerIndex := index |}.
Proof.
  unfold setCenterIndex.
  rewrite columnState_setCenterIndexState, columnState_setColumnState.
  destruct (column_eq_dec column column); [reflexivity | contradiction].
Qed.

(** X8.  A scroll event on a column that is not scrolling by itself.  When
    the offset stands for an index other than the column's centre index, the
    column's cell becomes the entry at that index (of the list built from
    the current selection; [undefined] if the list is empty) and the other
    two cells are left as they are; when it stands for the centre index,
    the selection is left as it is.  Either way that index is the centre
    index afterwards and the scroll-stop timer is armed with the current
    render's closure.  The momentum-end handler selects the same. *)
Theorem handleScroll_selects_entry (column : Column) (y : Q) (s : State) :
  isAutoScrolling (columnState s column) = false ->
  let values := columnValues P (selection s) column in
  let i := indexOfOffset values y in
  let s' := handleScroll P column y s in
  (centerIndex (columnState s column) <> i ->
   columnSelected (selection s') column = js_index values i
   /\ (forall c, c <> column ->
                 columnSelected (selection s') c = columnSelected (selection s) c))
  /\ (centerIndex (columnState s column) = i -> selection s' = selection s)
  /\ centerIndex (columnState s' column) = i
  /\ scrollStopTimer (columnState s' column) = Some (selection s)
  /\ selection (handleMomentumScrollEnd P column y s) = selection s'.
Proof.
  intros A. cbv zeta. unfold handleScroll, handleMomentumScrollEnd.
  rewrite A. cbv zeta. unfold armScrollStop.
  remember (indexOfOffset (columnValues P (selection s) column) y) as i eqn:Ei.
  rewrite !selection_setColumnState, !columnState_setColumnState.
  destruct (column_eq_dec column column) as [_ | N]; [| contradiction].
  cbn [centerIndex scrollStopTimer].
  destruct (centerIndex (columnState s column) =? i) eqn:E; cbn [negb].
  - apply Z.eqb_eq in E.
    replace (0 <? Z.abs (centerIndex (columnState s column) - i)) with false
      by (symmetry; apply Z.ltb_ge; lia).
    split; [intros N; contradiction |].
    split; [reflexivity |]. split; [exact E |]. split; reflexivity.
  - apply Z.eqb_neq in E.
    replace (0 <? Z.abs (centerIndex (columnState s column) - i)) with true
      by (symmetry; apply Z.ltb_lt; lia).
    rewrite !selection_commit, columnState_commit, columnState_setCenterIndex.
    cbn [centerIndex].
    destruct (applySelection_current (selection s) column i) as (C1 & C2).
    rewrite Ei, indexOfOffset_clamped, <- Ei in C1.
    split; [intros _; split; assumption |].
    split; [intros Q; contradiction |]. repeat split.
Qed.


Lemma handleScroll_column (column : Column) (y : Q) (s : State) :
  isAutoScrolling (columnState s column) = false ->
  let s' := handleScroll P column y s in
  columnState s' column
  = {| scrollStopTimer := Some (selection s);
       isAutoScrolling := false;
       centerIndex :=
         indexOfOffset (columnValues P (selection s) column) y |}
  /\ visible s' = visible s.
Proof.
  intros A. cbv zeta. unfold handleScroll. rewrite A. cbv zeta.
  unfold armScrollStop.
  rewrite columnState_setColumnState, visible_setColumnState.
  destruct (column_eq_dec column column) as [_ | N]; [| contradiction].
  destruct (centerIndex (columnState s column) =? _) eqn:E; cbn [negb].
  - apply Z.eqb_eq in E. rewrite A, E. split; reflexivity.
  - rewrite columnState_commit, columnState_setCenterIndex, visible_commit.
    cbn [isAutoScrolling centerIndex]. rewrite A.
    split; [reflexivity | apply setCenterIndex_frame].
Qed.

(** X16.  When the scroll-stop timer armed by a scroll event fires, with
    the column still not scrolling by itself, the column is scrolled, with
    animation, to the item the last offset stood for: it snaps to the
    nearest item of the list that event saw. *)
Theorem scroll_stop_snaps_to_nearest_item (column : Column) (y : Q) (s : State) :
  visible s = true ->
  isAutoScrolling (columnState s column) = false ->
  let values := columnValues P (selection s) column in
  let i := indexOfOffset values y in
  let r := step P (handleScroll P column y s) (ScrollStopTimer column) in
  snd r = [ScrollTo column (scrollY i) true]
  /\ (scrollY i == inject_Z (ITEM_HEIGHT * i))%Q
  /\ centerIndex (columnState (fst r) column) = i
  /\ isAutoScrolling (columnState (fst r) column) = true
  /\ scrollStopTimer (columnState (fst r) column) = None.
Proof.
  intros V A. cbv zeta.
  destruct (handleScroll_column column y s A) as (C1 & V1).
  revert C1 V1. generalize (handleScroll P column y s). intros s1 C1 V1.
  unfold step, scrollStopFired.
  rewrite settle_columnState, C1. cbn [scrollStopTimer isAutoScrolling centerIndex].
  unfold armScrollStop. rewrite settle_columnState, C1.
  cbn [isAutoScrolling centerIndex].
  destruct (settle_frame P settleFuel s1) as (V2 & _).
  match goal with
  | |- context [scrollToIndex P ?cl column ?i true ?st] =>
      assert (V3 : visible st = true)
        by (rewrite visible_setColumnState; congruence);
      destruct (scrollToIndex_visible P cl column i true st V3)
        as (O & C & _ & _ & _ & _);
      rewrite columnState_setColumnState in C
  end.
  destruct (column_eq_dec column column) as [_ | N]; [| contradiction].
  rewrite indexOfOffset_clamped in O, C.
  split; [exact O |].
  split; [apply scrollY_linear;
          apply (indexOfOffset_nonneg
                   (columnValues P (selection s) column) y) |].
  rewrite C. repeat split.
Qed.

Lemma columnValues_withDay (sel : Selection) (day : JSnum) (column : Column) :
  columnValues P (withDay sel day) column = columnValues P sel column.
Proof. destruct column; reflexivity. Qed.

(** What [handleItemPress] leaves of the tapped column on a visible
    dialog. *)
Lemma handleItemPress_column (column : Column) (index : Z) (s : State) :
  visible s = true ->
  let values := columnValues P (selection s) column in
  let j := clampIndex values index in
  let r := handleItemPress P column index s in
  snd r = [ScrollTo column (scrollY j) true]
  /\ columnState (fst r) column
     = {| scrollStopTimer := None; isAutoScrolling := true; centerIndex := j |}
  /\ selection (fst r)
     = applySelectionFromIndex P (withDay (selection s) (pressSelectedDay s))
         column j (selection s).
Proof.
  intros V. cbv zeta. unfold handleItemPress. cbv zeta.
  rewrite columnValues_withDay.
  match goal with
  | |- context [scrollToIndex P ?cl column ?i true ?st] =>
      assert (V3 : visible st = true)
        by (rewrite visible_commit, visible_setColumnState; exact V);
      destruct (scrollToIndex_visible P cl column i true st V3)
        as (O & C & _ & _ & _ & E);
      rewrite columnState_commit, columnState_setColumnState in C;
      rewrite selection_commit in E
  end.
  destruct (column_eq_dec column column) as [_ | N]; [| contradiction].
  rewrite columnValues_withDay, clampIndex_idem in O, C.
  cbn [scrollStopTimer] in C.
  split; [exact O |]. split; [exact C | exact E].
Qed.

(** X9.  A tap on an item of the year or of the month column of a visible
    dialog: the index is brought into the column's list, the column's cell
    becomes the entry there, the other two cells are left as they are, any
    armed scroll-stop timer of the column is dropped, and exactly one
    animated scroll to that item is issued. *)
Theorem handleItemPress_selects_entry (column : Column) (index : Z) (s : State) :
  visible s = true -> column <> ColDay ->
  let values := columnValues P (selection s) column in
  let j := clampIndex values index in
  let r := handleItemPress P column index s in
  columnSelected (selection (fst r)) column = js_index values j
  /\ (forall c, c <> column ->
                columnSelected (selection (fst r)) c
                = columnSelected (selection s) c)
  /\ snd r = [ScrollTo column (scrollY j) true]
  /\ (scrollY j == inject_Z (ITEM_HEIGHT * j))%Q
  /\ columnState (fst r) column
     = {| scrollStopTimer := None; isAutoScrolling := true; centerIndex := j |}.
Proof.
  intros V N. cbv zeta.
  destruct (handleItemPress_column column index s V) as (O & C & E).
  destruct (applySelection_year_month
              (withDay (selection s) (pressSelectedDay s)) (selection s)
              column (clampIndex (columnValues P (selection s) column) index)
              eq_refl eq_refl N) as (A1 & A2).
  rewrite clampIndex_idem in A1. rewrite E.
  split; [exact A1 |]. split; [exact A2 |]. split; [exact O |].
  split; [apply scrollY_linear; apply clampIndex_range | exact C].
Qed.

Lemma selection_scrollToIndex (closure : Selection) (column : Column)
  (index : Z) (animate : bool) (s : State) :
  selection (fst (scrollToIndex P closure column index animate s)) = selection s.
Proof. apply (scrollToIndex_core P closure column index animate s). Qed.

Lemma js_same_neq (a b : JSnum) : a <> b -> js_same a b = false.
Proof.
  intros N. destruct (js_same a b) eqn:E; [| reflexivity].
  apply js_same_eq in E. contradiction.
Qed.

(** X10.  A tap on an item of the day column compares the tapped day with
    the day seen by the memoised handler, not with the day that is selected:
    when they differ the tapped day becomes the selected day; when they are
    the same the selection is left as it is, whatever day is selected.  The
    handler is re-created, and the day it sees refreshed, only by a render
    in which the year or the month changed. *)
Theorem day_tap_compares_with_memoised_day (index : Z) (s : State) :
  let values := columnValues P (selection s) ColDay in
  let day := js_index values (clampIndex values index) in
  let s' := fst (handleItemPress P ColDay index s) in
  (day <> pressSelectedDay s -> selection s' = withDay (selection s) day)
  /\ (day = pressSelectedDay s -> selection s' = selection s)
  /\ (forall sel',
        selectedYear sel' = selectedYear (selection s) ->
        selectedMonth sel' = selectedMonth (selection s) ->
        pressSelectedDay (commit P s sel') = pressSelectedDay s)
  /\ (forall sel',
        selectedYear sel' <> selectedYear (selection s)
        \/ selectedMonth sel' <> selectedMonth (selection s) ->
        pressSelectedDay (commit P s sel') = selectedDay sel').
Proof.
  cbv zeta.
  assert (E : selection (fst (handleItemPress P ColDay index s))
              = applySelectionFromIndex P
                  (withDay (selection s) (pressSelectedDay s)) ColDay
                  (clampIndex (columnValues P (selection s) ColDay) index)
                  (selection s)).
  { unfold handleItemPress. cbv zeta. rewrite columnValues_withDay.
    rewrite selection_scrollToIndex, selection_commit. reflexivity. }
  rewrite E. unfold applySelectionFromIndex.
  rewrite columnValues_withDay, clampIndex_idem. cbv zeta.
  cbn [selectedDay withDay].
  split; [intros N; rewrite (js_same_neq _ _ N); reflexivity |].
  split; [intros Q; rewrite Q, js_same_refl; reflexivity |].
  split.
  - intros sel' Ey Em.
    destruct (commit_cases P s sel') as [(-> & _) | (-> & _)]; [reflexivity |].
    cbn [render pressSelectedDay]. rewrite Ey, Em, !js_same_refl. reflexivity.
  - intros sel' N.
    destruct (commit_cases P s sel') as [(-> & Q) | (-> & _)];
      [subst sel'; destruct N as [N | N]; elim N; reflexivity |].
    cbn [render pressSelectedDay].
    destruct N as [N | N]; rewrite (js_same_neq _ _ N); cbn [negb orb];
      [reflexivity | rewrite orb_true_r; reflexivity].
Qed.

End Handlers.
(** *** Opening *)

Section OpeningTrace.

Variable P : Props.










End OpeningTrace.

Section OpeningAlignment.

Variable P : Props.


End OpeningAlignment.
(** *** The initialisation flag *)

Section InitializationFlag.

Variable P : Props.

Lemma settled_clearPending (s : State) : settled (clearPending s) = true.
Proof. reflexivity. Qed.

(** X13.  The effects that a change schedules while the initialisation flag
    is up (the initialisation effect itself not waiting) find the flag and
    return: they leave the selection as it is, whatever it is, and they are
    spent.  When the 200 ms timer then lowers the flag, no effect is waiting,
    so a further run of the effects changes nothing: what was selected
    while the flag was up is never synchronised. *)
Theorem change_while_initializing_is_never_synchronised (s : State) :
  isInitializing s = true -> pendingInit s = false ->
  let s1 := settle P settleFuel s in
  let s2 := initDoneFired s1 in
  selection s1 = selection s /\ settled s1 = true
  /\ selection s2 = selection s /\ settled s2 = true
  /\ flushEffects P s2 = s2
  /\ (initDoneTimer s = true -> isInitializing s2 = false).
Proof.
  intros I Pi. cbv zeta.
  assert (E : settle P settleFuel s = clearPending s).
  { unfold settleFuel. rewrite settle_flush, (flushEffects_flag_up P s I Pi).
    apply settle_of_settled, settled_clearPending. }
  rewrite E. unfold initDoneFired. cbn [initDoneTimer clearPending].
  split; [reflexivity |]. split; [reflexivity |].
  destruct (initDoneTimer s).
  - split; [reflexivity |]. split; [reflexivity |].
    split; [apply flushEffects_settled; reflexivity |]. reflexivity.
  - split; [reflexivity |]. split; [reflexivity |].
    split; [apply flushEffects_settled; reflexivity |]. discriminate.
Qed.

End InitializationFlag.

(** *** A hidden dialog *)

Section Hidden.

Variable P : Props.

Lemma settle_hidden (n : nat) (s : State) :
  visible s = false ->
  visible (settle P n s) = false /\ selection (settle P n s) = selection s.
Proof.
  revert s. induction n as [| n IH]; intros s V; [split; [exact V | reflexivity] |].
  rewrite settle_flush.
  destruct (flushEffects_hidden P s V) as (V1 & E1 & _).
  destruct (IH _ V1) as (V2 & E2). split; congruence.
Qed.

Lemma alignToValue_hidden (seed : Selection) (column : Column) (s : State) :
  visible s = false -> alignToValue P seed column s = (s, []).
Proof. intros V. unfold alignToValue. rewrite V. reflexivity. Qed.

Lemma alignColumnToSelection_hidden (closure : Selection) (column : Column)
  (animate : bool) (s : State) :
  visible s = false -> alignColumnToSelection P closure column animate s = (s, []).
Proof. intros V. unfold alignColumnToSelection. rewrite V. reflexivity. Qed.

(** X15.  A timer that fires while the dialog is hidden does nothing that
    shows: the initialisation timers, a scroll-stop timer, a snap timer, an
    alignment timer and the timer that ends a programmatic scroll issue no
    scroll command, call no callback and leave the selection and the
    visibility as they are. *)
Theorem hidden_dialog_timers_do_nothing (s : State) (e : Event) :
  visible s = false -> isTimer e = true ->
  snd (step P s e) = []
  /\ selection (fst (step P s e)) = selection s
  /\ visible (fst (step P s e)) = false.
Proof.
  intros V T. destruct (settle_hidden settleFuel s V) as (V0 & E0).
  destruct e; try discriminate T; unfold step;
    revert V0 E0; generalize (settle P settleFuel s); intros x V0 E0.
  - unfold initTimerFired. destruct (initTimer x); [| repeat split; assumption].
    assert (V1 : visible (setInitializing x (isInitializing x) None true)
                 = false) by exact V0.
    unfold thread.
    rewrite (alignToValue_hidden _ ColYear _ V1),
      (alignToValue_hidden _ ColMonth _ V1),
      (alignToValue_hidden _ ColDay _ V1).
    repeat split; assumption.
  - cbn [fst snd]. unfold initDoneFired.
    destruct (initDoneTimer x); repeat split; assumption.
  - unfold scrollStopFired.
    destruct (scrollStopTimer (columnState x column));
      [| repeat split; assumption].
    unfold armScrollStop.
    destruct (isAutoScrolling (columnState x column)).
    + cbn [fst snd]. rewrite selection_setColumnState, visible_setColumnState.
      repeat split; assumption.
    + rewrite scrollToIndex_hidden
        by (rewrite visible_setColumnState; exact V0).
      cbn [fst snd]. rewrite selection_setColumnState, visible_setColumnState.
      repeat split; assumption.
  - destruct (isAutoScrolling _); [repeat split; assumption |].
    rewrite (scrollToIndex_hidden P _ _ _ _ _ V0). repeat split; assumption.
  - rewrite (alignColumnToSelection_hidden _ _ _ _ V0).
    repeat split; assumption.
  - cbn [fst snd]. rewrite selection_setColumnState, visible_setColumnState.
    repeat split; assumption.
Qed.

End Hidden.

(** *** Bounds in the wrong order *)

Section InvertedBounds.

Variable P : Props.

Lemma includes_nil (v : JSnum) : includes [] v = false.
Proof. destruct v; reflexivity. Qed.


End InvertedBounds.
(** *** What the synchronising effects do after a tap *)

Section SyncRules.

Variable P : Props.

(** The effects that a render schedules, when [minDate] is passed by the
    caller and none was waiting. *)
Lemma commit_flags (s : State) (sel' : Selection) :
  freshMinDate P = false -> settled s = true ->
  let yearChanged :=
    negb (js_same (selectedYear sel') (selectedYear (selection s))) in
  let monthChanged :=
    negb (js_same (selectedMonth sel') (selectedMonth (selection s))) in
  pendingInit (commit P s sel') = false
  /\ pendingMonthSync (commit P s sel') = yearChanged
  /\ pendingDaySync (commit P s sel') = yearChanged || monthChanged
  /\ isInitializing (commit P s sel') = isInitializing s.
Proof.
  intros Fr Q. cbv zeta. apply settled_flags in Q. destruct Q as (Q1 & Q2 & Q3).
  destruct (commit_cases P s sel') as [(-> & E) | (-> & _)].
  - subst sel'. rewrite !js_same_refl. cbn [negb orb]. repeat split; assumption.
  - cbn [render pendingInit pendingMonthSync pendingDaySync isInitializing].
    rewrite Q1, Q2, Q3, Fr, Bool.eqb_reflx. cbn [negb orb].
    rewrite !orb_false_r. repeat split.
Qed.

(** A tap on a visible dialog with no effect waiting. *)
Lemma handleItemPress_stable (column : Column) (index : Z) (s : State) :
  freshMinDate P = false -> settled s = true -> visible s = true ->
  let s1 := fst (handleItemPress P column index s) in
  let sel1 :=
    applySelectionFromIndex P (withDay (selection s) (pressSelectedDay s))
      column (clampIndex (columnValues P (selection s) column) index)
      (selection s) in
  visible s1 = true
  /\ isInitializing s1 = isInitializing s
  /\ selection s1 = sel1
  /\ pendingInit s1 = false
  /\ pendingMonthSync s1
     = negb (js_same (selectedYear sel1) (selectedYear (selection s)))
  /\ pendingDaySync s1
     = negb (js_same (selectedYear sel1) (selectedYear (selection s)))
       || negb (js_same (selectedMonth sel1) (selectedMonth (selection s))).
Proof.
  intros Fr Q V. cbv zeta.
  destruct (handleItemPress_column P column index s V) as (_ & _ & E).
  unfold handleItemPress in *. cbv zeta in *.
  rewrite columnValues_withDay in *.
  match goal with
  | |- context [scrollToIndex P ?cl column ?i true ?st] =>
      pose proof (scrollToIndex_core P cl column i true st) as C;
      destruct (sameCore_stable P _ _ Fr C) as (F1 & F2 & F3);
      destruct C as (C1 & _ & C3 & _)
  end.
  rewrite E, C1, C3, F1, F2, F3, visible_commit, visible_setColumnState.
  match goal with
  | |- context [commit P ?st ?sel] =>
      assert (Q0 : settled st = true)
        by (rewrite <- Q; destruct column; reflexivity);
      destruct (commit_flags st sel Fr Q0) as (G1 & G2 & G3 & G4)
  end.
  rewrite selection_setColumnState in G2, G3.
  rewrite G1, G2, G3, G4.
  split; [exact V |]. split; [destruct column; reflexivity |].
  repeat split.
Qed.

(** The day that the day-synchronising effect picks in a list that is a
    run, and the day it leaves. *)
Lemma nearestDay_run (lo hi d : Z) :
  lo <= hi ->
  nearestDay (interval lo hi) (Some d) = Some (if hi <? d then hi else lo).
Proof.
  intros L. unfold nearestDay. rewrite length_interval.
  replace (Z.max 0 (hi - lo + 1) - 1) with (hi - lo) by lia.
  rewrite !js_index_interval by lia.
  replace (lo + (hi - lo)) with hi by lia. rewrite Z.add_0_r.
  cbn [js_gtb js_ltb]. destruct (hi <? d); [reflexivity |].
  destruct (d <? lo); reflexivity.
Qed.

Lemma day_after_sync (lo hi d : Z) :
  lo <= hi ->
  (if negb (includes (interval lo hi) (Some d))
   then nearestDay (interval lo hi) (Some d)
   else Some d)
  = Some (Z.max lo (Z.min d hi)).
Proof.
  intros L. rewrite includes_interval, (nearestDay_run lo hi d L).
  destruct (lo <=? d) eqn:A; destruct (d <=? hi) eqn:B; cbn [andb negb];
    destruct (hi <? d) eqn:C; f_equal; lia.
Qed.

(** A visible dialog past its initialisation, with no effect waiting and a
    legal selection, as the hypotheses of the two rules below have it. *)
Lemma ready_selection (s : State) (y m d : Z) :
  minDate P <= effectiveMaxDate P ->
  selection s
  = {| selectedYear := Some y; selectedMonth := Some m;
       selectedDay := Some d |} ->
  legal P (selection s) = true ->
  getFullYear (minDate P) <= y <= getFullYear (effectiveMaxDate P)
  /\ includes (buildMonthList P (Some y)) (Some m) = true
  /\ includes (buildDayList P (Some y) (Some m)) (Some d) = true.
Proof.
  intros Hb E L. rewrite E in L. unfold legal in L.
  cbn [selectedYear selectedMonth selectedDay] in L.
  apply andb_true_iff in L. destruct L as (L & L3).
  apply andb_true_iff in L. destruct L as (L1 & L2).
  split; [apply includes_year; exact L1 |]. split; assumption.
Qed.

(** One run of the effects on a state whose year and month are legal and
    whose month effect is not waiting: the day is brought into the day list
    and nothing is left waiting. *)
Lemma day_rule (s : State) (y m d : Z) :
  minDate P <= effectiveMaxDate P -> getFullYear (minDate P) <> 0 ->
  freshMinDate P = false ->
  visible s = true -> isInitializing s = false -> pendingInit s = false ->
  pendingMonthSync s = false ->
  selection s
  = {| selectedYear := Some y; selectedMonth := Some m;
       selectedDay := Some d |} ->
  getFullYear (minDate P) <= y <= getFullYear (effectiveMaxDate P) ->
  includes (buildMonthList P (Some y)) (Some m) = true ->
  (pendingDaySync s = false ->
   includes (buildDayList P (Some y) (Some m)) (Some d) = true) ->
  exists lo hi,
    buildDayList P (Some y) (Some m) = interval lo hi /\ lo <= hi
    /\ selection (settle P settleFuel s)
       = {| selectedYear := Some y; selectedMonth := Some m;
            selectedDay := Some (Z.max lo (Z.min d hi)) |}
    /\ settled (settle P settleFuel s) = true.
Proof.
  intros Hb Hz Fr V I Pi Pm E Ry Im Id.
  destruct (days_of_month P Hb Hz y m Ry Im) as (lo & hi & Ed & (_ & Lh) & _).
  exists lo, hi. split; [exact Ed |]. split; [exact Lh |].
  destruct (flushEffects_fields P s Fr Pi)
    as (_ & _ & Fy & Fm & Fd & Fpi & Fpm & Fpd).
  rewrite Pm in Fm. rewrite Fm in Fpd. rewrite js_same_refl in Fpd.
  assert (Q : settled (flushEffects P s) = true)
    by (apply settled_flags; repeat split; assumption).
  unfold settleFuel. rewrite settle_flush, (settle_of_settled P _ _ Q).
  split; [| exact Q].
  apply selection_ext; rewrite ?Fy, ?Fm, ?Fd, E;
    cbn [selectedYear selectedMonth selectedDay]; try reflexivity.
  destruct (pendingDaySync s) eqn:Pd.
  - rewrite daySync_nearestDay, V, I, E. cbn [negb].
    cbv zeta. cbn [selectedYear selectedMonth selectedDay]. rewrite Ed.
    pose proof (day_after_sync lo hi d Lh) as R.
    destruct (negb (includes (interval lo hi) (Some d))); exact R.
  - pose proof (Id eq_refl) as J. rewrite Ed, includes_interval in J.
    apply andb_true_iff in J. destruct J as (J1 & J2).
    f_equal. lia.
Qed.

(** X11.  With valid bounds and [minDate] passed by the caller, on a visible
    dialog past its initialisation, with no effect waiting and a legal
    selection: after a tap on an item of the month column and the effects it
    schedules, the year is unchanged, the month is the tapped one, and the
    day is the old day brought into the day list of the new month: kept when
    it is in the list, the list's last day when it is beyond it, its first
    day when it is before it.  No effect is left waiting. *)
Theorem month_change_clamps_day (s : State) (index y m d : Z) :
  minDate P <= effectiveMaxDate P -> getFullYear (minDate P) <> 0 ->
  freshMinDate P = false ->
  visible s = true -> isInitializing s = false -> settled s = true ->
  selection s
  = {| selectedYear := Some y; selectedMonth := Some m;
       selectedDay := Some d |} ->
  legal P (selection s) = true ->
  let s' := settle P settleFuel (fst (handleItemPress P ColMonth index s)) in
  exists m' lo hi,
    js_index (buildMonthList P (Some y))
      (clampIndex (buildMonthList P (Some y)) index) = Some m'
    /\ buildDayList P (Some y) (Some m') = interval lo hi /\ lo <= hi
    /\ selection s'
       = {| selectedYear := Some y; selectedMonth := Some m';
            selectedDay := Some (Z.max lo (Z.min d hi)) |}
    /\ settled s' = true.
Proof.
  intros Hb Hz Fr V I Q E L. cbv zeta.
  destruct (ready_selection s y m d Hb E L) as (Ry & Im & Id).
  destruct (handleItemPress_stable ColMonth index s Fr Q V)
    as (V1 & I1 & E1 & Pi1 & Pm1 & Pd1).
  destruct (applySelection_year_month P
              (withDay (selection s) (pressSelectedDay s)) (selection s)
              ColMonth
              (clampIndex (columnValues P (selection s) ColMonth) index)
              eq_refl eq_refl ltac:(discriminate)) as (A1 & A2).
  rewrite clampIndex_idem in A1.
  pose proof (A2 ColYear ltac:(discriminate)) as Ay.
  pose proof (A2 ColDay ltac:(discriminate)) as Ad.
  rewrite <- E1 in A1, Ay, Ad, Pm1, Pd1.
  cbn [columnSelected columnValues] in A1, Ay, Ad.
  rewrite E in A1, Ay, Ad, Pm1, Pd1.
  cbn [selectedYear selectedMonth selectedDay] in A1, Ay, Ad, Pm1, Pd1.
  assert (Ne : buildMonthList P (Some y) <> [])
    by (intros N; rewrite N in Im; discriminate Im).
  destruct (js_index_clampIndex P (buildMonthList P (Some y)) index Ne)
    as (m' & Jm & Inm).
  rewrite Jm in A1. rewrite Ay, js_same_refl in Pm1, Pd1.
  cbn [negb orb] in Pm1, Pd1. rewrite A1 in Pd1. cbn [js_same] in Pd1.
  assert (E1' : selection (fst (handleItemPress P ColMonth index s))
                = {| selectedYear := Some y; selectedMonth := Some m';
                     selectedDay := Some d |})
    by (apply selection_ext; assumption).
  assert (Im' : includes (buildMonthList P (Some y)) (Some m') = true)
    by (apply includes_In; exact Inm).
  assert (I1' : isInitializing (fst (handleItemPress P ColMonth index s))
                = false) by congruence.
  destruct (day_rule _ y m' d Hb Hz Fr V1 I1' Pi1 Pm1 E1' Ry Im')
    as (lo & hi & Ed & Lh & Es & Qs).
  { intros Pd. rewrite Pd1 in Pd. apply negb_false_iff, Z.eqb_eq in Pd.
    subst m'. exact Id. }
  exists m', lo, hi. repeat split; assumption.
Qed.

(** X12.  With the same hypotheses: after a tap on an item of the year
    column and the effects it schedules, the year is the tapped one; the
    month is kept when it is a month of that year's list and is otherwise
    the first month of the list, never another; when the month is kept, the
    day is the old day brought into the day list of the new year and the
    month.  No effect is left waiting. *)
Theorem year_change_keeps_or_resets_month (s : State) (index y m d : Z) :
  minDate P <= effectiveMaxDate P -> getFullYear (minDate P) <> 0 ->
  freshMinDate P = false ->
  visible s = true -> isInitializing s = false -> settled s = true ->
  selection s
  = {| selectedYear := Some y; selectedMonth := Some m;
       selectedDay := Some d |} ->
  legal P (selection s) = true ->
  let s' := settle P settleFuel (fst (handleItemPress P ColYear index s)) in
  exists y' lo hi,
    js_index (buildYearList P) (clampIndex (buildYearList P) index) = Some y'
    /\ buildMonthList P (Some y') = interval lo hi /\ lo <= hi
    /\ selectedYear (selection s') = Some y'
    /\ selectedMonth (selection s')
       = Some (if (lo <=? m) && (m <=? hi) then m else lo)
    /\ (lo <= m <= hi ->
        exists dlo dhi,
          buildDayList P (Some y') (Some m) = interval dlo dhi /\ dlo <= dhi
          /\ selectedDay (selection s') = Some (Z.max dlo (Z.min d dhi)))
    /\ settled s' = true.
Proof.
  intros Hb Hz Fr V I Q E L. cbv zeta.
  destruct (ready_selection s y m d Hb E L) as (Ry & Im & Id).
  destruct (handleItemPress_stable ColYear index s Fr Q V)
    as (V1 & I1 & E1 & Pi1 & Pm1 & Pd1).
  destruct (applySelection_year_month P
              (withDay (selection s) (pressSelectedDay s)) (selection s)
              ColYear
              (clampIndex (columnValues P (selection s) ColYear) index)
              eq_refl eq_refl ltac:(discriminate)) as (A1 & A2).
  rewrite clampIndex_idem in A1.
  pose proof (A2 ColMonth ltac:(discriminate)) as Am.
  pose proof (A2 ColDay ltac:(discriminate)) as Ad.
  rewrite <- E1 in A1, Am, Ad, Pm1, Pd1.
  cbn [columnSelected columnValues] in A1, Am, Ad.
  rewrite E in Am, Ad, Pm1, Pd1.
  cbn [selectedYear selectedMonth selectedDay] in A1, Am, Ad, Pm1, Pd1.
  assert (Ne : buildYearList P <> []).
  { intros N. pose proof (proj2 (includes_year P y) Ry) as J.
    rewrite N in J. discriminate J. }
  destruct (js_index_clampIndex P (buildYearList P) index Ne)
    as (y' & Jy & Iny).
  rewrite Jy in A1. rewrite Am, js_same_refl in Pd1.
  cbn [negb orb] in Pd1. rewrite orb_false_r in Pd1.
  rewrite A1 in Pm1, Pd1. cbn [js_same] in Pm1, Pd1.
  assert (Ry' : getFullYear (minDate P) <= y'
                <= getFullYear (effectiveMaxDate P)).
  { rewrite buildYearList_interval in Iny. apply In_interval in Iny.
    exact Iny. }
  destruct (months_of_year P Hb y' Ry') as (lo & hi & Em & (_ & Lh) & _).
  assert (I1' : isInitializing (fst (handleItemPress P ColYear index s))
                = false) by congruence.
  revert V1 I1' A1 Am Ad Pi1 Pm1 Pd1.
  generalize (fst (handleItemPress P ColYear index s)).
  intros s1 V1 I1' A1 Am Ad Pi1 Pm1 Pd1.
  assert (E1' : selection s1
                = {| selectedYear := Some y'; selectedMonth := Some m;
                     selectedDay := Some d |})
    by (apply selection_ext; assumption).
  exists y', lo, hi. split; [exact Jy |]. split; [exact Em |].
  split; [exact Lh |].
  destruct (y' =? y) eqn:Yc; cbn [negb] in Pm1, Pd1.
  - (* the tapped year is the selected one: nothing is scheduled *)
    apply Z.eqb_eq in Yc. subst y'.
    assert (Q1 : settled s1 = true)
      by (apply settled_flags; repeat split; assumption).
    rewrite (settle_of_settled P _ _ Q1), E1'.
    cbn [selectedYear selectedMonth selectedDay].
    rewrite Em, includes_interval in Im. rewrite Im.
    split; [reflexivity |]. split; [reflexivity |]. split; [| exact Q1].
    intros _.
    destruct (days_of_month P Hb Hz y m Ry' ltac:(rewrite Em, includes_interval; exact Im))
      as (dlo & dhi & Ed & (_ & Dh) & _).
    exists dlo, dhi. split; [exact Ed |]. split; [exact Dh |].
    rewrite Ed, includes_interval in Id.
    apply andb_true_iff in Id. destruct Id as (J1 & J2). f_equal. lia.
  - (* both effects are scheduled *)
    destruct (flushEffects_fields P s1 Fr Pi1)
      as (Fv & Fi & Fy & Fm & Fd & Fpi & Fpm & Fpd).
    rewrite Pm1 in Fm. rewrite Pd1 in Fd.
    assert (Fm' : selectedMonth (selection (flushEffects P s1))
                  = Some (if (lo <=? m) && (m <=? hi) then m else lo)).
    { rewrite Fm. unfold monthSync. rewrite V1, I1', E1'. cbn [negb].
      cbv zeta. cbn [selectedYear selectedMonth]. rewrite Em.
      rewrite includes_interval.
      destruct ((lo <=? m) && (m <=? hi)); cbn [negb]; [reflexivity |].
      rewrite js_index_interval by lia. f_equal. lia. }
    destruct (flushEffects_fields P (flushEffects P s1) Fr Fpi)
      as (Gv & Gi & Gy & Gm & Gd & Gpi & Gpm & Gpd).
    rewrite Fpm in Gm.
    assert (Q2 : settled (flushEffects P (flushEffects P s1)) = true).
    { apply settled_flags. repeat split; try assumption.
      rewrite Gpd, Gm. apply negb_false_iff, js_same_refl. }
    assert (Es : settle P settleFuel s1
                 = flushEffects P (flushEffects P s1)).
    { unfold settleFuel. rewrite !settle_flush. cbn [settle].
      apply flushEffects_settled. exact Q2. }
    rewrite Es, Gy, Fy, Gm, Fm', E1'. cbn [selectedYear].
    split; [reflexivity |]. split; [reflexivity |]. split; [| exact Q2].
    intros Rm.
    assert (Im' : includes (buildMonthList P (Some y')) (Some m) = true).
    { rewrite Em, includes_interval. apply andb_true_iff.
      split; [apply Z.leb_le | apply Z.leb_le]; lia. }
    destruct (days_of_month P Hb Hz y' m Ry' Im')
      as (dlo & dhi & Ed & (_ & Dh) & _).
    exists dlo, dhi. split; [exact Ed |]. split; [exact Dh |].
    (* the month is kept, so the second run has nothing to do *)
    assert (Km : selectedMonth (selection (flushEffects P s1)) = Some m).
    { rewrite Fm'. replace ((lo <=? m) && (m <=? hi)) with true; [reflexivity |].
      symmetry. apply andb_true_iff. split; apply Z.leb_le; lia. }
    rewrite Km, E1' in Fpd. cbn [selectedMonth js_same] in Fpd.
    rewrite Z.eqb_refl in Fpd. cbn [negb] in Fpd.
    rewrite Gd, Fpd, Fd.
    rewrite daySync_nearestDay, V1, I1', E1'. cbn [negb]. cbv zeta.
    cbn [selectedYear selectedMonth selectedDay]. rewrite Ed.
    pose proof (day_after_sync dlo dhi d Dh) as R.
    destruct (negb (includes (interval dlo dhi) (Some d))); exact R.
Qed.

End SyncRules.
(** *** The lists and the range *)

Section Offered.

Variable P : Props.

(** X18.  With [minDate] not after [effectiveMaxDate] (and not in year 0),
    the three lists offer the dates of the range and no other: a selection
    whose year, month and day are entries of their lists is a calendar date
    between [minDate] and [effectiveMaxDate], and every such date, of a year
    other than 0, has its year in the year list, its month in that year's
    month list and its day in that month's day list. *)
Theorem lists_offer_exactly_the_range (sel : Selection) :
  minDate P <= effectiveMaxDate P -> getFullYear (minDate P) <> 0 ->
  (legal P sel = true -> selection_in_range P sel)
  /\ (selection_in_range P sel -> selectedYear sel <> Some 0 ->
      legal P sel = true).
Proof.
  intros Hb Hz. split; [apply legal_in_range; assumption |].
  intros (y & m & d & -> & Lo & Hi & Rm & Rd) Ny.
  cbn [selectedYear] in Ny.
  assert (Ny' : y <> 0) by (intros ->; apply Ny; reflexivity).
  unfold legal. cbn [selectedYear selectedMonth selectedDay].
  unfold ymd_le in Lo, Hi.
  assert (Ry : getFullYear (minDate P) <= y <= getFullYear (effectiveMaxDate P))
    by lia.
  rewrite (proj2 (includes_year P y) Ry).
  rewrite buildMonthList_interval, (buildDayList_interval P y m Rm).
  rewrite (JSDateFacts.daysInMonth_MakeFullYear y m Ny').
  replace (getFullYear (effectiveMaxDate P) <? y) with false
    by (symmetry; apply Z.ltb_ge; lia).
  cbn [orb andb].
  replace ((y =? getFullYear (effectiveMaxDate P))
           && (getMonth (effectiveMaxDate P) + 1 <? m)) with false.
  2:{ symmetry. apply andb_false_iff.
      destruct (Z.eqb_spec y (getFullYear (effectiveMaxDate P)));
        [right; apply Z.ltb_ge; lia | left; reflexivity]. }
  rewrite !includes_interval.
  destruct (Z.eqb_spec y (getFullYear (minDate P))),
    (Z.eqb_spec y (getFullYear (effectiveMaxDate P))),
    (Z.eqb_spec m (getMonth (minDate P) + 1)),
    (Z.eqb_spec m (getMonth (effectiveMaxDate P) + 1));
    cbn [andb];
    repeat (apply andb_true_iff; split); apply Z.leb_le; lia.
Qed.

End Offered.

(** *** The centre-index cells *)

Section Cells.

Variable P : Props.

Lemma cells_set_both (s : State) (column : Column) (k : Z) (c : PickerColumnState) :
  centerIndex c = k -> cellsAgree s ->
  cellsAgree (setCenterIndexState P (setColumnState s column c) column k).
Proof.
  intros E A c'.
  rewrite centerIndexState_setCenterIndexState, centerIndexState_setColumnState.
  rewrite columnState_setCenterIndexState, columnState_setColumnState.
  destruct (column_eq_dec column c'); [symmetry; exact E | apply A].
Qed.

Lemma cells_keep (s : State) (column : Column) (c : PickerColumnState) :
  centerIndex c = centerIndex (columnState s column) -> cellsAgree s ->
  cellsAgree (setColumnState s column c).
Proof.
  intros E A c'.
  rewrite centerIndexState_setColumnState, columnState_setColumnState.
  destruct (column_eq_dec column c') as [<- | _];
    [rewrite E; apply A | apply A].
Qed.

Lemma cells_commit (s : State) (sel : Selection) :
  cellsAgree s -> cellsAgree (commit P s sel).
Proof.
  intros A c. rewrite centerIndexState_commit, columnState_commit. apply A.
Qed.

Lemma cells_ext (s s' : State) :
  (forall c, centerIndexState s' c = centerIndexState s c) ->
  (forall c, columnState s' c = columnState s c) ->
  cellsAgree s -> cellsAgree s'.
Proof. intros H1 H2 A c. rewrite H1, H2. apply A. Qed.

Lemma cells_scrollToIndex (closure : Selection) (column : Column) (index : Z)
  (animate : bool) (s : State) :
  cellsAgree s ->
  cellsAgree (fst (scrollToIndex P closure column index animate s)).
Proof.
  intros A. unfold scrollToIndex. destruct (negb (visible s)); [exact A |].
  cbn [fst]. apply cells_set_both; [reflexivity | exact A].
Qed.

Lemma cells_setCenterIndex (s : State) (column : Column) (index : Z) :
  cellsAgree s -> cellsAgree (setCenterIndex P s column index).
Proof. intros A. apply cells_set_both; [reflexivity | exact A]. Qed.

Lemma cells_alignColumnToSelection (closure : Selection) (column : Column)
  (animate : bool) (s : State) :
  cellsAgree s ->
  cellsAgree (fst (alignColumnToSelection P closure column animate s)).
Proof.
  intros A. unfold alignColumnToSelection.
  destruct (negb (visible s)); [exact A |].
  destruct (_ =? -1); [exact A |].
  apply cells_scrollToIndex, cells_setCenterIndex, A.
Qed.

Lemma cells_alignToValue (seed : Selection) (column : Column) (s : State) :
  cellsAgree s -> cellsAgree (fst (alignToValue P seed column s)).
Proof.
  intros A. unfold alignToValue. destruct (negb (visible s)); [exact A |].
  destruct (_ =? -1); [exact A |].
  cbn [fst]. apply cells_set_both; [reflexivity | exact A].
Qed.

Lemma cells_thread (f g : State -> State * list Output) (s : State) :
  (forall x, cellsAgree x -> cellsAgree (fst (f x))) ->
  (forall x, cellsAgree x -> cellsAgree (fst (g x))) ->
  cellsAgree s -> cellsAgree (fst (thread f g s)).
Proof.
  intros Hf Hg A. unfold thread.
  pose proof (Hf s A) as B. destruct (f s) as [s1 o1]. cbn [fst] in B.
  pose proof (Hg s1 B) as C. destruct (g s1) as [s2 o2]. exact C.
Qed.

Lemma centerIndexState_flushEffects (s : State) (c : Column) :
  centerIndexState (flushEffects P s) c = centerIndexState s c.
Proof.
  unfold flushEffects.
  destruct (if pendingInit s then initEffect P s else (s, None))
    as [s1 seeded] eqn:E.
  assert (F : centerIndexState s1 c = centerIndexState s c).
  { destruct (pendingInit s); [| injection E as <- _; reflexivity].
    unfold initEffect in E. destruct (visible s); injection E as <- _;
      destruct c; reflexivity. }
  rewrite centerIndexState_commit, <- F. destruct c; reflexivity.
Qed.

Lemma cells_flushEffects (s : State) :
  cellsAgree s -> cellsAgree (flushEffects P s).
Proof.
  intros A c. rewrite centerIndexState_flushEffects.
  destruct (flushEffects_frame P s) as (_ & Y & M & D).
  destruct c; cbn [columnState]; rewrite ?Y, ?M, ?D;
    [exact (A ColYear) | exact (A ColMonth) | exact (A ColDay)].
Qed.

Lemma cells_settle (n : nat) (s : State) :
  cellsAgree s -> cellsAgree (settle P n s).
Proof.
  revert s. induction n as [| n IH]; intros s A; [exact A |].
  rewrite settle_flush. apply IH, cells_flushEffects, A.
Qed.

Lemma cells_render (s : State) (vis : bool) (sel : Selection) :
  cellsAgree s -> cellsAgree (render P s vis sel).
Proof. intros A c. exact (A c). Qed.

Lemma cells_setInitializing (s : State) (b : bool) (t : option Selection)
  (done : bool) :
  cellsAgree s -> cellsAgree (setInitializing s b t done).
Proof. intros A c. exact (A c). Qed.

Lemma cells_step (s : State) (e : Event) :
  cellsAgree s -> cellsAgree (fst (step P s e)).
Proof.
  intros A0. pose proof (cells_settle settleFuel s A0) as A.
  destruct e; unfold step;
    try (cbn [fst]; apply cells_flushEffects; exact A0);
    revert A; generalize (settle P settleFuel s); intros x A.
  - cbn [fst]. unfold openDialog. destruct (visible x);
      [exact A | apply cells_render, A].
  - cbn [fst]. unfold closeDialog. destruct (visible x);
      [apply cells_render, A | exact A].
  - unfold initTimerFired. destruct (initTimer x); [| exact A].
    apply cells_thread; [intros y; apply cells_alignToValue | |
                         apply cells_setInitializing, A].
    intros y. apply cells_thread; intros z; apply cells_alignToValue.
  - cbn [fst]. unfold initDoneFired. destruct (initDoneTimer x);
      [apply cells_setInitializing, A | exact A].
  - destruct (visible x); [| exact A]. cbn [fst]. unfold handleScroll.
    destruct (isAutoScrolling _); [exact A |]. cbv zeta.
    unfold armScrollStop. apply cells_keep; [reflexivity |].
    destruct (negb _); [| exact A].
    apply cells_commit, cells_setCenterIndex, A.
  - destruct (visible x); [| exact A]. cbn [fst].
    unfold handleMomentumScrollEnd.
    destruct (isAutoScrolling _); [exact A |]. cbv zeta.
    destruct (0 <? _); [| exact A].
    apply cells_commit, cells_setCenterIndex, A.
  - destruct (visible x); [| exact A]. unfold handleItemPress. cbv zeta.
    apply cells_scrollToIndex, cells_commit, cells_keep; [reflexivity | exact A].
  - unfold scrollStopFired.
    destruct (scrollStopTimer (columnState x column)); [| exact A].
    unfold armScrollStop.
    destruct (isAutoScrolling (columnState x column)).
    + cbn [fst]. apply cells_keep; [reflexivity | exact A].
    + apply cells_scrollToIndex, cells_keep; [reflexivity | exact A].
  - destruct (isAutoScrolling _); [exact A | apply cells_scrollToIndex, A].
  - apply cells_alignColumnToSelection, A.
  - cbn [fst]. apply cells_keep; [reflexivity | exact A].
  - destruct (visible x); exact A.
  - destruct (visible x); exact A.
  - destruct (visible x); exact A.
  - destruct (visible x); exact A.
Qed.

(** X17.  In every state the component reaches from mounting, whatever the
    events, the state cell that copies a column's centre index for rendering
    holds the same index as the column's ref: the item that is drawn as the
    centred one is the one the scroll logic takes as the centre. *)
Theorem center_cells_follow_the_refs (es : list Event) (column : Column) :
  centerIndexState (fst (run P (mount P) es)) column
  = centerIndex (columnState (fst (run P (mount P) es)) column).
Proof.
  assert (H : forall l s, cellsAgree s -> cellsAgree (fst (run P s l))).
  { induction l as [| e l IH]; intros s A; [exact A |].
    rewrite fst_run_cons. apply IH, cells_step, A. }
  apply (H es (mount P)). intros c. destruct c; reflexivity.
Qed.

End Cells.
(** ** Confirm, cancel, dismiss *)

Section Controller.

Variable P : Props.

Lemma step_press_settled (s : State) :
  visible s = true -> settled s = true ->
  snd (step P s PressConfirm) = handleConfirm P s
  /\ snd (step P s PressCancel) = handleCancel P
  /\ snd (step P s OverlayPress) = handleCancel P
  /\ snd (step P s RequestClose) = handleCancel P.
Proof.
  intros V S. unfold step.
  rewrite (settle_of_settled P settleFuel s S), V. repeat split.
Qed.

(** *** The scroll helpers call no callback *)

Lemma callbacks_app (a b : list Output) :
  callbacks (a ++ b) = callbacks a ++ callbacks b.
Proof. apply filter_app. Qed.

Lemma scrollToIndex_callbacks (closure : Selection) (column : Column)
  (index : Z) (animate : bool) (s : State) :
  callbacks (snd (scrollToIndex P closure column index animate s)) = [].
Proof. unfold scrollToIndex. destruct (negb (visible s)); reflexivity. Qed.

Lemma alignColumnToSelection_callbacks (closure : Selection) (column : Column)
  (animate : bool) (s : State) :
  callbacks (snd (alignColumnToSelection P closure column animate s)) = [].
Proof.
  unfold alignColumnToSelection. destruct (negb (visible s)); [reflexivity |].
  destruct (_ =? -1); [reflexivity | apply scrollToIndex_callbacks].
Qed.

Lemma alignToValue_callbacks (seed : Selection) (column : Column) (s : State) :
  callbacks (snd (alignToValue P seed column s)) = [].
Proof.
  unfold alignToValue. destruct (negb (visible s)); [reflexivity |].
  destruct (_ =? -1); reflexivity.
Qed.

Lemma thread_callbacks (f g : State -> State * list Output) (s : State) :
  (forall x, callbacks (snd (f x)) = []) ->
  (forall x, callbacks (snd (g x)) = []) ->
  callbacks (snd (thread f g s)) = [].
Proof.
  intros Hf Hg. unfold thread.
  pose proof (Hf s) as A. destruct (f s) as [s1 o1].
  pose proof (Hg s1) as B. destruct (g s1) as [s2 o2].
  cbn [snd] in *. rewrite callbacks_app, A, B. reflexivity.
Qed.

Lemma initTimerFired_callbacks (s : State) :
  callbacks (snd (initTimerFired P s)) = [].
Proof.
  unfold initTimerFired. destruct (initTimer s) as [seed |]; [| reflexivity].
  apply thread_callbacks; [intros x; apply alignToValue_callbacks |].
  intros x. apply thread_callbacks; intros x0; apply alignToValue_callbacks.
Qed.

Lemma scrollStopFired_callbacks (column : Column) (s : State) :
  callbacks (snd (scrollStopFired P column s)) = [].
Proof.
  unfold scrollStopFired.
  destruct (scrollStopTimer (columnState s column)); [| reflexivity].
  destruct (isAutoScrolling (columnState s column));
    [reflexivity | apply scrollToIndex_callbacks].
Qed.

Lemma handleItemPress_callbacks (column : Column) (index : Z) (s : State) :
  callbacks (snd (handleItemPress P column index s)) = [].
Proof. unfold handleItemPress. apply scrollToIndex_callbacks. Qed.

(** *** One event *)

(** The callbacks of one event: a pair for a press that reaches a visible
    dialog, nothing otherwise. *)
Lemma step_callbacks (s : State) (e : Event) :
  onConfirm P = true -> onCancel P = true -> onDismiss P = true ->
  callbacks (snd (step P s e))
  = if isPress e && visible s
    then [match e with
          | PressConfirm =>
              CallConfirm (confirmDate (selection (settle P settleFuel s)))
          | _ => CallCancel
          end; CallDismiss]
    else [].
Proof.
  intros C1 C2 C3.
  destruct (settle_frame P settleFuel s) as (V & _).
  destruct e; cbn [isPress andb]; unfold step; rewrite ?V;
    try reflexivity;
    try apply initTimerFired_callbacks;
    try apply scrollStopFired_callbacks;
    try apply alignColumnToSelection_callbacks;
    try (destruct (visible s); [apply handleItemPress_callbacks | reflexivity]);
    try (destruct (visible s); reflexivity);
    try (destruct (isAutoScrolling _);
         [reflexivity | apply scrollToIndex_callbacks]).
  - destruct (visible s); [| reflexivity].
    unfold handleConfirm, handleDismiss, invoke. rewrite C1, C3. reflexivity.
  - destruct (visible s); [| reflexivity].
    unfold handleCancel, handleDismiss, invoke. rewrite C2, C3. reflexivity.
  - destruct (visible s); [| reflexivity].
    unfold handleCancel, handleDismiss, invoke. rewrite C2, C3. reflexivity.
  - destruct (visible s); [| reflexivity].
    unfold handleCancel, handleDismiss, invoke. rewrite C2, C3. reflexivity.
Qed.

(** No event of a visibility cycle shows or hides the dialog. *)
Lemma step_visible (s : State) (e : Event) :
  withinCycle e = true -> visible (fst (step P s e)) = visible s.
Proof.
  intros W. destruct (settle_frame P settleFuel s) as (V & _).
  destruct e; try discriminate W; unfold step; rewrite ?V.
  - rewrite <- V. apply (initTimerFired_core P (settle P settleFuel s)).
  - cbn [fst]. unfold initDoneFired.
    destruct (initDoneTimer _); [cbn; exact V | exact V].
  - apply (flushEffects_frame P s).
  - destruct (visible s) eqn:Vs; [| exact V]. cbn [fst].
    unfold handleScroll. destruct (isAutoScrolling _); [exact V |].
    cbv zeta. unfold armScrollStop. rewrite visible_setColumnState.
    destruct (negb _); [| exact V].
    rewrite visible_commit. unfold setCenterIndex.
    rewrite visible_setCenterIndexState, visible_setColumnState. exact V.
  - destruct (visible s) eqn:Vs; [| exact V]. cbn [fst].
    unfold handleMomentumScrollEnd. destruct (isAutoScrolling _); [exact V |].
    cbv zeta. destruct (0 <? _); [| exact V].
    rewrite visible_commit. unfold setCenterIndex.
    rewrite visible_setCenterIndexState, visible_setColumnState. exact V.
  - destruct (visible s) eqn:Vs; [| exact V].
    unfold handleItemPress. cbv zeta.
    match goal with
    | |- visible (fst (scrollToIndex P ?cl ?c ?i ?a ?st)) = _ =>
        destruct (scrollToIndex_core P cl c i a st) as (Q & _); rewrite Q
    end.
    rewrite visible_commit, visible_setColumnState. exact V.
  - rewrite <- V. apply (scrollStopFired_core P column (settle P settleFuel s)).
  - destruct (isAutoScrolling _); [exact V |]. rewrite <- V.
    apply (scrollToIndex_core P closure column index true
             (settle P settleFuel s)).
  - rewrite <- V.
    apply (alignColumnToSelection_core P closure column animate
             (settle P settleFuel s)).
  - cbn [fst]. rewrite visible_setColumnState. exact V.
  - destruct (visible s); exact V.
  - destruct (visible s); exact V.
  - destruct (visible s); exact V.
  - destruct (visible s); exact V.
Qed.

(** *** Any sequence of events *)

Lemma closingPairs_app (a b : list Output) :
  closingPairs a = true -> closingPairs b = true ->
  closingPairs (a ++ b) = true.
Proof.
  revert b.
  assert (H : forall n a, (length a <= n)%nat -> forall b,
                closingPairs a = true -> closingPairs b = true ->
                closingPairs (a ++ b) = true).
  { induction n as [| n IH]; intros a0 L b A B.
    - destruct a0; [exact B | cbn in L; lia].
    - destruct a0 as [| o1 [| o2 rest]]; [exact B | | ].
      + destruct o1; discriminate A.
      + destruct o1; try discriminate A; destruct o2; try discriminate A;
          cbn [closingPairs app] in *; apply IH; try assumption;
          cbn [length] in L; lia. }
  intros b. apply (H (length a) a (le_n _)).
Qed.

Lemma run_closingPairs (es : list Event) (s : State) :
  onConfirm P = true -> onCancel P = true -> onDismiss P = true ->
  closingPairs (callbacks (snd (run P s es))) = true.
Proof.
  intros C1 C2 C3. revert s. induction es as [| e es IH]; intros s;
    [reflexivity |].
  rewrite snd_run_cons, callbacks_app. apply closingPairs_app; [| apply IH].
  rewrite (step_callbacks s e C1 C2 C3).
  destruct (isPress e && visible s); [| reflexivity].
  destruct e; reflexivity.
Qed.

Lemma filter_callbacks (f : Output -> bool) (os : list Output) :
  (forall c y a, f (ScrollTo c y a) = false) ->
  filter f os = filter f (callbacks os).
Proof.
  intros H. induction os as [| o os IH]; [reflexivity |].
  destruct o; cbn [callbacks filter isCallback]; fold (callbacks os);
    rewrite ?IH, ?H; reflexivity.
Qed.

(** While the dialog is visible, each press of a cycle adds one [onDismiss]
    and one [onConfirm] or [onCancel]; no other event adds any. *)
Lemma run_counts (es : list Event) (s : State) :
  onConfirm P = true -> onCancel P = true -> onDismiss P = true ->
  visible s = true -> forallb withinCycle es = true ->
  length (filter isDismiss (snd (run P s es))) = length (filter isPress es)
  /\ length (filter isConfirmOrCancel (snd (run P s es)))
     = length (filter isPress es)
  /\ visible (fst (run P s es)) = true.
Proof.
  intros C1 C2 C3. revert s. induction es as [| e es IH]; intros s V W;
    [repeat split; exact V |].
  cbn [forallb] in W. apply andb_true_iff in W. destruct W as (We & W).
  assert (V1 : visible (fst (step P s e)) = true)
    by (rewrite (step_visible s e We); exact V).
  destruct (IH _ V1 W) as (A & B & C).
  rewrite snd_run_cons, fst_run_cons, !filter_app, !length_app, A, B.
  rewrite (filter_callbacks isDismiss (snd (step P s e))) by reflexivity.
  rewrite (filter_callbacks isConfirmOrCancel (snd (step P s e)))
    by reflexivity.
  rewrite (step_callbacks s e C1 C2 C3), V, andb_true_r.
  cbn [filter]. destruct (isPress e) eqn:E.
  - destruct e; try discriminate E; repeat split; try reflexivity; exact C.
  - repeat split; try reflexivity; exact C.
Qed.

(** C9, as the code has it.  With the three callbacks passed.  On a visible
    dialog with no effect waiting, a press on confirm, when the selection is
    a calendar date of a year outside 0..99, calls [onConfirm] once with that
    date at midnight and then [onDismiss] once, and never [onCancel]; a press
    on cancel, on the overlay or on the hardware back button calls
    [onCancel] once and then [onDismiss] once, and never [onConfirm].  Over
    any sequence of events the callbacks come in such pairs only.  In a
    visibility cycle, from the parent showing the dialog to the parent
    hiding it, [onDismiss] is called once for each press, as is one of
    [onConfirm] and [onCancel]: not at all when the parent hides the dialog
    without a press, and again at every further press when the parent
    leaves it visible. *)
Theorem confirm_then_dismiss :
  onConfirm P = true -> onCancel P = true -> onDismiss P = true ->
  (forall (s : State) (y m d : Z),
     visible s = true -> settled s = true ->
     selection s
     = {| selectedYear := Some y; selectedMonth := Some m;
          selectedDay := Some d |} ->
     ~ (0 <= y <= 99) -> 1 <= m <= 12 -> 1 <= d <= daysInMonth y m ->
     (exists date,
        snd (step P s PressConfirm) = [CallConfirm (Some date); CallDismiss]
        /\ getFullYear date = y /\ getMonth date + 1 = m /\ getDate date = d
        /\ TimeWithinDay date = 0)
     /\ snd (step P s PressCancel) = [CallCancel; CallDismiss]
     /\ snd (step P s OverlayPress) = [CallCancel; CallDismiss]
     /\ snd (step P s RequestClose) = [CallCancel; CallDismiss])
  /\ (forall (s : State) (es : list Event),
        closingPairs (callbacks (snd (run P s es))) = true)
  /\ (forall (s : State) (es : list Event),
        visible s = false -> forallb withinCycle es = true ->
        length (filter isDismiss (snd (run P s (Open :: es ++ [Close]))))
        = length (filter isPress es)
        /\ length (filter isConfirmOrCancel
                     (snd (run P s (Open :: es ++ [Close]))))
           = length (filter isPress es)).
Proof.
  intros C1 C2 C3. split; [| split].
  - intros s y m d V S E Hy Hm Hd.
    destruct (step_press_settled s V S) as (-> & -> & -> & ->).
    unfold handleConfirm, handleCancel, handleDismiss, invoke, confirmDate.
    rewrite C1, C2, C3, E. cbn [selectedYear selectedMonth selectedDay app].
    split; [| repeat split].
    exists (newDate y (m - 1) d). split; [reflexivity |].
    apply JSDateFacts.newDate_fields; assumption.
  - intros s es. apply run_closingPairs; assumption.
  - intros s es V W.
    assert (V1 : visible (fst (step P s Open)) = true).
    { unfold step. cbn [fst].
      destruct (settle_frame P settleFuel s) as (V0 & _). rewrite V in V0.
      apply (openDialog_hidden P _ V0). }
    destruct (run_counts es _ C1 C2 C3 V1 W) as (A & B & _).
    rewrite snd_run_cons, snd_run_app, snd_run_cons, snd_step_Open,
      snd_step_Close.
    rewrite !filter_app, !length_app, A, B. cbn. lia.
Qed.

End Controller.
(** ** The spec's scenarios, and inputs on which the code departs from it *)

Section Scenarios.

Ltac conjuncts := repeat match goal with |- _ /\ _ => split end.

(** C1.  On the code, a year change can drop a day that stays legal.  Clock
    at 2024-06-15, selection 2023-09-20, the user taps year 2024.  The render
    holds 2024-09-20; the month effect moves the month to 1, the first legal
    month; the day effect, run in the same pass on the stale month 9, finds
    the day list of 2024-09 empty and sets the day to [undefined], which the
    next pass turns into 1, although 20 is a day of 2024-01. *)
Lemma year_change_drops_legal_day :
  let P := scenarioProps (Some (newDate 2023 8 20)) in
  let s0 := fst (run P (mount P) opening) in
  let s1 := fst (step P s0 (ItemPress ColYear 79)) in
  selection s0
  = {| selectedYear := Some 2023; selectedMonth := Some 9;
       selectedDay := Some 20 |}
  /\ selection s1
     = {| selectedYear := Some 2024; selectedMonth := Some 9;
          selectedDay := Some 20 |}
  /\ selection (flushEffects P s1)
     = {| selectedYear := Some 2024; selectedMonth := Some 1;
          selectedDay := None |}
  /\ selection (settle P settleFuel s1)
     = {| selectedYear := Some 2024; selectedMonth := Some 1;
          selectedDay := Some 1 |}
  /\ includes (buildDayList P (Some 2024) (Some 1)) (Some 20) = true.
Proof. cbv zeta. conjuncts; vm_compute; reflexivity. Qed.

(** With [minDate] left out, every render builds a new [minDate] object and
    the initialisation effect runs again after it, restoring the seed.  Clock
    at 2024-06-15, selection 2023-09-20, the user taps year 2022: the render
    holds 2022-09-20, the effects put 2023-09-20 back, and confirm reports
    it. *)
Lemma default_minDate_restores_seed :
  let P := defaultProps (Some (newDate 2023 8 20)) in
  let s0 := fst (run P (mount P) opening) in
  let s1 := fst (step P s0 (ItemPress ColYear 77)) in
  selection s0
  = {| selectedYear := Some 2023; selectedMonth := Some 9;
       selectedDay := Some 20 |}
  /\ selection s1
     = {| selectedYear := Some 2022; selectedMonth := Some 9;
          selectedDay := Some 20 |}
  /\ pendingInit s1 = true
  /\ selection (settle P settleFuel s1) = selection s0
  /\ snd (step P s1 PressConfirm)
     = [CallConfirm (Some (newDate 2023 8 20)); CallDismiss].
Proof. cbv zeta. conjuncts; vm_compute; reflexivity. Qed.

(** C10.  On the code, the day effect indexes an empty list under valid
    bounds.  Same clock and selection; the year column is scrolled to 2024.
    The day effect is scheduled, its list (that of 2024-09) is empty, 20 is
    not in it, and the effect reads entries -1 and 0 of it: it sets the day
    to the [undefined] it read. *)
Lemma daySync_reads_empty_list :
  let P := scenarioProps (Some (newDate 2023 8 20)) in
  let s :=
    fst (run P (mount P)
           (opening ++ [AutoScrollEnd ColYear; Scroll ColYear (scrollY 79)])) in
  minDate P <= effectiveMaxDate P
  /\ isInitializing s = false
  /\ pendingDaySync s = true
  /\ buildDayList P (selectedYear (selection s)) (selectedMonth (selection s))
     = []
  /\ js_index [] (js_length [] - 1) = None
  /\ js_index [] 0 = None
  /\ daySync P s = Some None.
Proof.
  cbv zeta. conjuncts; try (vm_compute; reflexivity).
  vm_compute. discriminate.
Qed.

(** Between a change and the effects the rendered state can hold a date that
    the calendar lacks: clock at 2024-06-15, selection 2024-02-29, the user
    taps year 2023; the state that is rendered holds 2023-02-29, which the
    effects then repair. *)
Lemma selection_out_of_range_before_effects :
  let P := scenarioProps (Some (newDate 2024 1 29)) in
  let s := fst (run P (mount P) (opening ++ [ItemPress ColYear 78])) in
  minDate P <= effectiveMaxDate P
  /\ reachable P s
  /\ visible s = true
  /\ selection s
     = {| selectedYear := Some 2023; selectedMonth := Some 2;
          selectedDay := Some 29 |}
  /\ ~ selection_in_range P (selection s).
Proof.
  cbv zeta.
  assert (E : selection
                (fst (run (scenarioProps (Some (newDate 2024 1 29)))
                        (mount (scenarioProps (Some (newDate 2024 1 29))))
                        (opening ++ [ItemPress ColYear 78])))
              = {| selectedYear := Some 2023; selectedMonth := Some 2;
                   selectedDay := Some 29 |})
    by (vm_compute; reflexivity).
  split; [vm_compute; discriminate |].
  split; [eexists; reflexivity |].
  split; [vm_compute; reflexivity |].
  split; [exact E |].
  rewrite E. intros (y & m & d & Q & _ & _ & _ & Hd).
  injection Q as <- <- <-. vm_compute in Hd. destruct Hd as [_ Hd].
  apply Hd. reflexivity.
Qed.

(** C2.  On the code, a change made while initialisation is under way is
    never repaired, and the selection stays outside the bounds.  Valid
    bounds, clock at 2024-06-15 (so [effectiveMaxDate] is 2024-06-15), the
    dialog opens on 2023-09-20 and the user taps year 2024 before the
    initialisation timers fire.  The effects scheduled by that change find
    [isInitializing] raised and return, and nothing schedules them again:
    after the timers the dialog is visible, the flag is down, no effect is
    waiting, a further run of the effects changes nothing, and 2024-09-20,
    a date after [effectiveMaxDate], is selected; confirm reports it. *)
Lemma tap_while_initializing_is_not_repaired :
  let P := scenarioProps (Some (newDate 2023 8 20)) in
  let s :=
    fst (run P (mount P)
           [Open; Effects; ItemPress ColYear 79; InitTimer; InitDone]) in
  minDate P <= effectiveMaxDate P
  /\ reachable P s
  /\ visible s = true /\ isInitializing s = false /\ settled s = true
  /\ flushEffects P s = s
  /\ selection s
     = {| selectedYear := Some 2024; selectedMonth := Some 9;
          selectedDay := Some 20 |}
  /\ ~ selection_in_range P (selection s)
  /\ selectionOfDate (effectiveMaxDate P)
     = {| selectedYear := Some 2024; selectedMonth := Some 6;
          selectedDay := Some 15 |}
  /\ snd (step P s PressConfirm)
     = [CallConfirm (Some (newDate 2024 8 20)); CallDismiss].
Proof.
  cbv zeta.
  assert (E : selection
                (fst (run (scenarioProps (Some (newDate 2023 8 20)))
                        (mount (scenarioProps (Some (newDate 2023 8 20))))
                        [Open; Effects; ItemPress ColYear 79; InitTimer;
                         InitDone]))
              = {| selectedYear := Some 2024; selectedMonth := Some 9;
                   selectedDay := Some 20 |})
    by (vm_compute; reflexivity).
  split; [vm_compute; discriminate |].
  split; [eexists; reflexivity |].
  split; [vm_compute; reflexivity |].
  split; [vm_compute; reflexivity |].
  split; [vm_compute; reflexivity |].
  split; [vm_compute; reflexivity |].
  split; [exact E |].
  split.
  - rewrite E. intros (y & m & d & Q & _ & Hmax & _).
    injection Q as <- <- <-. vm_compute in Hmax.
    destruct Hmax as [Hmax | (_ & [Hmax | (Hmax & _)])]; discriminate Hmax.
  - split; vm_compute; reflexivity.
Qed.

Lemma selection_in_range_once_settled_witness :
  let P := scenarioProps (Some (newDate 2024 1 29)) in
  minDate P <= effectiveMaxDate P
  /\ getFullYear (minDate P) <> 0
  /\ forallb withinCycle [ItemPress ColYear 78] = true
  /\ selection_in_range P
       (selection
          (settle P settleFuel
             (fst (run P (mount P) (opening ++ [ItemPress ColYear 78]))))).
Proof.
  cbv zeta.
  assert (H1 : minDate (scenarioProps (Some (newDate 2024 1 29)))
               <= effectiveMaxDate (scenarioProps (Some (newDate 2024 1 29))))
    by (vm_compute; discriminate).
  assert (H2 : getFullYear (minDate (scenarioProps (Some (newDate 2024 1 29))))
               <> 0) by (vm_compute; discriminate).
  assert (H3 : forallb withinCycle [ItemPress ColYear 78] = true)
    by reflexivity.
  split; [exact H1 |]. split; [exact H2 |]. split; [exact H3 |].
  exact (proj2 (proj2 (selection_in_range_once_settled _ H1 H2 _ H3))).
Defined.

(** C3 fails on the code in year 0: with a range that starts in year -1,
    February of year 0 (a leap year) is a month of the range, away from both
    bounds, and its day list has 28 days, the constructor having read the
    year as 1900. *)
Lemma buildDayList_year_zero :
  let P := ancientProps (newDate (-1) 0 1) None in
  includes (buildYearList P) (Some 0) = true
  /\ includes (buildMonthList P (Some 0)) (Some 2) = true
  /\ isLeapYear 0 = true
  /\ daysInMonth 0 2 = 29
  /\ js_length (buildDayList P (Some 0) (Some 2)) = 28.
Proof. cbv zeta. conjuncts; vm_compute; reflexivity. Qed.

Lemma buildDayList_calendar_witness :
  let P := scenarioProps None in
  2024 <> 0 /\ 1 <= 2 <= 12
  /\ buildDayList P (Some 2024) (Some 2) = interval 1 (daysInMonth 2024 2)
  /\ js_length (buildDayList P (Some 2024) (Some 2)) = 29.
Proof.
  cbv zeta.
  assert (H1 : 2024 <> 0) by discriminate.
  assert (H2 : 1 <= 2 <= 12) by lia.
  split; [exact H1 |]. split; [exact H2 |].
  destruct (proj1 (proj2 (buildDayList_calendar (scenarioProps None) 2024 2
                            H1 H2))) as (A & B).
  - unfold ym_lt. vm_compute. right. split; reflexivity.
  - vm_compute. intros [C _]. discriminate C.
  - split; [exact A | rewrite B; reflexivity].
Defined.

Lemma buildMonthList_contiguous_witness :
  let P := scenarioProps None in
  In 2024 (buildYearList P)
  /\ buildMonthList P (Some 2024) = interval 1 6
  /\ buildMonthList P (Some 2000) = [1; 2; 3; 4; 5; 6; 7; 8; 9; 10; 11; 12]
  /\ buildMonthList P (Some 2025) = [].
Proof.
  cbv zeta.
  assert (H1 : In 2024 (buildYearList (scenarioProps None)))
    by (apply includes_In; vm_compute; reflexivity).
  split; [exact H1 |].
  destruct (buildMonthList_contiguous (scenarioProps None) 2024) as (A & _).
  destruct (buildMonthList_contiguous (scenarioProps None) 2000) as (_ & B & _).
  destruct (buildMonthList_contiguous (scenarioProps None) 2025) as (_ & _ & C).
  split; [rewrite (A H1); vm_compute; reflexivity |].
  split; [apply B; vm_compute; split; reflexivity |].
  apply C. vm_compute. reflexivity.
Defined.

Lemma effectiveMaxDate_witness :
  let P := scenarioProps None in
  maxDate P = Some (newDate 2025 11 31)
  /\ today P < newDate 2025 11 31
  /\ effectiveMaxDate P = today P
  /\ selectionOfDate (effectiveMaxDate P)
     = {| selectedYear := Some 2024; selectedMonth := Some 6;
          selectedDay := Some 15 |}.
Proof.
  cbv zeta.
  assert (H1 : maxDate (scenarioProps None) = Some (newDate 2025 11 31))
    by reflexivity.
  assert (H2 : today (scenarioProps None) < newDate 2025 11 31)
    by (vm_compute; reflexivity).
  split; [exact H1 |]. split; [exact H2 |].
  split;
    [exact (proj1 (proj2 (effectiveMaxDate_min_of_maxDate_and_today
                            (scenarioProps None))) _ H1 H2) |].
  vm_compute. reflexivity.
Defined.

(** C7 fails on the code when [minDate] is the leap day of year 0: an
    [initialDate] before it seeds the first of February, not [minDate], the
    day list of that February holding no day. *)
Lemma seedSelection_leap_day_of_year_zero :
  let P := ancientProps (midnightOf 0 1 29) (Some (midnightOf 0 0 15)) in
  minDate P <= effectiveMaxDate P
  /\ dateToUse P < minDate P
  /\ selectionOfDate (minDate P)
     = {| selectedYear := Some 0; selectedMonth := Some 2;
          selectedDay := Some 29 |}
  /\ buildDayList P (Some 0) (Some 2) = []
  /\ seedSelection P
     = {| selectedYear := Some 0; selectedMonth := Some 2;
          selectedDay := Some 1 |}.
Proof.
  cbv zeta. conjuncts; try (vm_compute; reflexivity); vm_compute; discriminate.
Qed.

Lemma seedSelection_clamps_initialDate_witness :
  let late := scenarioProps (Some (newDate 2024 5 20)) in
  let early := scenarioProps (Some (newDate 1944 4 1)) in
  minDate late <= effectiveMaxDate late
  /\ getFullYear (minDate late) <> 0
  /\ seedSelection late
     = {| selectedYear := Some 2024; selectedMonth := Some 6;
          selectedDay := Some 15 |}
  /\ seedSelection early
     = {| selectedYear := Some 1945; selectedMonth := Some 1;
          selectedDay := Some 1 |}.
Proof.
  cbv zeta.
  assert (H1 : minDate (scenarioProps (Some (newDate 2024 5 20)))
               <= effectiveMaxDate (scenarioProps (Some (newDate 2024 5 20))))
    by (vm_compute; discriminate).
  assert (H2 : getFullYear (minDate (scenarioProps (Some (newDate 2024 5 20))))
               <> 0) by (vm_compute; discriminate).
  split; [exact H1 |]. split; [exact H2 |]. split.
  - rewrite (proj1 (seedSelection_clamps_initialDate _ H1 H2));
      vm_compute; reflexivity.
  - rewrite (proj1 (proj2 (seedSelection_clamps_initialDate
                             (scenarioProps (Some (newDate 1944 4 1)))
                             H1 H2)));
      vm_compute; reflexivity.
Defined.

Lemma index_offset_round_trip_witness :
  let P := scenarioProps None in
  let s := fst (run P (mount P) opening) in
  visible s = true
  /\ 0 <= 79 < js_length (columnValues P (selection s) ColYear)
  /\ exists y,
       snd (scrollToIndex P (selection s) ColYear 79 true s)
       = [ScrollTo ColYear y true]
       /\ (y == Qmax 0 ((inject_Z 79 - 2) * 46 + 2 * 46))%Q
       /\ indexOfOffset (columnValues P (selection s) ColYear) y = 79.
Proof.
  cbv zeta.
  assert (H1 : visible (fst (run (scenarioProps None)
                               (mount (scenarioProps None)) opening)) = true)
    by (vm_compute; reflexivity).
  assert (H2 : 0 <= 79
               < js_length
                   (columnValues (scenarioProps None)
                      (selection (fst (run (scenarioProps None)
                                         (mount (scenarioProps None)) opening)))
                      ColYear))
    by (vm_compute; split; [discriminate | reflexivity]).
  split; [exact H1 |]. split; [exact H2 |].
  exact (index_offset_round_trip (scenarioProps None) _ ColYear 79 true H1 H2).
Defined.

(** C9 fails on the code in two ways.  For a year from 0 to 99: with the
    selection 50-03-10, confirm reports a date of 1950.  And [onDismiss] is
    not called once per visibility cycle: in a cycle that the parent ends
    by hiding the dialog no callback is called at all, and in a cycle with
    three presses, the parent leaving the dialog visible, [onDismiss] is
    called three times. *)
Lemma confirm_two_digit_year_and_dismiss_count :
  let P := ancientProps (midnightOf 50 0 1) (Some (midnightOf 50 2 10)) in
  let s := fst (run P (mount P) opening) in
  let Q := scenarioProps (Some (newDate 2023 1 28)) in
  selection s
  = {| selectedYear := Some 50; selectedMonth := Some 3;
       selectedDay := Some 10 |}
  /\ (exists date,
        snd (step P s PressConfirm) = [CallConfirm (Some date); CallDismiss]
        /\ getFullYear date = 1950)
  /\ callbacks (snd (run Q (mount Q) (opening ++ [Close]))) = []
  /\ callbacks
       (snd (run Q (mount Q)
               (opening ++ [PressConfirm; PressConfirm; PressCancel; Close])))
     = [CallConfirm (Some (newDate 2023 1 28)); CallDismiss;
        CallConfirm (Some (newDate 2023 1 28)); CallDismiss;
        CallCancel; CallDismiss].
Proof.
  cbv zeta. split; [vm_compute; reflexivity |].
  split; [exists (newDate 50 2 10); split; vm_compute; reflexivity |].
  split; vm_compute; reflexivity.
Qed.

Lemma confirm_then_dismiss_witness :
  let P := scenarioProps (Some (newDate 2023 1 28)) in
  let s := fst (run P (mount P) opening) in
  let cycle := [Effects; InitTimer; InitDone; PressConfirm] in
  onConfirm P = true /\ onCancel P = true /\ onDismiss P = true
  /\ visible s = true /\ settled s = true
  /\ selection s
     = {| selectedYear := Some 2023; selectedMonth := Some 2;
          selectedDay := Some 28 |}
  /\ (exists date,
        snd (step P s PressConfirm) = [CallConfirm (Some date); CallDismiss]
        /\ getFullYear date = 2023 /\ getMonth date + 1 = 2
        /\ getDate date = 28 /\ TimeWithinDay date = 0)
  /\ snd (step P s PressCancel) = [CallCancel; CallDismiss]
  /\ visible (mount P) = false
  /\ length (filter isDismiss
               (snd (run P (mount P) (Open :: cycle ++ [Close]))))
     = 1%nat.
Proof.
  cbv zeta.
  set (P := scenarioProps (Some (newDate 2023 1 28))).
  set (s := fst (run P (mount P) opening)).
  assert (V : visible s = true) by (vm_compute; reflexivity).
  assert (S : settled s = true) by (vm_compute; reflexivity).
  assert (E : selection s
              = {| selectedYear := Some 2023; selectedMonth := Some 2;
                   selectedDay := Some 28 |}) by (vm_compute; reflexivity).
  assert (Hy : ~ (0 <= 2023 <= 99)) by lia.
  assert (Hm : 1 <= 2 <= 12) by lia.
  assert (Hd : 1 <= 28 <= daysInMonth 2023 2)
    by (vm_compute; split; discriminate).
  assert (V0 : visible (mount P) = false) by reflexivity.
  assert (W : forallb withinCycle [Effects; InitTimer; InitDone; PressConfirm]
              = true) by reflexivity.
  destruct (confirm_then_dismiss P eq_refl eq_refl eq_refl) as (T1 & _ & T3).
  destruct (T1 s 2023 2 28 V S E Hy Hm Hd) as (A & C & _).
  destruct (T3 (mount P) _ V0 W) as (D & _).
  split; [reflexivity |]. split; [reflexivity |]. split; [reflexivity |].
  split; [exact V |]. split; [exact S |]. split; [exact E |].
  split; [exact A |]. split; [exact C |]. split; [exact V0 | exact D].
Defined.

End Scenarios.

(** ** The further properties at concrete inputs *)

Section FurtherScenarios.



(** The opened dialog, the programmatic scroll of its year column over: the
    user scrolls that column to the offset of index 77, the year 2022. *)
Lemma handleScroll_selects_entry_witness :
  let P := scenarioProps (Some (newDate 2023 8 20)) in
  let s := fst (run P (mount P) (opening ++ [AutoScrollEnd ColYear])) in
  let column := ColYear in
  let y := scrollY 77 in
  isAutoScrolling (columnState s column) = false
  /\ let values := columnValues P (selection s) column in
     let i := indexOfOffset values y in
     let s' := handleScroll P column y s in
     (centerIndex (columnState s column) <> i ->
      columnSelected (selection s') column = js_index values i
      /\ (forall c, c <> column ->
                    columnSelected (selection s') c
                    = columnSelected (selection s) c))
     /\ (centerIndex (columnState s column) = i -> selection s' = selection s)
     /\ centerIndex (columnState s' column) = i
     /\ scrollStopTimer (columnState s' column) = Some (selection s)
     /\ selection (handleMomentumScrollEnd P column y s) = selection s'.
Proof.
  intros P s column y.
  assert (H1 : isAutoScrolling (columnState s column) = false)
    by (vm_compute; reflexivity).
  split; [exact H1 |].
  exact (handleScroll_selects_entry P column y s H1).
Defined.

(** The same scroll, and the scroll-stop timer it armed. *)
Lemma scroll_stop_snaps_to_nearest_item_witness :
  let P := scenarioProps (Some (newDate 2023 8 20)) in
  let s := fst (run P (mount P) (opening ++ [AutoScrollEnd ColYear])) in
  let column := ColYear in
  let y := scrollY 77 in
  visible s = true
  /\ isAutoScrolling (columnState s column) = false
  /\ let values := columnValues P (selection s) column in
     let i := indexOfOffset values y in
     let r := step P (handleScroll P column y s) (ScrollStopTimer column) in
     snd r = [ScrollTo column (scrollY i) true]
     /\ (scrollY i == inject_Z (ITEM_HEIGHT * i))%Q
     /\ centerIndex (columnState (fst r) column) = i
     /\ isAutoScrolling (columnState (fst r) column) = true
     /\ scrollStopTimer (columnState (fst r) column) = None.
Proof.
  intros P s column y.
  assert (H1 : visible s = true) by (vm_compute; reflexivity).
  assert (H2 : isAutoScrolling (columnState s column) = false)
    by (vm_compute; reflexivity).
  split; [exact H1 |]. split; [exact H2 |].
  exact (scroll_stop_snaps_to_nearest_item P column y s H1 H2).
Defined.

(** A tap on the third item of the month column of the opened dialog. *)
Lemma handleItemPress_selects_entry_witness :
  let P := scenarioProps (Some (newDate 2023 8 20)) in
  let s := fst (run P (mount P) opening) in
  let column := ColMonth in
  let index := 2 in
  visible s = true
  /\ column <> ColDay
  /\ let values := columnValues P (selection s) column in
     let j := clampIndex values index in
     let r := handleItemPress P column index s in
     columnSelected (selection (fst r)) column = js_index values j
     /\ (forall c, c <> column ->
                   columnSelected (selection (fst r)) c
                   = columnSelected (selection s) c)
     /\ snd r = [ScrollTo column (scrollY j) true]
     /\ (scrollY j == inject_Z (ITEM_HEIGHT * j))%Q
     /\ columnState (fst r) column
        = {| scrollStopTimer := None; isAutoScrolling := true;
             centerIndex := j |}.
Proof.
  intros P s column index.
  assert (H1 : visible s = true) by (vm_compute; reflexivity).
  assert (H2 : column <> ColDay) by discriminate.
  split; [exact H1 |]. split; [exact H2 |].
  exact (handleItemPress_selects_entry P column index s H1 H2).
Defined.

(** Clock at 2024-06-15, [initialDate] 2024-06-10.  The mounted component
    holds the 15th, the seed changes the day only, so the memoised handler
    still sees the 15th: a tap on the 15th leaves the 10th selected. *)
Lemma day_tap_compares_with_memoised_day_witness :
  let P := scenarioProps (Some (newDate 2024 5 10)) in
  let s := fst (run P (mount P) opening) in
  selection s
  = {| selectedYear := Some 2024; selectedMonth := Some 6;
       selectedDay := Some 10 |}
  /\ pressSelectedDay s = Some 15
  /\ js_index (columnValues P (selection s) ColDay)
       (clampIndex (columnValues P (selection s) ColDay) 14)
     = Some 15
  /\ selection (fst (handleItemPress P ColDay 14 s)) = selection s.
Proof.
  intros P s.
  assert (H1 : selection s
               = {| selectedYear := Some 2024; selectedMonth := Some 6;
                    selectedDay := Some 10 |}) by (vm_compute; reflexivity).
  assert (H2 : pressSelectedDay s = Some 15) by (vm_compute; reflexivity).
  assert (H3 : js_index (columnValues P (selection s) ColDay)
                 (clampIndex (columnValues P (selection s) ColDay) 14)
               = Some 15) by (vm_compute; reflexivity).
  split; [exact H1 |]. split; [exact H2 |]. split; [exact H3 |].
  exact (proj1 (proj2 (day_tap_compares_with_memoised_day P 14 s))
           (eq_trans H3 (eq_sym H2))).
Defined.

(** 2024-01-31 selected, a tap on February: the 29th. *)
Lemma month_change_clamps_day_witness :
  let P := scenarioProps (Some (newDate 2024 0 31)) in
  let s := fst (run P (mount P) opening) in
  let index := 1 in
  let y := 2024 in
  let m := 1 in
  let d := 31 in
  minDate P <= effectiveMaxDate P
  /\ getFullYear (minDate P) <> 0
  /\ freshMinDate P = false
  /\ visible s = true
  /\ isInitializing s = false
  /\ settled s = true
  /\ selection s
     = {| selectedYear := Some y; selectedMonth := Some m;
          selectedDay := Some d |}
  /\ legal P (selection s) = true
  /\ let s' := settle P settleFuel (fst (handleItemPress P ColMonth index s)) in
     exists m' lo hi,
       js_index (buildMonthList P (Some y))
         (clampIndex (buildMonthList P (Some y)) index) = Some m'
       /\ buildDayList P (Some y) (Some m') = interval lo hi /\ lo <= hi
       /\ selection s'
          = {| selectedYear := Some y; selectedMonth := Some m';
               selectedDay := Some (Z.max lo (Z.min d hi)) |}
       /\ settled s' = true.
Proof.
  intros P s index y m d.
  assert (H1 : minDate P <= effectiveMaxDate P) by (vm_compute; discriminate).
  assert (H2 : getFullYear (minDate P) <> 0) by (vm_compute; discriminate).
  assert (H3 : freshMinDate P = false) by reflexivity.
  assert (H4 : visible s = true) by (vm_compute; reflexivity).
  assert (H5 : isInitializing s = false) by (vm_compute; reflexivity).
  assert (H6 : settled s = true) by (vm_compute; reflexivity).
  assert (H7 : selection s
               = {| selectedYear := Some y; selectedMonth := Some m;
                    selectedDay := Some d |}) by (vm_compute; reflexivity).
  assert (H8 : legal P (selection s) = true) by (vm_compute; reflexivity).
  split; [exact H1 |]. split; [exact H2 |]. split; [exact H3 |].
  split; [exact H4 |]. split; [exact H5 |]. split; [exact H6 |].
  split; [exact H7 |]. split; [exact H8 |].
  exact (month_change_clamps_day P s index y m d H1 H2 H3 H4 H5 H6 H7 H8).
Defined.

(** 2023-09-20 selected, a tap on 2024, whose months end with June. *)
Lemma year_change_keeps_or_resets_month_witness :
  let P := scenarioProps (Some (newDate 2023 8 20)) in
  let s := fst (run P (mount P) opening) in
  let index := 79 in
  let y := 2023 in
  let m := 9 in
  let d := 20 in
  minDate P <= effectiveMaxDate P
  /\ getFullYear (minDate P) <> 0
  /\ freshMinDate P = false
  /\ visible s = true
  /\ isInitializing s = false
  /\ settled s = true
  /\ selection s
     = {| selectedYear := Some y; selectedMonth := Some m;
          selectedDay := Some d |}
  /\ legal P (selection s) = true
  /\ let s' := settle P settleFuel (fst (handleItemPress P ColYear index s)) in
     exists y' lo hi,
       js_index (buildYearList P) (clampIndex (buildYearList P) index) = Some y'
       /\ buildMonthList P (Some y') = interval lo hi /\ lo <= hi
       /\ selectedYear (selection s') = Some y'
       /\ selectedMonth (selection s')
          = Some (if (lo <=? m) && (m <=? hi) then m else lo)
       /\ (lo <= m <= hi ->
           exists dlo dhi,
             buildDayList P (Some y') (Some m) = interval dlo dhi /\ dlo <= dhi
             /\ selectedDay (selection s') = Some (Z.max dlo (Z.min d dhi)))
       /\ settled s' = true.
Proof.
  intros P s index y m d.
  assert (H1 : minDate P <= effectiveMaxDate P) by (vm_compute; discriminate).
  assert (H2 : getFullYear (minDate P) <> 0) by (vm_compute; discriminate).
  assert (H3 : freshMinDate P = false) by reflexivity.
  assert (H4 : visible s = true) by (vm_compute; reflexivity).
  assert (H5 : isInitializing s = false) by (vm_compute; reflexivity).
  assert (H6 : settled s = true) by (vm_compute; reflexivity).
  assert (H7 : selection s
               = {| selectedYear := Some y; selectedMonth := Some m;
                    selectedDay := Some d |}) by (vm_compute; reflexivity).
  assert (H8 : legal P (selection s) = true) by (vm_compute; reflexivity).
  split; [exact H1 |]. split; [exact H2 |]. split; [exact H3 |].
  split; [exact H4 |]. split; [exact H5 |]. split; [exact H6 |].
  split; [exact H7 |]. split; [exact H8 |].
  exact (year_change_keeps_or_resets_month P s index y m d
           H1 H2 H3 H4 H5 H6 H7 H8).
Defined.

(** The state right after a tap on 2024 made while the flag is up: the
    effects of that change are waiting. *)
Lemma change_while_initializing_is_never_synchronised_witness :
  let P := scenarioProps (Some (newDate 2023 8 20)) in
  let s := fst (handleItemPress P ColYear 79
                  (fst (run P (mount P) [Open; Effects; InitTimer]))) in
  isInitializing s = true
  /\ pendingInit s = false
  /\ pendingMonthSync s = true
  /\ initDoneTimer s = true
  /\ let s1 := settle P settleFuel s in
     let s2 := initDoneFired s1 in
     selection s1 = selection s /\ settled s1 = true
     /\ selection s2 = selection s /\ settled s2 = true
     /\ flushEffects P s2 = s2
     /\ (initDoneTimer s = true -> isInitializing s2 = false).
Proof.
  intros P s.
  assert (H1 : isInitializing s = true) by (vm_compute; reflexivity).
  assert (H2 : pendingInit s = false) by (vm_compute; reflexivity).
  assert (H3 : pendingMonthSync s = true) by (vm_compute; reflexivity).
  assert (H4 : initDoneTimer s = true) by (vm_compute; reflexivity).
  split; [exact H1 |]. split; [exact H2 |]. split; [exact H3 |].
  split; [exact H4 |].
  exact (change_while_initializing_is_never_synchronised P s H1 H2).
Defined.


(** The dialog is hidden before the 100 ms timer of its opening is due. *)
Lemma hidden_dialog_timers_do_nothing_witness :
  let P := scenarioProps (Some (newDate 2023 8 20)) in
  let s := fst (run P (mount P) [Open; Effects; Close]) in
  let e := InitTimer in
  visible s = false
  /\ isTimer e = true
  /\ snd (step P s e) = []
  /\ selection (fst (step P s e)) = selection s
  /\ visible (fst (step P s e)) = false.
Proof.
  intros P s e.
  assert (H1 : visible s = false) by (vm_compute; reflexivity).
  assert (H2 : isTimer e = true) by reflexivity.
  split; [exact H1 |]. split; [exact H2 |].
  exact (hidden_dialog_timers_do_nothing P s e H1 H2).
Defined.

(** The leap day of 2024 in the scenario's range. *)
Lemma lists_offer_exactly_the_range_witness :
  let P := scenarioProps None in
  let sel := {| selectedYear := Some 2024; selectedMonth := Some 2;
                selectedDay := Some 29 |} in
  minDate P <= effectiveMaxDate P
  /\ getFullYear (minDate P) <> 0
  /\ legal P sel = true
  /\ selection_in_range P sel.
Proof.
  intros P sel.
  assert (H1 : minDate P <= effectiveMaxDate P) by (vm_compute; discriminate).
  assert (H2 : getFullYear (minDate P) <> 0) by (vm_compute; discriminate).
  assert (H3 : legal P sel = true) by (vm_compute; reflexivity).
  split; [exact H1 |]. split; [exact H2 |]. split; [exact H3 |].
  exact (proj1 (lists_offer_exactly_the_range P sel H1 H2) H3).
Defined.

End FurtherScenarios.
